(** * The CMSIS-DAP transport engine of xdebug (src/src/transport.c)

    A shallow embedding of the transfer queue, the register mirrors, the
    status decoder, the attach sequence and the probe configuration, with
    the properties of the transport stated over it.

    Conventions of the embedding:
    - [uint8_t] and [uint32_t] values are integers of [Z]; every store to
      such a location writes its wrap-around ([u8], [u32]) out;
    - [txbuf] and [rxptr] are lists of fixed length, written by index; the
      cursors [txnext] and [rxnext] are offsets into them.  A write past the
      end of an array, undefined in C, leaves the list as it is: the
      properties of bounds below are stated on the cursors;
    - the USB carrier is an oracle: a script of the results of the coming
      [usb_write] and [usb_read] calls, and the log of the packets handed to
      [usb_write];
    - [printf], [ERROR], [TRACE] and [dump] have no effect on the state and
      are left out. *)

From Stdlib Require Import ZArith Lia List Bool.
From stdpp Require Import base list.
Import ListNotations.
Local Open Scope Z_scope.

(** ** Machine integers and byte buffers *)

Definition u8 (x : Z) : Z := x mod 256.
Definition u32 (x : Z) : Z := x mod 4294967296.

(** [#define INVALID 0xFFFFFFFFU] *)
Definition INVALID : Z := 0xFFFFFFFF.

(** [buf[i]] read and written; an index outside the array reads as 0. *)
Definition peek (buf : list Z) (i : Z) : Z := default 0 (buf !! Z.to_nat i).
Definition poke (buf : list Z) (i : Z) (b : Z) : list Z := <[Z.to_nat i := b]> buf.

(** [memcpy(buf + i, bs, length bs)] *)
Fixpoint poke_bytes (buf : list Z) (i : Z) (bs : list Z) : list Z :=
  match bs with
  | [] => buf
  | b :: bs' => poke_bytes (poke buf i b) (i + 1) bs'
  end.

(** The four bytes of a [uint32_t] in memory, and back (little-endian host,
    as the wire format requires). *)
Definition le_bytes32 (v : Z) : list Z :=
  [u8 v; u8 (Z.shiftr v 8); u8 (Z.shiftr v 16); u8 (Z.shiftr v 24)].

Definition le_word32 (buf : list Z) (i : Z) : Z :=
  Z.lor (peek buf i)
    (Z.lor (Z.shiftl (peek buf (i + 1)) 8)
       (Z.lor (Z.shiftl (peek buf (i + 2)) 16)
              (Z.shiftl (peek buf (i + 3)) 24))).

(** ** The headers

    cmsis-dap-protocol.h, arm-debug.h and transport.h are not among the
    sources.  The constants and macros transport.c takes from them, and whose
    values nothing else fixes, are parameters of the development. *)

Class Headers := {
  (* cmsis-dap-protocol.h *)
  DI_Capabilities : Z;
  DI_UART_RX_Buffer_Size : Z;
  DI_UART_TX_Buffer_Size : Z;
  DI_SWO_Trace_Buffer_Size : Z;
  DI_Max_Packet_Count : Z;
  DI_Max_Packet_Size : Z;
  PORT_SWD : Z;
  CFG_Turnaround_1 : Z;
  RSP_ACK_MASK : Z;
  RSP_ACK_OK : Z;
  RSP_ACK_WAIT : Z;
  RSP_ACK_FAULT : Z;
  RSP_ProtocolError : Z;
  RSP_ValueMismatch : Z;
  (* arm-debug.h *)
  DP_SELECT : Z;
  DP_SELECT_DPBANK : Z -> Z;
  DP_SELECT_APBANK : Z -> Z;
  DP_SELECT_AP : Z -> Z;
  (* transport.h *)
  DC_MULTIDROP : Z
}.

(** The values of the CMSIS-DAP protocol and of the ADIv5 architecture, used
    to run the code on concrete inputs. *)
Definition adiv5_headers : Headers := {|
  DI_Capabilities := 0xF0;
  DI_UART_RX_Buffer_Size := 0xFB;
  DI_UART_TX_Buffer_Size := 0xFC;
  DI_SWO_Trace_Buffer_Size := 0xFD;
  DI_Max_Packet_Count := 0xFE;
  DI_Max_Packet_Size := 0xFF;
  PORT_SWD := 1;
  CFG_Turnaround_1 := 0;
  RSP_ACK_MASK := 0x07;
  RSP_ACK_OK := 0x01;
  RSP_ACK_WAIT := 0x02;
  RSP_ACK_FAULT := 0x04;
  RSP_ProtocolError := 0x08;
  RSP_ValueMismatch := 0x10;
  DP_SELECT := 0x08;
  DP_SELECT_DPBANK := fun n => Z.land n 0xF;
  DP_SELECT_APBANK := fun n => Z.shiftl (Z.land n 0xF) 4;
  DP_SELECT_AP := fun n => Z.land n 0xFF000000;
  DC_MULTIDROP := 1
|}.

(** Modelled from the spec: the opcodes of cmsis-dap-protocol.h, which is
    missing; section 6 lists them bit-exactly. *)
Definition DAP_Info : Z := 0x00.
Definition DAP_Connect : Z := 0x02.
Definition DAP_TransferConfigure : Z := 0x04.
Definition DAP_Transfer : Z := 0x05.
Definition DAP_SWD_Configure : Z := 0x13.
Definition DAP_SWD_Sequence : Z := 0x1D.

(** Modelled from the spec: the bits of a transfer request byte, of the
    missing cmsis-dap-protocol.h; section 6: bit 0 is AP (else DP), bit 1 is RD
    (else WR), bits 2..3 the register, bit 4 ValueMatch, bit 5 MatchMask. *)
Definition XFER_DP : Z := 0x00.
Definition XFER_AP : Z := 0x01.
Definition XFER_WR : Z := 0x00.
Definition XFER_RD : Z := 0x02.
Definition XFER_00 : Z := 0x00.
Definition XFER_ValueMatch : Z := 0x10.
Definition XFER_MatchMask : Z := 0x20.

(** Modelled from the spec: the status codes of the missing transport.h, one
    per kind of the error taxonomy of section 7.  In C they are an [int], 0
    for [DC_OK] and negative otherwise (the code tests [r < 0]).  transport.c
    never uses the code for InvalidArg, whose C name is not known. *)
Inductive dc_code : Set :=
  | DC_OK
  | DC_ERR_FAILED
  | DC_ERR_INVALID_ARG
  | DC_ERR_IO
  | DC_ERR_OFFLINE
  | DC_ERR_PROTOCOL
  | DC_ERR_TIMEOUT
  | DC_ERR_SWD_FAULT
  | DC_ERR_SWD_PARITY
  | DC_ERR_SWD_SILENT
  | DC_ERR_SWD_BOGUS
  | DC_ERR_MATCH
  | DC_ERR_UNSUPPORTED
  | DC_ERR_REMOTE.

Definition is_ok (r : dc_code) : bool :=
  match r with DC_OK => true | _ => false end.

(** An [int] result that is either a byte count or a status code. *)
Inductive ret : Set :=
  | Sz (n : Z)
  | Fail (e : dc_code).

(** ** The USB carrier (usb.h, external) *)

Record usb_handle : Set := mk_usb {
  usb_wr : list Z;               (* results of the coming usb_write calls *)
  usb_rd : list (Z * list Z);    (* results of the coming usb_read calls:
                                    the count returned, the bytes delivered *)
  usb_out : list (list Z)        (* packets handed to usb_write, oldest first *)
}.

(** [usb_write(usb, buf, len)]: the packet is logged, the result is the
    carrier's; an exhausted script reports failure. *)
Definition usb_write (u : usb_handle) (buf : list Z) (len : Z) : usb_handle * Z :=
  let pkt := take (Z.to_nat len) buf in
  match usb_wr u with
  | r :: rest => (mk_usb rest (usb_rd u) (usb_out u ++ [pkt]), r)
  | [] => (mk_usb [] (usb_rd u) (usb_out u ++ [pkt]), -1)
  end.

(** [usb_read(usb, buf, len)]: at most [len] bytes land in [buf]. *)
Definition usb_read (u : usb_handle) (buf : list Z) (len : Z)
  : usb_handle * Z * list Z :=
  match usb_rd u with
  | (n, data) :: rest =>
      (mk_usb (usb_wr u) rest (usb_out u), n,
       poke_bytes buf 0 (take (Z.to_nat len) (map u8 data)))
  | [] => (u, -1, buf)
  end.

(** ** [struct debug_context]

    [usb] holds the state of the carrier the handle points to.  [mem] is not a
    field of the C struct: it is the caller's memory the [rxptr] entries point
    into, as the list of the words stored there, newest first. *)

Record DC : Set := mkDC {
  usb : usb_handle;
  status : Z;
  max_packet_count : Z;
  max_packet_size : Z;
  cfg_idle : Z;
  cfg_wait : Z;
  cfg_match : Z;
  cfg_mask : Z;
  dp_select : Z;
  dp_select_cache : Z;
  txbuf : list Z;
  rxptr : list Z;
  txnext : Z;
  rxnext : Z;
  txavail : Z;
  rxavail : Z;
  qerror : dc_code;
  mem : list (Z * Z)
}.

Definition set_usb (v : usb_handle) (dc : DC) : DC :=
  mkDC v (status dc) (max_packet_count dc) (max_packet_size dc) (cfg_idle dc)
    (cfg_wait dc) (cfg_match dc) (cfg_mask dc) (dp_select dc)
    (dp_select_cache dc) (txbuf dc) (rxptr dc) (txnext dc) (rxnext dc)
    (txavail dc) (rxavail dc) (qerror dc) (mem dc).

Definition set_max_packet_count (v : Z) (dc : DC) : DC :=
  mkDC (usb dc) (status dc) v (max_packet_size dc) (cfg_idle dc)
    (cfg_wait dc) (cfg_match dc) (cfg_mask dc) (dp_select dc)
    (dp_select_cache dc) (txbuf dc) (rxptr dc) (txnext dc) (rxnext dc)
    (txavail dc) (rxavail dc) (qerror dc) (mem dc).

Definition set_max_packet_size (v : Z) (dc : DC) : DC :=
  mkDC (usb dc) (status dc) (max_packet_count dc) v (cfg_idle dc)
    (cfg_wait dc) (cfg_match dc) (cfg_mask dc) (dp_select dc)
    (dp_select_cache dc) (txbuf dc) (rxptr dc) (txnext dc) (rxnext dc)
    (txavail dc) (rxavail dc) (qerror dc) (mem dc).

Definition set_cfg (idle wait match_ : Z) (dc : DC) : DC :=
  mkDC (usb dc) (status dc) (max_packet_count dc) (max_packet_size dc) idle
    wait match_ (cfg_mask dc) (dp_select dc)
    (dp_select_cache dc) (txbuf dc) (rxptr dc) (txnext dc) (rxnext dc)
    (txavail dc) (rxavail dc) (qerror dc) (mem dc).

Definition set_cfg_mask (v : Z) (dc : DC) : DC :=
  mkDC (usb dc) (status dc) (max_packet_count dc) (max_packet_size dc)
    (cfg_idle dc) (cfg_wait dc) (cfg_match dc) v (dp_select dc)
    (dp_select_cache dc) (txbuf dc) (rxptr dc) (txnext dc) (rxnext dc)
    (txavail dc) (rxavail dc) (qerror dc) (mem dc).

Definition set_dp_select_cache (v : Z) (dc : DC) : DC :=
  mkDC (usb dc) (status dc) (max_packet_count dc) (max_packet_size dc)
    (cfg_idle dc) (cfg_wait dc) (cfg_match dc) (cfg_mask dc) (dp_select dc)
    v (txbuf dc) (rxptr dc) (txnext dc) (rxnext dc)
    (txavail dc) (rxavail dc) (qerror dc) (mem dc).

Definition set_txbuf (v : list Z) (dc : DC) : DC :=
  mkDC (usb dc) (status dc) (max_packet_count dc) (max_packet_size dc)
    (cfg_idle dc) (cfg_wait dc) (cfg_match dc) (cfg_mask dc) (dp_select dc)
    (dp_select_cache dc) v (rxptr dc) (txnext dc) (rxnext dc)
    (txavail dc) (rxavail dc) (qerror dc) (mem dc).

Definition set_rxptr (v : list Z) (dc : DC) : DC :=
  mkDC (usb dc) (status dc) (max_packet_count dc) (max_packet_size dc)
    (cfg_idle dc) (cfg_wait dc) (cfg_match dc) (cfg_mask dc) (dp_select dc)
    (dp_select_cache dc) (txbuf dc) v (txnext dc) (rxnext dc)
    (txavail dc) (rxavail dc) (qerror dc) (mem dc).

Definition set_txnext (v : Z) (dc : DC) : DC :=
  mkDC (usb dc) (status dc) (max_packet_count dc) (max_packet_size dc)
    (cfg_idle dc) (cfg_wait dc) (cfg_match dc) (cfg_mask dc) (dp_select dc)
    (dp_select_cache dc) (txbuf dc) (rxptr dc) v (rxnext dc)
    (txavail dc) (rxavail dc) (qerror dc) (mem dc).

Definition set_rxnext (v : Z) (dc : DC) : DC :=
  mkDC (usb dc) (status dc) (max_packet_count dc) (max_packet_size dc)
    (cfg_idle dc) (cfg_wait dc) (cfg_match dc) (cfg_mask dc) (dp_select dc)
    (dp_select_cache dc) (txbuf dc) (rxptr dc) (txnext dc) v
    (txavail dc) (rxavail dc) (qerror dc) (mem dc).

Definition set_txavail (v : Z) (dc : DC) : DC :=
  mkDC (usb dc) (status dc) (max_packet_count dc) (max_packet_size dc)
    (cfg_idle dc) (cfg_wait dc) (cfg_match dc) (cfg_mask dc) (dp_select dc)
    (dp_select_cache dc) (txbuf dc) (rxptr dc) (txnext dc) (rxnext dc)
    v (rxavail dc) (qerror dc) (mem dc).

Definition set_rxavail (v : Z) (dc : DC) : DC :=
  mkDC (usb dc) (status dc) (max_packet_count dc) (max_packet_size dc)
    (cfg_idle dc) (cfg_wait dc) (cfg_match dc) (cfg_mask dc) (dp_select dc)
    (dp_select_cache dc) (txbuf dc) (rxptr dc) (txnext dc) (rxnext dc)
    (txavail dc) v (qerror dc) (mem dc).

Definition set_qerror (v : dc_code) (dc : DC) : DC :=
  mkDC (usb dc) (status dc) (max_packet_count dc) (max_packet_size dc)
    (cfg_idle dc) (cfg_wait dc) (cfg_match dc) (cfg_mask dc) (dp_select dc)
    (dp_select_cache dc) (txbuf dc) (rxptr dc) (txnext dc) (rxnext dc)
    (txavail dc) (rxavail dc) v (mem dc).

Definition set_mem (v : list (Z * Z)) (dc : DC) : DC :=
  mkDC (usb dc) (status dc) (max_packet_count dc) (max_packet_size dc)
    (cfg_idle dc) (cfg_wait dc) (cfg_match dc) (cfg_mask dc) (dp_select dc)
    (dp_select_cache dc) (txbuf dc) (rxptr dc) (txnext dc) (rxnext dc)
    (txavail dc) (rxavail dc) (qerror dc) v.

Section Transport.
Context {hdr : Headers}.

(** ** The CMSIS-DAP command layer *)

(** [dap_get_info]: the result, and the bytes copied to [out].  The C buffer
    is not initialised; its bytes beyond the two written read as 0 here. *)
Definition dap_get_info (dc : DC) (di minlen maxlen : Z) : DC * ret * list Z :=
  let buf := poke (poke (replicate 258 0) 0 DAP_Info) 1 (u8 di) in
  let '(u, w) := usb_write (usb dc) buf 2 in
  let dc := set_usb u dc in
  if negb (w =? 2) then (dc, Fail DC_ERR_IO, [])
  else
    let '(u, sz, buf) := usb_read (usb dc) buf (256 + 2) in
    let dc := set_usb u dc in
    if (sz <? 2) || negb (peek buf 0 =? DAP_Info) then
      (dc, Fail DC_ERR_PROTOCOL, [])
    else if (peek buf 1 <? minlen) || (peek buf 1 >? maxlen) then
      (dc, Fail DC_ERR_PROTOCOL, [])
    else
      (dc, Sz (peek buf 1), take (Z.to_nat (peek buf 1)) (drop 2 buf)).

(** [dap_cmd]: the result and the contents of [rx] afterwards. *)
Definition dap_cmd (dc : DC) (tx : list Z) (txlen : Z) (rx : list Z) (rxlen : Z)
  : DC * ret * list Z :=
  let cmd := peek tx 0 in
  let '(u, w) := usb_write (usb dc) tx txlen in
  let dc := set_usb u dc in
  if negb (w =? txlen) then (dc, Fail DC_ERR_IO, rx)
  else
    let '(u, sz, rx) := usb_read (usb dc) rx rxlen in
    let dc := set_usb u dc in
    if sz <? 1 then (dc, Fail DC_ERR_IO, rx)
    else if negb (peek rx 0 =? cmd) then (dc, Fail DC_ERR_UNSUPPORTED, rx)
    else (dc, Sz sz, rx).

(** [dap_cmd_std]: [io] is both the command and the buffer of the response. *)
Definition dap_cmd_std (dc : DC) (io : list Z) (txlen rxlen : Z) : DC * dc_code :=
  let '(dc, r, io) := dap_cmd dc io txlen io rxlen in
  match r with
  | Fail e => (dc, e)
  | Sz _ => if negb (peek io 1 =? 0) then (dc, DC_ERR_REMOTE) else (dc, DC_OK)
  end.

Definition dap_connect (dc : DC) : DC * dc_code :=
  dap_cmd_std dc [DAP_Connect; u8 PORT_SWD] 2 2.

Definition dap_swd_configure (dc : DC) (cfg : Z) : DC * dc_code :=
  dap_cmd_std dc [DAP_SWD_Configure; u8 cfg] 2 2.

Definition dap_xfer_config (dc : DC) (idle wait match_ : Z) : DC * dc_code :=
  (* clamp to allowed max values *)
  let idle := if idle >? 255 then 255 else idle in
  let wait := if wait >? 65535 then 65535 else wait in
  let match_ := if match_ >? 65535 then 65535 else match_ in
  (* do nothing if unchanged from last set values *)
  if (cfg_idle dc =? idle) && (cfg_wait dc =? wait) && (cfg_match dc =? match_)
  then (dc, DC_OK)
  else
    (* cache new values, inform the probe *)
    let dc := set_cfg idle wait match_ dc in
    dap_cmd_std dc
      [DAP_TransferConfigure; u8 idle; u8 wait; u8 (Z.shiftr wait 8);
       u8 match_; u8 (Z.shiftr match_ 8)] 6 2.

(** ** The transfer queue *)

Definition dc_q_clear (dc : DC) : DC :=
  let dc := set_txnext 3 dc in
  let dc := set_rxnext 0 dc in
  let dc := set_txavail (u32 (max_packet_size dc - 3)) dc in
  let dc := set_rxavail (u32 (max_packet_size dc - 3)) dc in
  let dc := set_qerror DC_OK dc in
  let dc := set_dp_select_cache INVALID dc in
  let dc := set_cfg_mask INVALID dc in
  set_txbuf (poke (poke (poke (txbuf dc) 0 DAP_Transfer) 1 0) 2 0) dc.

Definition dc_q_init (dc : DC) : DC := dc_q_clear dc.

(** unpack the status bits into a useful status code *)
Definition dc_decode_status (n : Z) : dc_code :=
  let ack := Z.land n RSP_ACK_MASK in
  if negb (Z.land n RSP_ProtocolError =? 0) then DC_ERR_SWD_PARITY
  else if ack =? RSP_ACK_OK then
    if negb (Z.land n RSP_ValueMismatch =? 0) then DC_ERR_MATCH else DC_OK
  else if ack =? RSP_ACK_WAIT then DC_ERR_TIMEOUT
  else if ack =? RSP_ACK_FAULT then DC_ERR_SWD_FAULT
  else if ack =? RSP_ACK_MASK then DC_ERR_SWD_SILENT
  else DC_ERR_SWD_BOGUS.

(** The loop of [dc_q_exec] storing response word [i], [i+1], ... through
    [rxptr[i]]. *)
Fixpoint scatter (cnt : nat) (i : Z) (rxbuf : list Z) (dc : DC) : DC :=
  match cnt with
  | O => dc
  | S k =>
      scatter k (i + 1) rxbuf
        (set_mem ((peek (rxptr dc) i, le_word32 rxbuf (3 + 4 * i)) :: mem dc) dc)
  end.

Definition dc_q_exec (dc : DC) : DC * dc_code :=
  (* if we're already in error, don't generate more usb traffic *)
  if negb (is_ok (qerror dc)) then (dc_q_clear dc, qerror dc)
  (* if we have no work to do, succeed *)
  else if peek (txbuf dc) 2 =? 0 then (dc, DC_OK)
  else
    let sz := txnext dc in
    let '(u, w) := usb_write (usb dc) (txbuf dc) sz in
    let dc := set_usb u dc in
    if negb (w =? sz) then (dc, DC_ERR_IO)
    else
      let sz := 3 + rxnext dc * 4 in
      let '(u, n, rxbuf) := usb_read (usb dc) (replicate 1024 0xEE) sz in
      let dc := set_usb u dc in
      if n <? 0 then (dc, DC_ERR_IO)
      else if (n <? 3) || negb (peek rxbuf 0 =? DAP_Transfer) then
        (dc, DC_ERR_PROTOCOL)
      else
        let r := dc_decode_status (peek rxbuf 2) in
        let dc :=
          if is_ok r then scatter (Z.to_nat ((n - 3) ÷ 4)) 0 rxbuf dc else dc in
        (dc_q_clear dc, r).

(** The statements of [dc_q_raw_rd] after the check for space. *)
Definition raw_rd_append (dc : DC) (req : Z) (val : Z) : DC :=
  let dc := set_txbuf (poke (txbuf dc) (txnext dc) (u8 req)) dc in
  let dc := set_rxptr (poke (rxptr dc) (rxnext dc) val) dc in
  let dc := set_txnext (txnext dc + 1) dc in
  let dc := set_rxnext (rxnext dc + 1) dc in
  let dc := set_txbuf (poke (txbuf dc) 2 (u8 (peek (txbuf dc) 2 + 1))) dc in
  let dc := set_txavail (u32 (txavail dc - 1)) dc in
  set_rxavail (u32 (rxavail dc - 4)) dc.

(** internal use only: queue raw dp reads and writes;
    these do not check req for correctness *)
Definition dc_q_raw_rd (dc : DC) (req : Z) (val : Z) : DC :=
  if (txavail dc <? 1) || (rxavail dc <? 4) then
    (* exec q to make space for more work, but if there's an error, latch it *)
    let '(dc, r) := dc_q_exec dc in
    let dc := set_qerror r dc in
    if negb (is_ok r) then dc else raw_rd_append dc req val
  else raw_rd_append dc req val.

(** The statements of [dc_q_raw_wr] after the check for space. *)
Definition raw_wr_append (dc : DC) (req : Z) (val : Z) : DC :=
  let dc := set_txbuf (poke (txbuf dc) (txnext dc) (u8 req)) dc in
  let dc := set_txbuf (poke_bytes (txbuf dc) (txnext dc + 1) (le_bytes32 val)) dc in
  let dc := set_txnext (txnext dc + 5) dc in
  let dc := set_txavail (u32 (txavail dc - 5)) dc in
  set_txbuf (poke (txbuf dc) 2 (u8 (peek (txbuf dc) 2 + 1))) dc.

Definition dc_q_raw_wr (dc : DC) (req : Z) (val : Z) : DC :=
  if txavail dc <? 5 then
    let '(dc, r) := dc_q_exec dc in
    let dc := set_qerror r dc in
    if negb (is_ok r) then dc else raw_wr_append dc req val
  else raw_wr_append dc req val.

(** adjust DP.SELECT for desired DP access, if necessary *)
Definition dc_q_dp_sel (dc : DC) (dpaddr : Z) : DC :=
  (* DP address is BANK:4 REG:4 *)
  if negb (Z.land dpaddr 0xFFFFFF03 =? 0) then set_qerror DC_ERR_FAILED dc
  (* only register 4 cares about the value of DP.SELECT.DPBANK *)
  else if negb (Z.land dpaddr 0xF =? 0x4) then dc
  else
    let mask := DP_SELECT_DPBANK 0xF in
    let addr := DP_SELECT_DPBANK (Z.shiftr dpaddr 4) in
    let select := Z.lor (Z.land (dp_select dc) mask) addr in
    if negb (select =? dp_select_cache dc) then
      let dc := set_dp_select_cache select dc in
      dc_q_raw_wr dc (Z.lor (Z.lor XFER_DP XFER_WR) DP_SELECT) select
    else dc.

(** adjust DP.SELECT for desired AP access, if necessary *)
Definition dc_q_ap_sel (dc : DC) (apaddr : Z) : DC :=
  (* AP address is AP:8 BANK:4 REG:4 *)
  if negb (Z.land apaddr 0xFFFF0003 =? 0) then set_qerror DC_ERR_FAILED dc
  else
    (* we always return DPBANK to 0 when adjusting AP & APBANK *)
    let select :=
      Z.lor (DP_SELECT_AP (Z.shiftl (Z.land apaddr 0xFF00) 16))
            (DP_SELECT_APBANK (Z.shiftr apaddr 4)) in
    if negb (select =? dp_select_cache dc) then
      let dc := set_dp_select_cache select dc in
      dc_q_raw_wr dc (Z.lor (Z.lor XFER_DP XFER_WR) DP_SELECT) select
    else dc.

(** DP and AP reads and writes;
    DP.SELECT will be adjusted as necessary to ensure proper addressing *)
Definition dc_q_dp_rd (dc : DC) (dpaddr : Z) (val : Z) : DC :=
  if negb (is_ok (qerror dc)) then dc
  else
    let dc := dc_q_dp_sel dc dpaddr in
    dc_q_raw_rd dc (Z.lor (Z.lor XFER_DP XFER_RD) (Z.land dpaddr 0x0C)) val.

Definition dc_q_dp_wr (dc : DC) (dpaddr : Z) (val : Z) : DC :=
  if negb (is_ok (qerror dc)) then dc
  else
    let dc := dc_q_dp_sel dc dpaddr in
    dc_q_raw_wr dc (Z.lor (Z.lor XFER_DP XFER_WR) (Z.land dpaddr 0x0C)) val.

Definition dc_q_ap_rd (dc : DC) (apaddr : Z) (val : Z) : DC :=
  if negb (is_ok (qerror dc)) then dc
  else
    let dc := dc_q_ap_sel dc apaddr in
    dc_q_raw_rd dc (Z.lor (Z.lor XFER_AP XFER_RD) (Z.land apaddr 0x0C)) val.

Definition dc_q_ap_wr (dc : DC) (apaddr : Z) (val : Z) : DC :=
  if negb (is_ok (qerror dc)) then dc
  else
    let dc := dc_q_ap_sel dc apaddr in
    dc_q_raw_wr dc (Z.lor (Z.lor XFER_AP XFER_WR) (Z.land apaddr 0x0C)) val.

Definition dc_q_set_mask (dc : DC) (mask : Z) : DC :=
  if negb (is_ok (qerror dc)) then dc
  else if cfg_mask dc =? mask then dc
  else
    let dc := set_cfg_mask mask dc in
    dc_q_raw_wr dc (Z.lor XFER_WR XFER_MatchMask) mask.

Definition dc_set_match_retry (dc : DC) (num : Z) : DC :=
  if negb (is_ok (qerror dc)) then dc
  else fst (dap_xfer_config dc (cfg_idle dc) (cfg_wait dc) num).

Definition dc_q_ap_match (dc : DC) (apaddr : Z) (val : Z) : DC :=
  if negb (is_ok (qerror dc)) then dc
  else
    let dc := dc_q_ap_sel dc apaddr in
    dc_q_raw_wr dc
      (Z.lor (Z.lor (Z.lor XFER_AP XFER_RD) XFER_ValueMatch) (Z.land apaddr 0x0C))
      val.

Definition dc_q_dp_match (dc : DC) (apaddr : Z) (val : Z) : DC :=
  if negb (is_ok (qerror dc)) then dc
  else
    let dc := dc_q_ap_sel dc apaddr in
    dc_q_raw_wr dc
      (Z.lor (Z.lor (Z.lor XFER_DP XFER_RD) XFER_ValueMatch) (Z.land apaddr 0x0C))
      val.

(** convenience wrappers for single reads and writes *)
Definition dc_dp_rd (dc : DC) (dpaddr : Z) (val : Z) : DC * dc_code :=
  dc_q_exec (dc_q_dp_rd (dc_q_init dc) dpaddr val).
Definition dc_dp_wr (dc : DC) (dpaddr : Z) (val : Z) : DC * dc_code :=
  dc_q_exec (dc_q_dp_wr (dc_q_init dc) dpaddr val).
Definition dc_ap_rd (dc : DC) (apaddr : Z) (val : Z) : DC * dc_code :=
  dc_q_exec (dc_q_ap_rd (dc_q_init dc) apaddr val).
Definition dc_ap_wr (dc : DC) (apaddr : Z) (val : Z) : DC * dc_code :=
  dc_q_exec (dc_q_ap_wr (dc_q_init dc) apaddr val).

(** ** The attach sequence *)

Definition attach_cmd : list Z := [
  DAP_SWD_Sequence; 5;
  (*    [--- 64 1s ----------------------------------] *)
  0x00; 0xFF; 0xFF; 0xFF; 0xFF; 0xFF; 0xFF; 0xFF; 0xFF;
  (*    [JTAG2SWD]  [- 16 1s ]  [--------------------- *)
  0x00; 0x9E; 0xE7; 0xFF; 0xFF; 0x92; 0xF3; 0x09; 0x62;
  (*    ----- Selection Alert Sequence --------------- *)
  0x00; 0x95; 0x2D; 0x85; 0x86; 0xE9; 0xAF; 0xDD; 0xE3;
  (*    ---------------------]  [Act Code]  [--------- *)
  0x00; 0xA2; 0x0E; 0xBC; 0x19; 0xA0; 0xF1; 0xFF; 0xFF;
  (*    ----- Line Reset Sequence -------] *)
  0x30; 0xFF; 0xFF; 0xFF; 0xFF; 0xFF; 0x0F;
  (*    WR DP TARGETSEL *)
  0x08; 0x99;
  (*    5 bits idle *)
  0x85;
  (*    WR VALUE:32, PARTY:1, ZEROs:7 *)
  0x28; 0x00; 0x00; 0x00; 0x00; 0x00
].

(** [__builtin_parity] on a 32-bit word: 1 when the number of its 1 bits is
    odd, 0 when it is even. *)
Fixpoint xor_bits (n : nat) (x : Z) : bool :=
  match n with
  | O => false
  | S k => xorb (Z.testbit x (Z.of_nat k)) (xor_bits k x)
  end.

Definition builtin_parity (x : Z) : Z := Z.b2z (xor_bits 32 x).

(** [dc_attach]; [idcode] is the address the DP.IDR word is to be stored at.
    The results of the two [dap_cmd] calls are not looked at, nor is [rsp],
    which C leaves uninitialised and is zero here. *)
Definition dc_attach (dc : DC) (flags tgt idcode : Z) : DC * dc_code :=
  let rsp := [0; 0; 0] in
  let dc :=
    if negb (Z.land flags DC_MULTIDROP =? 0) then
      (* copy and patch the attach sequence to include the DP.TARGETSEL
         write and insert the target id and parity *)
      let cmd := attach_cmd in
      let cmd := poke cmd 1 8 in
      let cmd := poke_bytes cmd 49 (le_bytes32 tgt) in
      let cmd := poke cmd 53 (u8 (builtin_parity tgt)) in
      fst (fst (dap_cmd dc cmd 54 rsp 3))
    else
      (* use the common part of the attach sequence, as-is *)
      fst (fst (dap_cmd dc attach_cmd 45 rsp 2)) in
  (* issue a bare DP.IDR read, as required after a line reset *)
  let dc := dc_q_init dc in
  let dc := dc_q_raw_rd dc (Z.lor (Z.lor XFER_DP XFER_RD) XFER_00) idcode in
  dc_q_exec dc.

(** ** Probe configuration and context construction *)

(** [r == n] and [r > 0] on an [int] result; status codes are negative. *)
Definition ret_is (r : ret) (n : Z) : bool :=
  match r with Sz m => m =? n | Fail _ => false end.

(** The loop [for (n = 0; n < 10; n++) dap_get_info(dc, n, buf, 0, 255)] of
    [dap_configure], which only prints what it reads. *)
Fixpoint info_strings (cnt : nat) (n : Z) (dc : DC) : DC :=
  match cnt with
  | O => dc
  | S k => info_strings k (n + 1) (fst (fst (dap_get_info dc n 0 255)))
  end.

(** The statements of [dap_configure] up to the check of the packet limits:
    invalidate the mirrors, set the defaults, clear the queue, query the
    probe. *)
Definition dap_configure_limits (dc : DC) : DC :=
  (* invalidate cached state *)
  let dc := set_cfg INVALID INVALID INVALID dc in
  let dc := set_cfg_mask INVALID dc in
  (* setup default packet limits *)
  let dc := set_max_packet_count 1 dc in
  let dc := set_max_packet_size 64 dc in
  (* flush queue *)
  let dc := dc_q_clear dc in
  let dc := info_strings 10 0 dc in
  let dc := fst (fst (dap_get_info dc DI_Capabilities 1 2)) in
  let dc := fst (fst (dap_get_info dc DI_UART_RX_Buffer_Size 4 4)) in
  let dc := fst (fst (dap_get_info dc DI_UART_TX_Buffer_Size 4 4)) in
  let dc := fst (fst (dap_get_info dc DI_SWO_Trace_Buffer_Size 4 4)) in
  let '(dc, r, n8) := dap_get_info dc DI_Max_Packet_Count 1 1 in
  let dc := if ret_is r 1 then set_max_packet_count (peek n8 0) dc else dc in
  let '(dc, r, n16) := dap_get_info dc DI_Max_Packet_Size 2 2 in
  if ret_is r 2
  then set_max_packet_size (Z.lor (peek n16 0) (Z.shiftl (peek n16 1) 8)) dc
  else dc.

(** The statements of [dap_configure] between the check of the limits and
    the three commands: invalidate the register cache, clip to our buffer
    size. *)
Definition dap_configure_clip (dc : DC) : DC :=
  let dc := set_dp_select_cache INVALID dc in
  if max_packet_size dc >? 1024 then set_max_packet_size 1024 dc else dc.

(** setup a newly connected DAP device *)
Definition dap_configure (dc : DC) : DC * dc_code :=
  let dc := dap_configure_limits dc in
  if (max_packet_count dc <? 1) || (max_packet_size dc <? 64) then
    (dc, DC_ERR_PROTOCOL)
  else
    let dc := dap_configure_clip dc in
    let dc := fst (dap_connect dc) in
    let dc := fst (dap_swd_configure dc CFG_Turnaround_1) in
    let dc := fst (dap_xfer_config dc 8 64 0) in
    (dc, DC_OK).

(** [usb_connect], over the devices [usb_open] finds. *)
Definition usb_connect (usb_open : Z -> Z -> Z -> option usb_handle)
  : option usb_handle :=
  match usb_open 0x1fc9 0x0143 0 with
  | Some u => Some u
  | None => usb_open 0x2e8a 0x000c 42
  end.

(** What [calloc(1, sizeof(DC))] returns when it succeeds. *)
Definition calloc_DC : DC :=
  mkDC (mk_usb [] [] []) 0 0 0 0 0 0 0 0 0
    (replicate 1024 0) (replicate 256 0) 0 0 0 0 DC_OK [].

(** [dc_create]: the status, and the context stored in [*out] if any. *)
Definition dc_create (calloc_ok : bool)
    (usb_open : Z -> Z -> Z -> option usb_handle) : dc_code * option DC :=
  if negb calloc_ok then (DC_ERR_FAILED, None)
  else
    match usb_connect usb_open with
    | None => (DC_ERR_OFFLINE, None)
    | Some u =>
        let '(dc, r) := dap_configure (set_usb u calloc_DC) in
        if negb (is_ok r) then (r, None) else (r, Some dc)
    end.

End Transport.

(** ** The queued packet, as the probe reads it *)

(** What [dc_q_exec] hands to [usb_write], the request records in it, and its
    count field. *)
Definition packet (dc : DC) : list Z := take (Z.to_nat (txnext dc)) (txbuf dc).
Definition q_stream (dc : DC) : list Z := drop 3 (packet dc).
Definition q_count (dc : DC) : Z := peek (txbuf dc) 2.

(** A request byte with RD and without ValueMatch is a read: a record of one
    byte, answered by one response word.  Every other request (a write, a
    read with value match, a write of the match mask) is a record of five
    bytes with no response word. *)
Definition is_read (req : Z) : bool := Z.testbit req 1 && negb (Z.testbit req 4).

(** [records l n r]: the bytes [l] are exactly [n] request records, [r] of
    them reads. *)
Inductive records : list Z -> nat -> nat -> Prop :=
  | records_nil : records [] 0 0
  | records_rd req l n r :
      is_read req = true -> records l n r ->
      records (req :: l) (S n) (S r)
  | records_wr req b0 b1 b2 b3 l n r :
      is_read req = false -> records l n r ->
      records (req :: b0 :: b1 :: b2 :: b3 :: l) (S n) r.

(** The empty state [dc_q_clear] establishes. *)
Definition q_empty (dc : DC) : Prop :=
  txnext dc = 3 /\ q_count dc = 0 /\ rxnext dc = 0 /\
  txavail dc = max_packet_size dc - 3 /\ rxavail dc = max_packet_size dc - 3.

(** The arrays of the struct have their declared sizes. *)
Definition arrays_ok (dc : DC) : Prop :=
  length (txbuf dc) = 1024%nat /\ length (rxptr dc) = 256%nat.

(** The number of 1 bits among the low [n] bits of [x]. *)
Fixpoint ones (n : nat) (x : Z) : nat :=
  match n with
  | O => 0
  | S k => ((if Z.testbit x (Z.of_nat k) then 1 else 0) + ones k x)%nat
  end.

(** ** Sequences of operations on a context *)

Inductive q_op : Set :=
  | op_q_init
  | op_q_exec
  | op_q_dp_sel (dpaddr : Z)
  | op_q_ap_sel (apaddr : Z)
  | op_q_dp_rd (dpaddr val : Z)
  | op_q_dp_wr (dpaddr val : Z)
  | op_q_ap_rd (apaddr val : Z)
  | op_q_ap_wr (apaddr val : Z)
  | op_q_set_mask (mask : Z)
  | op_set_match_retry (num : Z)
  | op_q_ap_match (apaddr val : Z)
  | op_q_dp_match (apaddr val : Z)
  | op_dp_rd (dpaddr val : Z)
  | op_dp_wr (dpaddr val : Z)
  | op_ap_rd (apaddr val : Z)
  | op_ap_wr (apaddr val : Z)
  | op_attach (flags tgt idcode : Z).

Section Runs.
Context {hdr : Headers}.

Definition step (dc : DC) (o : q_op) : DC :=
  match o with
  | op_q_init => dc_q_init dc
  | op_q_exec => fst (dc_q_exec dc)
  | op_q_dp_sel a => dc_q_dp_sel dc a
  | op_q_ap_sel a => dc_q_ap_sel dc a
  | op_q_dp_rd a v => dc_q_dp_rd dc a v
  | op_q_dp_wr a v => dc_q_dp_wr dc a v
  | op_q_ap_rd a v => dc_q_ap_rd dc a v
  | op_q_ap_wr a v => dc_q_ap_wr dc a v
  | op_q_set_mask m => dc_q_set_mask dc m
  | op_set_match_retry n => dc_set_match_retry dc n
  | op_q_ap_match a v => dc_q_ap_match dc a v
  | op_q_dp_match a v => dc_q_dp_match dc a v
  | op_dp_rd a v => fst (dc_dp_rd dc a v)
  | op_dp_wr a v => fst (dc_dp_wr dc a v)
  | op_ap_rd a v => fst (dc_ap_rd dc a v)
  | op_ap_wr a v => fst (dc_ap_wr dc a v)
  | op_attach f t p => fst (dc_attach dc f t p)
  end.

Definition run (ops : list q_op) (dc : DC) : DC := fold_left step ops dc.

(** The context [dc_create] stores in [*out] for the probe [u]. *)
Definition created (u : usb_handle) : DC :=
  default calloc_DC (snd (dc_create true (fun _ _ _ => Some u))).

End Runs.

(** ** Probes to run the code against *)

(** A carrier on which every transfer fails. *)
Definition dead_usb : usb_handle := mk_usb [] [] [].

(** A probe that answers the nineteen commands of [dap_configure]: empty
    information strings, capabilities, buffer sizes, a packet count of 4 and
    a packet size of [size]; then falls silent. *)
Definition probe (size : Z) : usb_handle :=
  mk_usb
    (replicate 18 2 ++ [6])
    (replicate 10 (2, [0x00; 0]) ++
     [(3, [0x00; 1; 0x01]);
      (6, [0x00; 4; 0; 1; 0; 0]);
      (6, [0x00; 4; 0; 1; 0; 0]);
      (6, [0x00; 4; 0; 0; 0; 0]);
      (3, [0x00; 1; 4]);
      (4, [0x00; 2; u8 size; u8 (Z.shiftr size 8)]);
      (2, [0x02; 1]);
      (2, [0x13; 0]);
      (2, [0x04; 0])])
    [].

(** A carrier on which the nineteen commands of [dap_configure] fail, the
    write of the next packet succeeds with [w] bytes, and the read that
    follows gives [rd]. *)
Definition late_usb (w : Z) (rd : Z * list Z) : usb_handle :=
  mk_usb (replicate 19 (-1) ++ [w]) [rd] [].

(** The probe [probe size], which after [dap_configure] takes one more
    packet, of [w] bytes, and answers it with [rd]. *)
Definition probe_then (size w : Z) (rd : Z * list Z) : usb_handle :=
  mk_usb (usb_wr (probe size) ++ [w]) (usb_rd (probe size) ++ [rd]) [].

(** ** The invariant of the queue *)

(** The cursors and budgets account for the bytes of the packet and of its
    response; the count field is the number of queued requests, each taking
    five bytes of the two budgets together: one and four for a read, five and
    none for a write. *)
Definition qinv (dc : DC) : Prop :=
  arrays_ok dc /\
  3 <= txnext dc /\ 0 <= txavail dc /\
  txnext dc + txavail dc = max_packet_size dc /\
  0 <= rxnext dc /\ 0 <= rxavail dc /\
  4 * rxnext dc + rxavail dc = max_packet_size dc - 3 /\
  0 <= q_count dc /\ 5 * q_count dc = (txnext dc - 3) + 4 * rxnext dc.

(** The packet is well formed: the header of a DAP_Transfer, whose count
    field is the number of the request records that follow it, the reads
    among them as many as the response pointers. *)
Definition qpacket (dc : DC) : Prop :=
  peek (txbuf dc) 0 = DAP_Transfer /\ peek (txbuf dc) 1 = 0 /\
  exists n : nat,
    records (q_stream dc) n (Z.to_nat (rxnext dc)) /\ q_count dc = Z.of_nat n.

(** The invariant the operations keep, for a packet size [P] small enough
    that the byte budgets bound the count field: a request takes five bytes
    of the two budgets of [P - 3] bytes each, so at most [2 * (P - 3) / 5]
    requests are queued, which is below 256 up to [P = 642].  The packet is
    well formed provided DP_SELECT, a value of the missing arm-debug.h, is a
    register number that leaves the RD bit of a request clear. *)
Definition qgood {hdr : Headers} (P : Z) (dc : DC) : Prop :=
  max_packet_size dc = P /\ 64 <= P <= 642 /\ qinv dc /\
  (Z.testbit DP_SELECT 1 = false -> qpacket dc).

(** [dc'] has the queue of [dc]: what differs is outside the queue (the
    carrier, the mirrors, the latch, the caller's memory). *)
Definition same_queue (dc dc' : DC) : Prop :=
  max_packet_size dc' = max_packet_size dc /\ txbuf dc' = txbuf dc /\
  rxptr dc' = rxptr dc /\ txnext dc' = txnext dc /\ rxnext dc' = rxnext dc /\
  txavail dc' = txavail dc /\ rxavail dc' = rxavail dc.

(** ** Further notions *)

(** A value that fits a byte. *)
Definition is_byte (b : Z) : Prop := 0 <= b < 256.

(** The operations that queue a request or set a mirror, and return at once
    when an error is latched. *)
Definition is_enqueue (o : q_op) : bool :=
  match o with
  | op_q_dp_rd _ _ | op_q_dp_wr _ _ | op_q_ap_rd _ _ | op_q_ap_wr _ _
  | op_q_set_mask _ | op_set_match_retry _
  | op_q_ap_match _ _ | op_q_dp_match _ _ => true
  | _ => false
  end.

(** ** Packets on the wire *)

(** A well-formed DAP_Transfer packet: the opcode, DAP index 0, a count
    between 1 and 255, and exactly that many request records. *)
Definition wf_transfer (pkt : list Z) : Prop :=
  exists (l : list Z) (n r : nat),
    pkt = [DAP_Transfer; 0; Z.of_nat n] ++ l /\ records l n r /\
    (1 <= n <= 255)%nat.

(** From [d] to [d'] the carrier was handed some packets, and each of them
    that begins with the DAP_Transfer opcode is well formed. *)
Definition sent_ok (d d' : DC) : Prop :=
  exists sent : list (list Z),
    usb_out (usb d') = usb_out (usb d) ++ sent /\
    Forall (fun pkt => peek pkt 0 = DAP_Transfer -> wf_transfer pkt) sent.

(** * The command line of xdebug (src/src/xdebug.c)

    A line is the bytes of a C string; the end of the list is its
    terminating NUL, and a 0 inside the list ends the string there.  Whether
    plain [char] is signed is left to the platform: it is a parameter, as is
    [strtoul] of the C library.  [debugger_command] is external: the result
    of [handle_line] is the command context it is called with, if it is.
    That context is a local of [handle_line] that is not initialised: what
    its fields hold when the function is entered is a parameter too. *)

(** [#define MAX_ARGS 16] *)
Definition MAX_ARGS : Z := 16.

Definition tSTRING : Z := 0x01.
Definition tNUMBER : Z := 0x02.

(** [struct token] *)
Record TOKEN : Set := mkTOKEN {
  tok_s : list Z;
  tok_n : Z;
  tok_info : Z
}.

(** What [handle_line] does with a line: nothing, the report of too many
    arguments, or the call of [debugger_command] with the tokens
    [tok[0] .. tok[count - 1]]. *)
Inductive line_result : Set :=
  | NoCommand
  | TooManyArgs
  | Command (cc : list TOKEN).

(** The C string at the head of a buffer. *)
Fixpoint cstr (s : list Z) : list Z :=
  match s with
  | [] => []
  | b :: rest => if b =? 0 then [] else b :: cstr rest
  end.

Section CommandLine.
Variable char_signed : bool.
Variable strtoul : list Z -> Z -> Z * list Z.
(** [cc_n0 i] is what the field [cc.tok[i].n] of the local [cc] holds when
    [handle_line] is entered. *)
Variable cc_n0 : nat -> Z.

(** The value of the [char] that holds the byte [b], and that value
    converted to [unsigned]. *)
Definition char_val (b : Z) : Z :=
  if char_signed && (128 <=? b) then b - 256 else b.
Definition uchar (b : Z) : Z := u32 (char_val b).

(** [parse]: a token is a number when [strtoul] consumes all of it, in base
    10 after a leading '.', in base 16 otherwise; [n] is a [uint32_t]. *)
Definition parse (s : list Z) : TOKEN :=
  let hex :=
    let '(n, e) := strtoul s 16 in
    if peek e 0 =? 0 then mkTOKEN s (u32 n) tNUMBER
    else mkTOKEN s 0 tSTRING in
  if (peek s 0 =? 46) && negb (peek s 1 =? 0) then
    (* decimal *)
    let '(n, e) := strtoul (drop 1 s) 10 in
    if peek e 0 =? 0 then mkTOKEN s (u32 n) tNUMBER else hex
  else hex.

(** The loop that skips the blanks at the start of the line, comparing
    [char]s: it stops at the terminator and at a character above ' '. *)
Fixpoint skip_blanks (line : list Z) : list Z :=
  match line with
  | [] => []
  | b :: rest =>
      if negb (b =? 0) && (char_val b <=? 32) then skip_blanks rest else line
  end.

(** The end of [handle_line], with the [n] tokens found: [tok[0]] is the
    name, the others are parsed.  The code sets [tok[0].s] and [tok[0].info]
    and never assigns [tok[0].n], which keeps what it held. *)
Definition finish (toks : list (list Z)) : line_result :=
  match toks with
  | [] => NoCommand
  | name :: args =>
      Command (mkTOKEN name (cc_n0 0%nat) tSTRING :: map parse args)
  end.

(** The two nested loops of [handle_line].  [toks] are the [n] tokens
    counted so far; [cur] is [None] in the outer loop, looking for the start
    of a token, and [Some s] in the inner loop, [s] being the bytes of
    [tok[n]] read so far.  [c] is [unsigned]. *)
Fixpoint scan (line : list Z) (cur : option (list Z)) (toks : list (list Z))
  : line_result :=
  match line with
  | [] =>
      (* c == 0 *)
      match cur with
      | None => finish toks
      | Some s => finish (toks ++ [s])
      end
  | b :: rest =>
      let c := uchar b in
      match cur with
      | None =>
          if c =? 0 then finish toks
          else if c <=? 32 then scan rest None toks
          else if Z.of_nat (length toks) =? MAX_ARGS then TooManyArgs
          else if c =? 35 then finish toks
          else scan rest (Some [b]) toks
      | Some s =>
          if c =? 0 then finish (toks ++ [s])
          else if c =? 35 then finish toks
          else if c <=? 32 then scan rest None (toks ++ [s])
          else scan rest (Some (s ++ [b])) toks
      end
  end.

(** "wconsole" *)
Definition wconsole : list Z := [119; 99; 111; 110; 115; 111; 108; 101].

(** On a line in '/' only the [s] and [info] fields of [tok[0]] and [tok[1]]
    are assigned; both [n] fields keep what they held. *)
Definition handle_line (line : list Z) : line_result :=
  let line := skip_blanks line in
  if peek line 0 =? 47 then
    Command [mkTOKEN wconsole (cc_n0 0%nat) tSTRING;
             mkTOKEN (cstr (drop 1 line)) (cc_n0 1%nat) tSTRING]
  else scan line None [].

End CommandLine.

(** A word: one or more printable ASCII characters other than '#'. *)
Definition is_word (w : list Z) : Prop :=
  w <> [] /\ Forall (fun b => 32 < b < 128 /\ b <> 35) w.

(** * Properties *)

(** Rewriting of the fields of a context through the setters. *)
Ltac dc_fields :=
  cbn [usb status max_packet_count max_packet_size cfg_idle cfg_wait cfg_match
       cfg_mask dp_select dp_select_cache txbuf rxptr txnext rxnext txavail
       rxavail qerror mem set_usb set_max_packet_count set_max_packet_size
       set_cfg set_cfg_mask set_dp_select_cache set_txbuf set_rxptr set_txnext
       set_rxnext set_txavail set_rxavail set_qerror set_mem fst snd] in *.

Lemma is_ok_true (r : dc_code) : is_ok r = true <-> r = DC_OK.
Proof. destruct r; cbn; split; congruence. Qed.

Lemma is_ok_false (r : dc_code) : is_ok r = false <-> r <> DC_OK.
Proof. destruct r; cbn; split; congruence. Qed.

(** ** Bytes *)

Lemma u8_range (x : Z) : 0 <= u8 x < 256.
Proof. unfold u8. apply Z.mod_pos_bound. lia. Qed.

Lemma u8_small (x : Z) : 0 <= x < 256 -> u8 x = x.
Proof. intros H. unfold u8. apply Z.mod_small. exact H. Qed.

Lemma u32_small (x : Z) : 0 <= x < 4294967296 -> u32 x = x.
Proof. intros H. unfold u32. apply Z.mod_small. exact H. Qed.

Lemma testbit_u8 (x i : Z) : 0 <= i < 8 -> Z.testbit (u8 x) i = Z.testbit x i.
Proof.
  intros H. unfold u8. change 256 with (2 ^ 8).
  apply Z.mod_pow2_bits_low. lia.
Qed.

Lemma peek_poke_eq (buf : list Z) (i b : Z) :
  (Z.to_nat i < length buf)%nat -> peek (poke buf i b) i = b.
Proof.
  intros H. unfold peek, poke. rewrite list_lookup_insert_eq by exact H.
  reflexivity.
Qed.

Lemma peek_poke_ne (buf : list Z) (i j b : Z) :
  Z.to_nat i <> Z.to_nat j -> peek (poke buf i b) j = peek buf j.
Proof.
  intros H. unfold peek, poke. rewrite list_lookup_insert_ne by exact H.
  reflexivity.
Qed.

Lemma length_poke (buf : list Z) (i b : Z) : length (poke buf i b) = length buf.
Proof. unfold poke. apply length_insert. Qed.

Lemma length_poke_bytes (bs buf : list Z) (i : Z) :
  length (poke_bytes buf i bs) = length buf.
Proof.
  revert buf i. induction bs as [|b bs IH]; intros buf i; cbn.
  - reflexivity.
  - rewrite IH. apply length_poke.
Qed.

(** ** The status decoder *)

Section Decoder.
Context {hdr : Headers}.

(** C8: the decoder looks at the ProtocolError bit first (SwdParity); then
    at the ACK field: WAIT is Timeout, FAULT is SwdFault, all ACK bits set
    is SwdSilent, any value other than these and OK is SwdBogus; with ACK OK
    the ValueMismatch bit gives Match, and otherwise the result is Ok.  The
    labels of the switch are distinct, as C requires. *)
Theorem dc_decode_status_order (n : Z) :
  NoDup [RSP_ACK_OK; RSP_ACK_WAIT; RSP_ACK_FAULT; RSP_ACK_MASK] ->
  let ack := Z.land n RSP_ACK_MASK in
  (Z.land n RSP_ProtocolError <> 0 ->
     dc_decode_status n = DC_ERR_SWD_PARITY) /\
  (Z.land n RSP_ProtocolError = 0 ->
     (ack = RSP_ACK_WAIT -> dc_decode_status n = DC_ERR_TIMEOUT) /\
     (ack = RSP_ACK_FAULT -> dc_decode_status n = DC_ERR_SWD_FAULT) /\
     (ack = RSP_ACK_MASK -> dc_decode_status n = DC_ERR_SWD_SILENT) /\
     (ack <> RSP_ACK_OK -> ack <> RSP_ACK_WAIT -> ack <> RSP_ACK_FAULT ->
      ack <> RSP_ACK_MASK -> dc_decode_status n = DC_ERR_SWD_BOGUS) /\
     (ack = RSP_ACK_OK -> Z.land n RSP_ValueMismatch <> 0 ->
      dc_decode_status n = DC_ERR_MATCH) /\
     (ack = RSP_ACK_OK -> Z.land n RSP_ValueMismatch = 0 ->
      dc_decode_status n = DC_OK)).
Proof.
  intros Hnd ack.
  assert (Hd : RSP_ACK_OK <> RSP_ACK_WAIT /\ RSP_ACK_OK <> RSP_ACK_FAULT /\
               RSP_ACK_OK <> RSP_ACK_MASK /\ RSP_ACK_WAIT <> RSP_ACK_FAULT /\
               RSP_ACK_WAIT <> RSP_ACK_MASK /\ RSP_ACK_FAULT <> RSP_ACK_MASK).
  { apply NoDup_cons in Hnd as [H1 Hnd].
    apply NoDup_cons in Hnd as [H2 Hnd].
    apply NoDup_cons in Hnd as [H3 _].
    apply not_elem_of_cons in H1 as [? H1].
    apply not_elem_of_cons in H1 as [? H1].
    apply not_elem_of_cons in H1 as [? _].
    apply not_elem_of_cons in H2 as [? H2].
    apply not_elem_of_cons in H2 as [? _].
    apply not_elem_of_cons in H3 as [? _].
    auto 10. }
  destruct Hd as (Hd1 & Hd2 & Hd3 & Hd4 & Hd5 & Hd6).
  unfold dc_decode_status. fold ack.
  split.
  - intros Hp. apply Z.eqb_neq in Hp. rewrite Hp. reflexivity.
  - intros Hp. rewrite Hp. cbn [Z.eqb negb].
    repeat split.
    + intros ->.
      destruct (Z.eqb_spec RSP_ACK_WAIT RSP_ACK_OK); [congruence|].
      rewrite Z.eqb_refl. reflexivity.
    + intros ->.
      destruct (Z.eqb_spec RSP_ACK_FAULT RSP_ACK_OK); [congruence|].
      destruct (Z.eqb_spec RSP_ACK_FAULT RSP_ACK_WAIT); [congruence|].
      rewrite Z.eqb_refl. reflexivity.
    + intros ->.
      destruct (Z.eqb_spec RSP_ACK_MASK RSP_ACK_OK); [congruence|].
      destruct (Z.eqb_spec RSP_ACK_MASK RSP_ACK_WAIT); [congruence|].
      destruct (Z.eqb_spec RSP_ACK_MASK RSP_ACK_FAULT); [congruence|].
      rewrite Z.eqb_refl. reflexivity.
    + intros H1 H2 H3 H4.
      apply Z.eqb_neq in H1, H2, H3, H4. rewrite H1, H2, H3, H4. reflexivity.
    + intros -> Hv. rewrite Z.eqb_refl.
      apply Z.eqb_neq in Hv. rewrite Hv. reflexivity.
    + intros -> Hv. rewrite Z.eqb_refl, Hv. reflexivity.
Qed.

End Decoder.

(** The decoder on a WAIT acknowledge, with the protocol's values. *)
Lemma dc_decode_status_order_witness :
  @dc_decode_status adiv5_headers 0x02 = DC_ERR_TIMEOUT.
Proof.
  refine (proj1 (proj2 (@dc_decode_status_order adiv5_headers 0x02 _) _) _).
  - apply (bool_decide_unpack _). vm_compute. exact I.
  - reflexivity.
  - reflexivity.
Defined.

(** ** Flushing the queue *)

Section Exec.
Context {hdr : Headers}.

Lemma usb_write_out (u : usb_handle) (buf : list Z) (len : Z) :
  usb_out (fst (usb_write u buf len)) = usb_out u ++ [take (Z.to_nat len) buf].
Proof. unfold usb_write. destruct (usb_wr u); reflexivity. Qed.

Lemma usb_read_out (u : usb_handle) (buf : list Z) (len : Z) :
  usb_out (fst (fst (usb_read u buf len))) = usb_out u.
Proof. unfold usb_read. destruct (usb_rd u) as [|[n data] rs]; reflexivity. Qed.

Lemma scatter_mem_only (cnt : nat) (i : Z) (rxbuf : list Z) (dc : DC) :
  scatter cnt i rxbuf dc = set_mem (mem (scatter cnt i rxbuf dc)) dc.
Proof.
  revert i dc. induction cnt as [|k IH]; intros i dc; cbn [scatter].
  - destruct dc; reflexivity.
  - rewrite IH. dc_fields. reflexivity.
Qed.

Lemma dc_q_clear_empty (dc : DC) :
  (3 <= length (txbuf dc))%nat -> 3 <= max_packet_size dc < 4294967296 ->
  q_empty (dc_q_clear dc).
Proof.
  intros Hlen HP. unfold q_empty, q_count, dc_q_clear. dc_fields.
  rewrite peek_poke_eq by (rewrite !length_poke; cbn; lia).
  rewrite u32_small by lia. auto.
Qed.

(** The outcomes of [dc_q_exec]: a latched error clears the queue without
    traffic; an empty count field returns at once; otherwise the packet is
    written, and either the function returns early with [Io] or [Protocol],
    the queue untouched, or the status is decoded and the queue cleared. *)
Lemma dc_q_exec_cases (dc : DC) :
  (qerror dc <> DC_OK /\ dc_q_exec dc = (dc_q_clear dc, qerror dc)) \/
  (qerror dc = DC_OK /\ q_count dc = 0 /\ dc_q_exec dc = (dc, DC_OK)) \/
  (qerror dc = DC_OK /\ q_count dc <> 0 /\
   exists u r,
     usb_out u = usb_out (usb dc) ++ [packet dc] /\
     ((dc_q_exec dc = (set_usb u dc, r) /\
       (r = DC_ERR_IO \/ r = DC_ERR_PROTOCOL)) \/
      (exists m, dc_q_exec dc = (dc_q_clear (set_mem m (set_usb u dc)), r)))).
Proof.
  unfold dc_q_exec, q_count.
  destruct (is_ok (qerror dc)) eqn:Hq; cbn [negb].
  2:{ left. apply is_ok_false in Hq. auto. }
  apply is_ok_true in Hq. right.
  destruct (Z.eqb_spec (peek (txbuf dc) 2) 0) as [Hc|Hc].
  { left. auto. }
  right. split; [exact Hq|]. split; [exact Hc|].
  destruct (usb_write (usb dc) (txbuf dc) (txnext dc)) as [u w] eqn:Hw.
  pose proof (usb_write_out (usb dc) (txbuf dc) (txnext dc)) as Hout.
  rewrite Hw in Hout. cbn [fst] in Hout. fold (packet dc) in Hout.
  destruct (negb (w =? txnext dc)).
  { exists u, DC_ERR_IO. split; [exact Hout|]. left. auto. }
  dc_fields.
  destruct (usb_read u (replicate 1024 238) (3 + rxnext dc * 4))
    as [[u' n] rxbuf] eqn:Hr.
  pose proof (usb_read_out u (replicate 1024 238) (3 + rxnext dc * 4)) as Hout'.
  rewrite Hr in Hout'. cbn [fst] in Hout'.
  assert (Hset : set_usb u' (set_usb u dc) = set_usb u' dc) by reflexivity.
  rewrite Hset.
  exists u'. destruct (n <? 0).
  { exists DC_ERR_IO. split; [congruence|]. left. auto. }
  match goal with |- context [if ?c then (_, DC_ERR_PROTOCOL) else _] =>
    destruct c end.
  { exists DC_ERR_PROTOCOL. split; [congruence|]. left. auto. }
  eexists. split; [congruence|]. right.
  match goal with |- context [is_ok ?r] => destruct (is_ok r) end.
  - eexists. rewrite scatter_mem_only. reflexivity.
  - exists (mem dc). reflexivity.
Qed.

(** The first early return: when the carrier does not take the whole
    packet, [dc_q_exec] returns [Io] and the context is as before but for
    the carrier. *)
Lemma dc_q_exec_write_error (dc : DC) :
  qerror dc = DC_OK -> q_count dc <> 0 ->
  snd (usb_write (usb dc) (txbuf dc) (txnext dc)) <> txnext dc ->
  dc_q_exec dc =
  (set_usb (fst (usb_write (usb dc) (txbuf dc) (txnext dc))) dc, DC_ERR_IO).
Proof.
  intros Hq Hc Hw. unfold dc_q_exec, q_count in *.
  rewrite Hq. cbn [is_ok negb].
  apply Z.eqb_neq in Hc. rewrite Hc.
  destruct (usb_write (usb dc) (txbuf dc) (txnext dc)) as [u w].
  cbn [fst snd] in *. apply Z.eqb_neq in Hw. rewrite Hw. reflexivity.
Qed.

End Exec.

(** ** Appending to the packet *)

Lemma peek_poke_bytes_lt (bs buf : list Z) (i j : Z) :
  0 <= j < i -> peek (poke_bytes buf i bs) j = peek buf j.
Proof.
  revert buf i. induction bs as [|b bs IH]; intros buf i H; cbn.
  - reflexivity.
  - rewrite IH by lia. apply peek_poke_ne. lia.
Qed.

Lemma take_poke_bytes (bs buf : list Z) (i : Z) :
  0 <= i -> (Z.to_nat i + length bs <= length buf)%nat ->
  take (Z.to_nat i + length bs) (poke_bytes buf i bs) = take (Z.to_nat i) buf ++ bs.
Proof.
  revert buf i. induction bs as [|b bs IH]; intros buf i Hi Hlen; cbn [poke_bytes length].
  - rewrite Nat.add_0_r, app_nil_r. reflexivity.
  - cbn [length] in Hlen.
    replace (Z.to_nat i + S (length bs))%nat
      with (Z.to_nat (i + 1) + length bs)%nat by lia.
    rewrite IH by (rewrite ?length_poke; lia).
    replace (Z.to_nat (i + 1)) with (S (Z.to_nat i)) by lia.
    unfold poke.
    rewrite (take_S_r _ _ b) by (apply list_lookup_insert_eq; lia).
    rewrite take_insert_ge by lia.
    rewrite <- app_assoc. reflexivity.
Qed.

Lemma stream_append (buf : list Z) (t c : Z) (tail : list Z) :
  3 <= t -> (Z.to_nat t + length tail <= length buf)%nat ->
  drop 3 (take (Z.to_nat t + length tail) (poke (poke_bytes buf t tail) 2 c))
  = drop 3 (take (Z.to_nat t) buf) ++ tail.
Proof.
  intros Ht Hlen. unfold poke.
  rewrite take_insert_lt by lia.
  rewrite drop_insert_lt by lia.
  rewrite take_poke_bytes by lia.
  rewrite drop_app_le by (rewrite length_take; lia). reflexivity.
Qed.

Lemma q_stream_raw_wr_append (dc : DC) (req v : Z) :
  3 <= txnext dc -> (Z.to_nat (txnext dc) + 5 <= length (txbuf dc))%nat ->
  q_stream (raw_wr_append dc req v) = q_stream dc ++ u8 req :: le_bytes32 v.
Proof.
  intros Ht Hlen. unfold q_stream, packet, raw_wr_append. dc_fields.
  change (poke_bytes (poke (txbuf dc) (txnext dc) (u8 req)) (txnext dc + 1)
            (le_bytes32 v))
    with (poke_bytes (txbuf dc) (txnext dc) (u8 req :: le_bytes32 v)).
  replace (Z.to_nat (txnext dc + 5))
    with (Z.to_nat (txnext dc) + length (u8 req :: le_bytes32 v))%nat
    by (cbn [length le_bytes32]; lia).
  apply stream_append; [exact Ht|cbn [length le_bytes32]; lia].
Qed.

Lemma q_stream_raw_rd_append (dc : DC) (req v : Z) :
  3 <= txnext dc -> (Z.to_nat (txnext dc) + 1 <= length (txbuf dc))%nat ->
  q_stream (raw_rd_append dc req v) = q_stream dc ++ [u8 req].
Proof.
  intros Ht Hlen. unfold q_stream, packet, raw_rd_append. dc_fields.
  change (poke (txbuf dc) (txnext dc) (u8 req))
    with (poke_bytes (txbuf dc) (txnext dc) [u8 req]).
  replace (Z.to_nat (txnext dc + 1))
    with (Z.to_nat (txnext dc) + length [u8 req])%nat by (cbn [length]; lia).
  apply stream_append; [exact Ht|cbn [length]; lia].
Qed.

Lemma txbuf_raw_wr_append (dc : DC) (req v : Z) :
  3 <= txnext dc -> (3 <= length (txbuf dc))%nat ->
  q_count (raw_wr_append dc req v) = u8 (q_count dc + 1) /\
  peek (txbuf (raw_wr_append dc req v)) 0 = peek (txbuf dc) 0 /\
  peek (txbuf (raw_wr_append dc req v)) 1 = peek (txbuf dc) 1 /\
  length (txbuf (raw_wr_append dc req v)) = length (txbuf dc).
Proof.
  intros Ht Hlen. unfold q_count, raw_wr_append. dc_fields.
  change (poke_bytes (poke (txbuf dc) (txnext dc) (u8 req)) (txnext dc + 1)
            (le_bytes32 v))
    with (poke_bytes (txbuf dc) (txnext dc) (u8 req :: le_bytes32 v)).
  rewrite peek_poke_eq by (rewrite length_poke_bytes; lia).
  rewrite !peek_poke_ne by lia.
  rewrite !peek_poke_bytes_lt by lia.
  rewrite length_poke, length_poke_bytes. auto.
Qed.

Lemma txbuf_raw_rd_append (dc : DC) (req v : Z) :
  3 <= txnext dc -> (3 <= length (txbuf dc))%nat ->
  q_count (raw_rd_append dc req v) = u8 (q_count dc + 1) /\
  peek (txbuf (raw_rd_append dc req v)) 0 = peek (txbuf dc) 0 /\
  peek (txbuf (raw_rd_append dc req v)) 1 = peek (txbuf dc) 1 /\
  length (txbuf (raw_rd_append dc req v)) = length (txbuf dc).
Proof.
  intros Ht Hlen. unfold q_count, raw_rd_append. dc_fields.
  rewrite peek_poke_eq by (rewrite length_poke; lia).
  rewrite !peek_poke_ne by lia.
  rewrite !length_poke. auto.
Qed.

(** ** Request records *)

Lemma records_app (l1 l2 : list Z) (n1 n2 r1 r2 : nat) :
  records l1 n1 r1 -> records l2 n2 r2 ->
  records (l1 ++ l2) (n1 + n2) (r1 + r2).
Proof.
  intros H1 H2. induction H1; cbn.
  - exact H2.
  - apply records_rd; assumption.
  - apply records_wr; assumption.
Qed.

(** The parse of a stream is unique: the count field has one right value. *)
Lemma records_unique (l : list Z) (n r n' r' : nat) :
  records l n r -> records l n' r' -> n = n' /\ r = r'.
Proof.
  intros H. revert n' r'. induction H; intros n' r' H'; inversion H'; subst.
  - auto.
  - destruct (IHrecords _ _ ltac:(eassumption)). subst. auto.
  - congruence.
  - congruence.
  - destruct (IHrecords _ _ ltac:(eassumption)). subst. auto.
Qed.

Lemma records_length (l : list Z) (n r : nat) :
  records l n r -> (length l + 4 * r = 5 * n)%nat.
Proof. intros H. induction H; cbn [length]; lia. Qed.

(** ** The invariant of the queue *)

Section Invariant.
Context {hdr : Headers}.

Lemma same_queue_refl (dc : DC) : same_queue dc dc.
Proof. unfold same_queue. auto 10. Qed.

Lemma same_queue_trans (a b c : DC) :
  same_queue a b -> same_queue b c -> same_queue a c.
Proof. unfold same_queue. intros H1 H2. intuition congruence. Qed.

Lemma qgood_same_queue (P : Z) (dc dc' : DC) :
  same_queue dc dc' -> qgood P dc -> qgood P dc'.
Proof.
  destruct dc, dc'. unfold same_queue. dc_fields.
  intros (-> & -> & -> & -> & -> & -> & ->) H. exact H.
Qed.

Lemma qinv_count (dc : DC) :
  qinv dc ->
  5 * q_count dc =
  (max_packet_size dc - 3 - txavail dc) + (max_packet_size dc - 3 - rxavail dc).
Proof. unfold qinv. intros (_ & H). lia. Qed.

Lemma qinv_count_zero (dc : DC) : qinv dc -> q_count dc = 0 -> q_empty dc.
Proof. unfold qinv, q_empty. intros (_ & H) Hc. lia. Qed.

Lemma qpacket_clear (dc : DC) : arrays_ok dc -> qpacket (dc_q_clear dc).
Proof.
  intros [Htx Hrx]. unfold qpacket, q_stream, packet, q_count, dc_q_clear.
  dc_fields.
  split; [|split].
  - rewrite !peek_poke_ne by lia. apply peek_poke_eq. lia.
  - rewrite peek_poke_ne by lia. apply peek_poke_eq. rewrite length_poke. lia.
  - exists 0%nat. split.
    + change (Z.to_nat 3) with 3%nat. change (Z.to_nat 0) with 0%nat.
      rewrite drop_ge by (rewrite length_take; lia). constructor.
    + apply peek_poke_eq. rewrite !length_poke. lia.
Qed.

Lemma qgood_clear (P : Z) (dc : DC) :
  arrays_ok dc -> max_packet_size dc = P -> 64 <= P <= 642 ->
  qgood P (dc_q_clear dc).
Proof.
  intros Harr HP Hfit. split; [exact HP|]. split; [exact Hfit|].
  split; [|intros _; apply qpacket_clear; exact Harr].
  destruct Harr as [Htx Hrx].
  unfold qinv, arrays_ok, q_count, dc_q_clear. dc_fields.
  rewrite peek_poke_eq by (rewrite !length_poke; lia).
  rewrite !length_poke. rewrite u32_small by lia. lia.
Qed.

Lemma qgood_arrays (P : Z) (dc : DC) : qgood P dc -> arrays_ok dc.
Proof. intros (_ & _ & (H & _) & _). exact H. Qed.

(** Flushing keeps the invariant, and a flush that reports success leaves
    the queue empty. *)
Lemma qgood_exec (P : Z) (dc : DC) :
  qgood P dc ->
  qgood P (fst (dc_q_exec dc)) /\
  (snd (dc_q_exec dc) = DC_OK -> q_empty (fst (dc_q_exec dc))).
Proof.
  intros H. pose proof H as (HP & Hfit & Hinv & Hpk).
  pose proof (qgood_arrays _ _ H) as Harr.
  destruct (dc_q_exec_cases dc)
    as [(Hq & ->)|[(Hq & Hc & ->)|(Hq & Hc & u & r & _ & [[-> Hr]|[m ->]])]];
    cbn [fst snd].
  - split; [apply qgood_clear; assumption|congruence].
  - split; [exact H|]. intros _. apply qinv_count_zero; assumption.
  - split; [exact H|]. destruct Hr; congruence.
  - split; [apply qgood_clear; assumption|].
    intros _. apply dc_q_clear_empty; dc_fields; destruct Harr; lia.
Qed.

Lemma qgood_raw_rd_append (P : Z) (dc : DC) (req v : Z) :
  is_read (u8 req) = true ->
  qgood P dc -> 1 <= txavail dc -> 4 <= rxavail dc ->
  qgood P (raw_rd_append dc req v).
Proof.
  intros Hreq (HP & Hfit & Hinv & Hpk) Htx Hrx.
  pose proof (qinv_count _ Hinv) as Hcnt.
  destruct Hinv as ((Hl1 & Hl2) & Hinv).
  destruct (txbuf_raw_rd_append dc req v) as (Hc & H0 & H1 & Hlen); [lia..|].
  assert (Hu : u8 (q_count dc + 1) = q_count dc + 1) by (apply u8_small; lia).
  split; [exact HP|]. split; [exact Hfit|]. split.
  - unfold qinv, arrays_ok. rewrite Hc, Hu, Hlen.
    unfold raw_rd_append. dc_fields. rewrite length_poke.
    rewrite !u32_small by lia. lia.
  - intros Hsel. destruct (Hpk Hsel) as (Hb0 & Hb1 & n & Hrec & Hn).
    unfold qpacket. rewrite Hc, Hu, H0, H1.
    split; [exact Hb0|]. split; [exact Hb1|].
    exists (n + 1)%nat. split; [|lia].
    rewrite q_stream_raw_rd_append by lia.
    replace (Z.to_nat (rxnext (raw_rd_append dc req v)))
      with (Z.to_nat (rxnext dc) + 1)%nat
      by (unfold raw_rd_append; dc_fields; lia).
    apply records_app; [exact Hrec|].
    apply records_rd; [exact Hreq|constructor].
Qed.

Lemma qgood_raw_wr_append (P : Z) (dc : DC) (req v : Z) :
  (Z.testbit DP_SELECT 1 = false -> is_read (u8 req) = false) ->
  qgood P dc -> 5 <= txavail dc ->
  qgood P (raw_wr_append dc req v).
Proof.
  intros Hreq (HP & Hfit & Hinv & Hpk) Htx.
  pose proof (qinv_count _ Hinv) as Hcnt.
  destruct Hinv as ((Hl1 & Hl2) & Hinv).
  destruct (txbuf_raw_wr_append dc req v) as (Hc & H0 & H1 & Hlen); [lia..|].
  assert (Hu : u8 (q_count dc + 1) = q_count dc + 1) by (apply u8_small; lia).
  split; [exact HP|]. split; [exact Hfit|]. split.
  - unfold qinv, arrays_ok. rewrite Hc, Hu, Hlen.
    unfold raw_wr_append. dc_fields.
    rewrite !u32_small by lia. lia.
  - intros Hsel. destruct (Hpk Hsel) as (Hb0 & Hb1 & n & Hrec & Hn).
    unfold qpacket. rewrite Hc, Hu, H0, H1.
    split; [exact Hb0|]. split; [exact Hb1|].
    exists (n + 1)%nat. split; [|lia].
    rewrite q_stream_raw_wr_append by lia.
    replace (Z.to_nat (rxnext (raw_wr_append dc req v)))
      with (Z.to_nat (rxnext dc) + 0)%nat
      by (unfold raw_wr_append; dc_fields; lia).
    apply records_app; [exact Hrec|].
    apply records_wr; [exact (Hreq Hsel)|constructor].
Qed.

Lemma qgood_raw_rd (P : Z) (dc : DC) (req v : Z) :
  is_read (u8 req) = true -> qgood P dc -> qgood P (dc_q_raw_rd dc req v).
Proof.
  intros Hreq H. unfold dc_q_raw_rd.
  destruct ((txavail dc <? 1) || (rxavail dc <? 4)) eqn:Hroom.
  - destruct (qgood_exec P dc H) as [Hg Hempty].
    destruct (dc_q_exec dc) as [d r]. cbn [fst snd] in Hg, Hempty.
    destruct (is_ok r) eqn:Hr; cbn [negb].
    + apply is_ok_true in Hr. destruct (Hempty Hr) as (_ & _ & _ & Ht & Hx).
      destruct Hg as (HP & Hfit & Hg).
      apply qgood_raw_rd_append; [exact Hreq|..]; dc_fields; try lia.
      split; [exact HP|]. split; [exact Hfit|]. exact Hg.
    + exact Hg.
  - apply orb_false_iff in Hroom as [H1 H2].
    apply Z.ltb_ge in H1, H2.
    apply qgood_raw_rd_append; assumption.
Qed.

Lemma qgood_raw_wr (P : Z) (dc : DC) (req v : Z) :
  (Z.testbit DP_SELECT 1 = false -> is_read (u8 req) = false) ->
  qgood P dc -> qgood P (dc_q_raw_wr dc req v).
Proof.
  intros Hreq H. unfold dc_q_raw_wr.
  destruct (txavail dc <? 5) eqn:Hroom.
  - destruct (qgood_exec P dc H) as [Hg Hempty].
    destruct (dc_q_exec dc) as [d r]. cbn [fst snd] in Hg, Hempty.
    destruct (is_ok r) eqn:Hr; cbn [negb].
    + apply is_ok_true in Hr. destruct (Hempty Hr) as (_ & _ & _ & Ht & Hx).
      destruct Hg as (HP & Hfit & Hg).
      apply qgood_raw_wr_append; [exact Hreq|..]; dc_fields; try lia.
      split; [exact HP|]. split; [exact Hfit|]. exact Hg.
    + exact Hg.
  - apply Z.ltb_ge in Hroom.
    apply qgood_raw_wr_append; assumption.
Qed.

(** The request bytes the operations build. *)

Ltac request_bits :=
  unfold is_read, XFER_DP, XFER_AP, XFER_WR, XFER_RD, XFER_00, XFER_ValueMatch,
    XFER_MatchMask;
  rewrite !testbit_u8 by lia;
  rewrite ?Z.lor_spec, ?Z.land_spec;
  change (Z.testbit 0 1) with false; change (Z.testbit 0 4) with false;
  change (Z.testbit 1 1) with false; change (Z.testbit 1 4) with false;
  change (Z.testbit 2 1) with true; change (Z.testbit 2 4) with false;
  change (Z.testbit 12 1) with false; change (Z.testbit 12 4) with false;
  change (Z.testbit 16 1) with false; change (Z.testbit 16 4) with true;
  change (Z.testbit 32 1) with false; change (Z.testbit 32 4) with false;
  rewrite ?andb_false_r, ?orb_false_r, ?orb_true_r, ?orb_false_l, ?orb_true_l,
    ?andb_true_l, ?andb_false_l.

Lemma is_read_dp_rd (a : Z) :
  is_read (u8 (Z.lor (Z.lor XFER_DP XFER_RD) (Z.land a 12))) = true.
Proof. request_bits. reflexivity. Qed.

Lemma is_read_ap_rd (a : Z) :
  is_read (u8 (Z.lor (Z.lor XFER_AP XFER_RD) (Z.land a 12))) = true.
Proof. request_bits. reflexivity. Qed.

Lemma is_read_dp_wr (a : Z) :
  is_read (u8 (Z.lor (Z.lor XFER_DP XFER_WR) (Z.land a 12))) = false.
Proof. request_bits. reflexivity. Qed.

Lemma is_read_ap_wr (a : Z) :
  is_read (u8 (Z.lor (Z.lor XFER_AP XFER_WR) (Z.land a 12))) = false.
Proof. request_bits. reflexivity. Qed.

Lemma is_read_ap_match (a : Z) :
  is_read (u8 (Z.lor (Z.lor (Z.lor XFER_AP XFER_RD) XFER_ValueMatch)
                 (Z.land a 12))) = false.
Proof. request_bits. reflexivity. Qed.

Lemma is_read_dp_match (a : Z) :
  is_read (u8 (Z.lor (Z.lor (Z.lor XFER_DP XFER_RD) XFER_ValueMatch)
                 (Z.land a 12))) = false.
Proof. request_bits. reflexivity. Qed.

Lemma is_read_mask : is_read (u8 (Z.lor XFER_WR XFER_MatchMask)) = false.
Proof. reflexivity. Qed.

Lemma is_read_select :
  Z.testbit DP_SELECT 1 = false ->
  is_read (u8 (Z.lor (Z.lor XFER_DP XFER_WR) DP_SELECT)) = false.
Proof. intros H. request_bits. rewrite H. reflexivity. Qed.

(** The commands of the CMSIS-DAP layer leave the queue alone. *)

Lemma dap_cmd_same_queue (dc : DC) (tx : list Z) (txlen : Z) (rx : list Z)
    (rxlen : Z) :
  same_queue dc (fst (fst (dap_cmd dc tx txlen rx rxlen))).
Proof.
  unfold dap_cmd.
  destruct (usb_write (usb dc) tx txlen) as [u w].
  destruct (negb (w =? txlen)); [unfold same_queue; dc_fields; auto 10|].
  dc_fields.
  destruct (usb_read u rx rxlen) as [[u' n] rx'].
  destruct (n <? 1); [unfold same_queue; dc_fields; auto 10|].
  destruct (negb (peek rx' 0 =? peek tx 0));
    unfold same_queue; dc_fields; auto 10.
Qed.

Lemma dap_cmd_std_same_queue (dc : DC) (io : list Z) (txlen rxlen : Z) :
  same_queue dc (fst (dap_cmd_std dc io txlen rxlen)).
Proof.
  unfold dap_cmd_std.
  pose proof (dap_cmd_same_queue dc io txlen io rxlen) as H.
  destruct (dap_cmd dc io txlen io rxlen) as [[d r] io']. cbn [fst] in H.
  destruct r as [n|e]; [|exact H].
  destruct (negb (peek io' 1 =? 0)); exact H.
Qed.

Lemma dap_xfer_config_same_queue (dc : DC) (idle wait match_ : Z) :
  same_queue dc (fst (dap_xfer_config dc idle wait match_)).
Proof.
  unfold dap_xfer_config.
  match goal with |- context [if ?c then (dc, DC_OK) else _] => destruct c end.
  - apply same_queue_refl.
  - match goal with |- same_queue dc (fst (dap_cmd_std ?d ?io ?a ?b)) =>
      apply (same_queue_trans dc d);
        [unfold same_queue; dc_fields; auto 10|apply dap_cmd_std_same_queue]
    end.
Qed.

(** Every operation keeps the invariant. *)

Lemma qgood_dp_sel (P : Z) (dc : DC) (a : Z) :
  qgood P dc -> qgood P (dc_q_dp_sel dc a).
Proof.
  intros H. unfold dc_q_dp_sel.
  destruct (negb (Z.land a 4294967043 =? 0)); [exact H|].
  destruct (negb (Z.land a 15 =? 4)); [exact H|].
  match goal with |- context [if ?c then _ else _] => destruct c end;
    [|exact H].
  apply qgood_raw_wr; [apply is_read_select|exact H].
Qed.

Lemma qgood_ap_sel (P : Z) (dc : DC) (a : Z) :
  qgood P dc -> qgood P (dc_q_ap_sel dc a).
Proof.
  intros H. unfold dc_q_ap_sel.
  destruct (negb (Z.land a 4294901763 =? 0)); [exact H|].
  match goal with |- context [if ?c then _ else _] => destruct c end;
    [|exact H].
  apply qgood_raw_wr; [apply is_read_select|exact H].
Qed.

Lemma qgood_attach (P : Z) (dc : DC) (flags tgt idcode : Z) :
  qgood P dc -> qgood P (fst (dc_attach dc flags tgt idcode)).
Proof.
  intros H. unfold dc_attach.
  apply qgood_exec. apply qgood_raw_rd; [reflexivity|].
  unfold dc_q_init.
  match goal with |- qgood P (dc_q_clear ?d) =>
    assert (Hd : qgood P d) end.
  { destruct (negb (Z.land flags DC_MULTIDROP =? 0));
      (eapply qgood_same_queue; [apply dap_cmd_same_queue|exact H]). }
  destruct Hd as (HP & Hfit & Hinv & _).
  apply qgood_clear; [apply Hinv|exact HP|exact Hfit].
Qed.

Lemma qgood_step (P : Z) (dc : DC) (o : q_op) :
  qgood P dc -> qgood P (step dc o).
Proof.
  intros H.
  assert (Hinit : qgood P (dc_q_init dc)).
  { destruct H as (HP & Hfit & Hinv & _).
    apply qgood_clear; [apply Hinv|exact HP|exact Hfit]. }
  destruct o as [| |a|a|a v|a v|a v|a v|m|n|a v|a v|a v|a v|a v|a v|f t p];
    cbn [step].
  - exact Hinit.
  - apply qgood_exec, H.
  - apply qgood_dp_sel, H.
  - apply qgood_ap_sel, H.
  - unfold dc_q_dp_rd. destruct (negb (is_ok (qerror dc))); [exact H|].
    apply qgood_raw_rd; [apply is_read_dp_rd|apply qgood_dp_sel, H].
  - unfold dc_q_dp_wr. destruct (negb (is_ok (qerror dc))); [exact H|].
    apply qgood_raw_wr; [intros _; apply is_read_dp_wr|apply qgood_dp_sel, H].
  - unfold dc_q_ap_rd. destruct (negb (is_ok (qerror dc))); [exact H|].
    apply qgood_raw_rd; [apply is_read_ap_rd|apply qgood_ap_sel, H].
  - unfold dc_q_ap_wr. destruct (negb (is_ok (qerror dc))); [exact H|].
    apply qgood_raw_wr; [intros _; apply is_read_ap_wr|apply qgood_ap_sel, H].
  - unfold dc_q_set_mask. destruct (negb (is_ok (qerror dc))); [exact H|].
    destruct (cfg_mask dc =? m); [exact H|].
    apply qgood_raw_wr; [intros _; apply is_read_mask|exact H].
  - unfold dc_set_match_retry. destruct (negb (is_ok (qerror dc))); [exact H|].
    eapply qgood_same_queue; [apply dap_xfer_config_same_queue|exact H].
  - unfold dc_q_ap_match. destruct (negb (is_ok (qerror dc))); [exact H|].
    apply qgood_raw_wr; [intros _; apply is_read_ap_match|apply qgood_ap_sel, H].
  - unfold dc_q_dp_match. destruct (negb (is_ok (qerror dc))); [exact H|].
    apply qgood_raw_wr; [intros _; apply is_read_dp_match|apply qgood_ap_sel, H].
  - unfold dc_dp_rd. apply qgood_exec.
    unfold dc_q_dp_rd. destruct (negb (is_ok (qerror (dc_q_init dc)))); [exact Hinit|].
    apply qgood_raw_rd; [apply is_read_dp_rd|apply qgood_dp_sel, Hinit].
  - unfold dc_dp_wr. apply qgood_exec.
    unfold dc_q_dp_wr. destruct (negb (is_ok (qerror (dc_q_init dc)))); [exact Hinit|].
    apply qgood_raw_wr; [intros _; apply is_read_dp_wr|apply qgood_dp_sel, Hinit].
  - unfold dc_ap_rd. apply qgood_exec.
    unfold dc_q_ap_rd. destruct (negb (is_ok (qerror (dc_q_init dc)))); [exact Hinit|].
    apply qgood_raw_rd; [apply is_read_ap_rd|apply qgood_ap_sel, Hinit].
  - unfold dc_ap_wr. apply qgood_exec.
    unfold dc_q_ap_wr. destruct (negb (is_ok (qerror (dc_q_init dc)))); [exact Hinit|].
    apply qgood_raw_wr; [intros _; apply is_read_ap_wr|apply qgood_ap_sel, Hinit].
  - apply qgood_attach, H.
Qed.

Lemma qgood_run (P : Z) (ops : list q_op) (dc : DC) :
  qgood P dc -> qgood P (run ops dc).
Proof.
  revert dc. induction ops as [|o ops IH]; intros dc H; cbn.
  - exact H.
  - apply IH, qgood_step, H.
Qed.

End Invariant.

(** ** Bounds of the queue and of its count field *)

Section Bounds.
Context {hdr : Headers}.

(** The part of C10 that holds: for a packet size between 64 and 642, every
    sequence of operations on an initialised queue keeps
    [txnext - txbuf + txavail = max_packet_size], the write cursor within
    [max_packet_size] bytes of [txbuf], and at most 255 of the 256 slots of
    [rxptr] filled. *)
Theorem queue_stays_in_bounds (dc : DC) (ops : list q_op) :
  arrays_ok dc -> 64 <= max_packet_size dc <= 642 ->
  let dc' := run ops (dc_q_init dc) in
  max_packet_size dc' = max_packet_size dc /\
  txnext dc' + txavail dc' = max_packet_size dc /\
  3 <= txnext dc' <= max_packet_size dc /\
  0 <= rxnext dc' <= 255 /\
  arrays_ok dc'.
Proof.
  intros Harr Hfit dc'.
  assert (H : qgood (max_packet_size dc) dc').
  { apply qgood_run, qgood_clear; [exact Harr|reflexivity|exact Hfit]. }
  destruct H as (HP & _ & Hinv & _).
  unfold qinv in Hinv. destruct Hinv as (Ha & Hinv).
  repeat split; try exact HP; try apply Ha; lia.
Qed.

(** Where the count field is safe: for a packet size between 64 and 642,
    and a DP_SELECT whose RD bit is clear, after every sequence of
    operations on an initialised queue the count field [txbuf[2]] is the
    number of the request records queued, which is at most 255: the byte
    budgets force the flush before the field could wrap. *)
Theorem count_field_never_wraps (dc : DC) (ops : list q_op) :
  Z.testbit DP_SELECT 1 = false ->
  arrays_ok dc -> 64 <= max_packet_size dc <= 642 ->
  let dc' := run ops (dc_q_init dc) in
  exists n : nat,
    records (q_stream dc') n (Z.to_nat (rxnext dc')) /\
    q_count dc' = Z.of_nat n /\ (n <= 255)%nat.
Proof.
  intros Hsel Harr Hfit dc'.
  assert (H : qgood (max_packet_size dc) dc').
  { apply qgood_run, qgood_clear; [exact Harr|reflexivity|exact Hfit]. }
  destruct H as (HP & _ & Hinv & Hpk).
  destruct (Hpk Hsel) as (_ & _ & n & Hrec & Hn).
  exists n. split; [exact Hrec|]. split; [exact Hn|].
  pose proof (qinv_count _ Hinv) as Hc.
  unfold qinv in Hinv. lia.
Qed.

End Bounds.

(** A probe with packets of 512 bytes; two reads of an AP register and a
    write of DP register 4. *)
Lemma queue_stays_in_bounds_witness :
  let dc := @created adiv5_headers (probe 512) in
  let dc' := @run adiv5_headers
               [op_q_ap_rd 0x00 100; op_q_ap_rd 0x04 104; op_q_dp_wr 0x04 1]
               (dc_q_init dc) in
  max_packet_size dc' = max_packet_size dc /\
  txnext dc' + txavail dc' = max_packet_size dc /\
  3 <= txnext dc' <= max_packet_size dc /\
  0 <= rxnext dc' <= 255 /\
  arrays_ok dc'.
Proof.
  apply (@queue_stays_in_bounds adiv5_headers).
  - vm_compute. split; reflexivity.
  - vm_compute. split; intro; discriminate.
Defined.

Lemma count_field_never_wraps_witness :
  let dc := @created adiv5_headers (probe 512) in
  let dc' := @run adiv5_headers
               [op_q_ap_rd 0x00 100; op_q_ap_rd 0x04 104; op_q_dp_wr 0x04 1]
               (dc_q_init dc) in
  exists n : nat,
    records (q_stream dc') n (Z.to_nat (rxnext dc')) /\
    q_count dc' = Z.of_nat n /\ (n <= 255)%nat.
Proof.
  apply (@count_field_never_wraps adiv5_headers).
  - reflexivity.
  - vm_compute. split; reflexivity.
  - vm_compute. split; intro; discriminate.
Defined.

(** C10, the buffers stay in bounds for every packet size from 64 to 1024,
    is broken by the code at the clip: with packets of 1024 bytes, 65 reads
    and 191 writes fill 1020 bytes and wrap the count field to 0; the next
    write finds no room, the flush it asks for sees a count of 0 and returns
    without clearing, and the record is written at offset 1023, past the
    packet and past the 1024 bytes of [txbuf]; [txavail] wraps. *)
Lemma queue_overruns_txbuf_at_1024 :
  let dc := @created adiv5_headers (probe 1024) in
  let ops := replicate 65 (op_q_dp_rd 0x00 100) ++
             replicate 192 (op_q_dp_wr 0x00 7) in
  let dc' := @run adiv5_headers ops (dc_q_init dc) in
  arrays_ok dc /\ max_packet_size dc = 1024 /\ max_packet_size dc' = 1024 /\
  qerror dc' = DC_OK /\
  txnext dc' = 1028 /\ txavail dc' = 4294967292 /\
  ~ (txnext dc' + txavail dc' = max_packet_size dc) /\
  ~ (txnext dc' <= max_packet_size dc).
Proof.
  intros dc ops dc'.
  assert (H : txnext dc' = 1028 /\ txavail dc' = 4294967292 /\
              max_packet_size dc = 1024).
  { vm_compute. repeat split; reflexivity. }
  destruct H as (Ht & Ha & HP).
  split; [vm_compute; split; reflexivity|].
  repeat (split; [vm_compute; reflexivity|]).
  rewrite Ht, Ha, HP. lia.
Qed.

(** The same wrap on the side of the responses: 255 reads and a write leave
    a count of 0 and 1 byte of [rxavail]; the flush of the next read returns
    without clearing, [rxavail] wraps, and the second read after that
    stores its pointer in slot 256 of the 256 of [rxptr]. *)
Lemma queue_overruns_rxptr_at_1024 :
  let dc := @created adiv5_headers (probe 1024) in
  let ops := replicate 255 (op_q_dp_rd 0x00 100) ++ [op_q_dp_wr 0x00 7] ++
             replicate 2 (op_q_dp_rd 0x00 100) in
  let dc' := @run adiv5_headers ops (dc_q_init dc) in
  qerror dc' = DC_OK /\ rxnext dc' = 257 /\ rxavail dc' = 4294967289 /\
  usb_out (usb dc') = usb_out (usb dc).
Proof. vm_compute. repeat split; reflexivity. Qed.

(** C4, the 257th enqueue forces a flush and the count field never wraps,
    for every packet size up to the clip of 1024, is broken by the code: the
    enqueues check the byte budgets only, and nothing counts the requests.
    With packets of 1024 bytes, a size [dap_configure] accepts, 255 reads
    and 2 writes are 257 queued requests; none of the enqueues flushed (the
    carrier saw no packet), and the count field has wrapped to 1. *)
Lemma count_field_wraps_at_1024 :
  let dc := @created adiv5_headers (probe 1024) in
  let ops := replicate 255 (op_q_dp_rd 0x00 100) ++
             replicate 2 (op_q_dp_wr 0x00 7) in
  let dc' := @run adiv5_headers ops (dc_q_init dc) in
  max_packet_size dc = 1024 /\ length ops = 257%nat /\ qerror dc' = DC_OK /\
  usb_out (usb dc') = usb_out (usb dc) /\
  records (q_stream dc') 257 (Z.to_nat (rxnext dc')) /\
  q_count dc' = 1.
Proof.
  vm_compute.
  repeat (split; [reflexivity|]). split; [|reflexivity].
  repeat (first [apply records_rd; [reflexivity|]
                |apply records_wr; [reflexivity|]]).
  apply records_nil.
Qed.

(** The bound of 642 is sharp: with packets of 643 bytes, 160 reads and 96
    writes use both budgets of 640 bytes to the last byte and are 256
    requests; the count field has wrapped to 0 and no flush has occurred.
    One more write is appended past the packet size, the flush it asked for
    having returned without clearing. *)
Lemma count_field_wraps_at_643 :
  let dc := @created adiv5_headers (probe 643) in
  let ops := replicate 160 (op_q_dp_rd 0x00 100) ++
             replicate 96 (op_q_dp_wr 0x00 7) in
  let dc' := @run adiv5_headers ops (dc_q_init dc) in
  let dc'' := @step adiv5_headers dc' (op_q_dp_wr 0x00 7) in
  max_packet_size dc = 643 /\ length ops = 256%nat /\ qerror dc' = DC_OK /\
  usb_out (usb dc') = usb_out (usb dc) /\
  (txavail dc', rxavail dc', q_count dc') = (0, 0, 0) /\
  records (q_stream dc') 256 (Z.to_nat (rxnext dc')) /\
  (qerror dc'', txnext dc'', txavail dc'') = (DC_OK, 648, 4294967291).
Proof.
  vm_compute.
  repeat (split; [reflexivity|]). split; [|reflexivity].
  repeat (first [apply records_rd; [reflexivity|]
                |apply records_wr; [reflexivity|]]).
  apply records_nil.
Qed.

(** ** What a flush leaves behind *)

(** C2, every call of [dc_q_exec] leaves the queue empty, is broken by the
    three early returns of the function.  A read of DP register 0 is queued
    on a fresh context with packets of 64 bytes; when the write fails, when
    the read fails, and when the response is too short, [dc_q_exec] returns
    [Io], [Io] and [Protocol] and the request stays queued: cursor at 4,
    count 1, one response pointer, budgets 60 and 57.  The path of the
    latched error and the path of the decoded status do clear the queue
    ([dc_q_exec_cases], [qgood_exec]). *)
Lemma dc_q_exec_early_return_keeps_queue :
  let leftover (res : DC * dc_code) :=
    (snd res, txnext (fst res), q_count (fst res), rxnext (fst res),
     txavail (fst res), rxavail (fst res), max_packet_size (fst res)) in
  let queued (u : usb_handle) :=
    @dc_q_dp_rd adiv5_headers (dc_q_init (@created adiv5_headers u)) 0x00 100 in
  leftover (@dc_q_exec adiv5_headers (queued dead_usb))
    = (DC_ERR_IO, 4, 1, 1, 60, 57, 64) /\
  leftover (@dc_q_exec adiv5_headers (queued (late_usb 4 (-1, []))))
    = (DC_ERR_IO, 4, 1, 1, 60, 57, 64) /\
  leftover (@dc_q_exec adiv5_headers (queued (late_usb 4 (2, [0x05; 1]))))
    = (DC_ERR_PROTOCOL, 4, 1, 1, 60, 57, 64) /\
  ~ q_empty (fst (@dc_q_exec adiv5_headers (queued dead_usb))).
Proof.
  intros leftover queued.
  repeat (split; [vm_compute; reflexivity|]).
  intros (H & _). vm_compute in H. discriminate H.
Qed.

(** ** The DP bank selection *)

Section Select.
Context {hdr : Headers}.

(** What [dc_q_dp_sel] does on a valid address: nothing unless the register
    is 4; for register 4 the value it computes keeps the bits of [dp_select]
    under the DPBANK mask, the mask not being inverted, and a write of
    DP.SELECT is queued exactly when that value differs from the cache. *)
Lemma dc_q_dp_sel_valid (dc : DC) (dpaddr : Z) :
  Z.land dpaddr 0xFFFFFF03 = 0 ->
  (Z.land dpaddr 0xF <> 0x4 -> dc_q_dp_sel dc dpaddr = dc) /\
  (Z.land dpaddr 0xF = 0x4 ->
   let select :=
     Z.lor (Z.land (dp_select dc) (DP_SELECT_DPBANK 0xF))
           (DP_SELECT_DPBANK (Z.shiftr dpaddr 4)) in
   (select = dp_select_cache dc -> dc_q_dp_sel dc dpaddr = dc) /\
   (select <> dp_select_cache dc ->
    dc_q_dp_sel dc dpaddr =
    dc_q_raw_wr (set_dp_select_cache select dc)
      (Z.lor (Z.lor XFER_DP XFER_WR) DP_SELECT) select)).
Proof.
  intros Hv. unfold dc_q_dp_sel. rewrite Hv. cbn [Z.eqb negb].
  split.
  - intros H. apply Z.eqb_neq in H. rewrite H. reflexivity.
  - intros H. rewrite H. cbn [Z.eqb Pos.eqb negb]. split.
    + intros Hs. rewrite Hs, Z.eqb_refl. reflexivity.
    + intros Hs. apply Z.eqb_neq in Hs. rewrite Hs. reflexivity.
Qed.


End Select.

(** ** Context construction *)

Section Create.
Context {hdr : Headers}.

(** C5, amended: [dc_create] fails, yielding no context, when the
    allocation fails ([Failed]), when no probe opens ([Offline]) and when the
    packet limits the queries leave are below the minima ([Protocol]).  In
    every other case it succeeds and yields a context: no failure of an
    information query or of the Connect, SWD_Configure and TransferConfigure
    commands fails the construction. *)
Theorem dc_create_outcomes (calloc_ok : bool)
    (usb_open : Z -> Z -> Z -> option usb_handle) :
  let res := dc_create calloc_ok usb_open in
  (calloc_ok = false -> res = (DC_ERR_FAILED, None)) /\
  (calloc_ok = true -> usb_connect usb_open = None ->
   res = (DC_ERR_OFFLINE, None)) /\
  (forall u, calloc_ok = true -> usb_connect usb_open = Some u ->
     let dc := dap_configure_limits (set_usb u calloc_DC) in
     (max_packet_count dc < 1 \/ max_packet_size dc < 64 ->
      res = (DC_ERR_PROTOCOL, None)) /\
     (1 <= max_packet_count dc /\ 64 <= max_packet_size dc ->
      fst res = DC_OK /\ is_Some (snd res))).
Proof.
  intros res. subst res. unfold dc_create.
  split; [intros ->; reflexivity|].
  split; [intros -> ->; reflexivity|].
  intros u -> ->. cbn [negb]. unfold dap_configure.
  set (dc := dap_configure_limits (set_usb u calloc_DC)).
  cbv zeta. split.
  - intros H.
    replace ((max_packet_count dc <? 1) || (max_packet_size dc <? 64))
      with true.
    + reflexivity.
    + symmetry. apply orb_true_iff.
      destruct H as [H|H]; [left|right]; apply Z.ltb_lt; exact H.
  - intros [H1 H2].
    replace ((max_packet_count dc <? 1) || (max_packet_size dc <? 64))
      with false.
    + cbn [is_ok negb fst snd]. split; [reflexivity|]. eexists. reflexivity.
    + symmetry. apply orb_false_iff. split; apply Z.ltb_ge; assumption.
Qed.

End Create.

(** A probe that answers every command: the construction succeeds. *)
Lemma dc_create_outcomes_witness :
  fst (@dc_create adiv5_headers true (fun _ _ _ => Some (probe 512))) = DC_OK /\
  is_Some (snd (@dc_create adiv5_headers true (fun _ _ _ => Some (probe 512)))).
Proof.
  refine (proj2 (proj2 (proj2 (@dc_create_outcomes adiv5_headers true
            (fun _ _ _ => Some (probe 512)))) (probe 512) _ _) _).
  - reflexivity.
  - reflexivity.
  - vm_compute. split; intro H; discriminate H.
Defined.

(** C5, in the form where the failure of any configuration step fails the
    construction, does not hold: on a carrier where every transfer fails, the
    Connect, SWD_Configure and TransferConfigure commands of [dap_configure]
    all return [Io], and [dc_create] returns [DC_OK] with the context. *)
Lemma dc_create_ignores_failed_commands :
  let dc1 := dap_configure_clip
               (@dap_configure_limits adiv5_headers (set_usb dead_usb calloc_DC)) in
  let '(dc2, r1) := @dap_connect adiv5_headers dc1 in
  let '(dc3, r2) := dap_swd_configure dc2 (@CFG_Turnaround_1 adiv5_headers) in
  let '(dc4, r3) := dap_xfer_config dc3 8 64 0 in
  r1 = DC_ERR_IO /\ r2 = DC_ERR_IO /\ r3 = DC_ERR_IO /\
  @dc_create adiv5_headers true (fun _ _ _ => Some dead_usb) = (DC_OK, Some dc4).
Proof. vm_compute. repeat split; reflexivity. Qed.

(** ** The error latch and the address checks *)

Section Latch.
Context {hdr : Headers}.

Lemma dc_q_exec_latched (dc : DC) :
  qerror dc <> DC_OK -> dc_q_exec dc = (dc_q_clear dc, qerror dc).
Proof.
  intros H. unfold dc_q_exec. apply is_ok_false in H. rewrite H. reflexivity.
Qed.

(** With an error latched, a raw enqueue generates no traffic and keeps the
    error. *)
Lemma dc_q_raw_rd_latched (dc : DC) (req v : Z) :
  qerror dc <> DC_OK ->
  qerror (dc_q_raw_rd dc req v) = qerror dc /\
  usb (dc_q_raw_rd dc req v) = usb dc.
Proof.
  intros H. unfold dc_q_raw_rd.
  destruct ((txavail dc <? 1) || (rxavail dc <? 4)).
  - rewrite dc_q_exec_latched by exact H.
    apply is_ok_false in H. rewrite H. cbn [negb]. split; reflexivity.
  - split; reflexivity.
Qed.

Lemma dc_q_raw_wr_latched (dc : DC) (req v : Z) :
  qerror dc <> DC_OK ->
  qerror (dc_q_raw_wr dc req v) = qerror dc /\
  usb (dc_q_raw_wr dc req v) = usb dc.
Proof.
  intros H. unfold dc_q_raw_wr.
  destruct (txavail dc <? 5).
  - rewrite dc_q_exec_latched by exact H.
    apply is_ok_false in H. rewrite H. cbn [negb]. split; reflexivity.
  - split; reflexivity.
Qed.

Lemma dc_q_dp_sel_invalid (dc : DC) (a : Z) :
  Z.land a 0xFFFFFF03 <> 0 -> dc_q_dp_sel dc a = set_qerror DC_ERR_FAILED dc.
Proof.
  intros H. unfold dc_q_dp_sel. apply Z.eqb_neq in H. rewrite H. reflexivity.
Qed.

Lemma dc_q_ap_sel_invalid (dc : DC) (a : Z) :
  Z.land a 0xFFFF0003 <> 0 -> dc_q_ap_sel dc a = set_qerror DC_ERR_FAILED dc.
Proof.
  intros H. unfold dc_q_ap_sel. apply Z.eqb_neq in H. rewrite H. reflexivity.
Qed.

(** What is left of an operation whose selection step latched [Failed]. *)
Lemma latched_after_raw (dc dc' : DC) :
  qerror dc' = DC_ERR_FAILED -> usb dc' = usb dc ->
  qerror dc' = DC_ERR_FAILED /\ usb dc' = usb dc /\
  dc_q_exec dc' = (dc_q_clear dc', DC_ERR_FAILED).
Proof.
  intros Hq Hu. split; [exact Hq|]. split; [exact Hu|].
  rewrite dc_q_exec_latched by (rewrite Hq; discriminate).
  rewrite Hq. reflexivity.
Qed.

(** C1, amended: on a queue without a latched error, an enqueue of a DP
    operation whose address fails [dpaddr & 0xFFFFFF03 == 0], or of an AP
    operation whose address fails [apaddr & 0xFFFF0003 == 0], has its
    selection step set [qerror] to [DC_ERR_FAILED] and change nothing else
    (no DP.SELECT write, the cache untouched); when the operation returns the
    error is still latched and no USB traffic has occurred, and the next
    [dc_q_exec] returns [DC_ERR_FAILED] and clears the queue without sending
    anything. *)
Theorem invalid_address_latches_failed (dc : DC) (a v : Z) :
  qerror dc = DC_OK ->
  (Z.land a 0xFFFFFF03 <> 0 ->
   dc_q_dp_sel dc a = set_qerror DC_ERR_FAILED dc /\
   forall dc', dc' = dc_q_dp_rd dc a v \/ dc' = dc_q_dp_wr dc a v ->
     qerror dc' = DC_ERR_FAILED /\ usb dc' = usb dc /\
     dc_q_exec dc' = (dc_q_clear dc', DC_ERR_FAILED)) /\
  (Z.land a 0xFFFF0003 <> 0 ->
   dc_q_ap_sel dc a = set_qerror DC_ERR_FAILED dc /\
   forall dc',
     dc' = dc_q_ap_rd dc a v \/ dc' = dc_q_ap_wr dc a v \/
     dc' = dc_q_ap_match dc a v ->
     qerror dc' = DC_ERR_FAILED /\ usb dc' = usb dc /\
     dc_q_exec dc' = (dc_q_clear dc', DC_ERR_FAILED)).
Proof.
  intros Hq.
  assert (Hl : qerror (set_qerror DC_ERR_FAILED dc) <> DC_OK) by discriminate.
  split; intros Hbad.
  - pose proof (dc_q_dp_sel_invalid dc a Hbad) as Hsel.
    split; [exact Hsel|].
    intros dc' [-> | ->]; unfold dc_q_dp_rd, dc_q_dp_wr;
      rewrite Hq; cbn [is_ok negb]; rewrite Hsel.
    + destruct (dc_q_raw_rd_latched _
                  (Z.lor (Z.lor XFER_DP XFER_RD) (Z.land a 12)) v Hl) as [H1 H2].
      apply latched_after_raw; [exact H1|exact H2].
    + destruct (dc_q_raw_wr_latched _
                  (Z.lor (Z.lor XFER_DP XFER_WR) (Z.land a 12)) v Hl) as [H1 H2].
      apply latched_after_raw; [exact H1|exact H2].
  - pose proof (dc_q_ap_sel_invalid dc a Hbad) as Hsel.
    split; [exact Hsel|].
    intros dc' [-> | [-> | ->]]; unfold dc_q_ap_rd, dc_q_ap_wr, dc_q_ap_match;
      rewrite Hq; cbn [is_ok negb]; rewrite Hsel.
    + destruct (dc_q_raw_rd_latched _
                  (Z.lor (Z.lor XFER_AP XFER_RD) (Z.land a 12)) v Hl) as [H1 H2].
      apply latched_after_raw; [exact H1|exact H2].
    + destruct (dc_q_raw_wr_latched _
                  (Z.lor (Z.lor XFER_AP XFER_WR) (Z.land a 12)) v Hl) as [H1 H2].
      apply latched_after_raw; [exact H1|exact H2].
    + destruct (dc_q_raw_wr_latched _
                  (Z.lor (Z.lor (Z.lor XFER_AP XFER_RD) XFER_ValueMatch)
                     (Z.land a 12)) v Hl) as [H1 H2].
      apply latched_after_raw; [exact H1|exact H2].
Qed.

End Latch.

(** A read of the misaligned DP address 0x01 on a fresh queue. *)
Lemma invalid_address_latches_failed_witness :
  let dc := dc_q_init (@created adiv5_headers dead_usb) in
  let dc' := @dc_q_dp_rd adiv5_headers dc 0x01 100 in
  qerror dc' = DC_ERR_FAILED /\ usb dc' = usb dc /\
  @dc_q_exec adiv5_headers dc' = (dc_q_clear dc', DC_ERR_FAILED).
Proof.
  intros dc dc'.
  refine (proj2 (proj1 (@invalid_address_latches_failed adiv5_headers dc 0x01
                          100 _) _) dc' _).
  - vm_compute. reflexivity.
  - vm_compute. intro H. discriminate H.
  - left. reflexivity.
Defined.

(** C1, in the form where [qerror] becomes InvalidArg and the operation is
    dropped, does not hold: the error latched is [DC_ERR_FAILED], not
    the InvalidArg of the taxonomy, and the operation is not dropped from
    the packet.  After a read of the DP address 0x01 on a fresh queue the
    cursor has advanced from 3 to 4, [rxptr] holds a pointer and the count
    byte is 1; after a write of the AP address 0x02 the cursor is at 8 and
    the count byte is 1. *)
Lemma invalid_address_is_enqueued :
  let dc := dc_q_init (@created adiv5_headers dead_usb) in
  let dc' := @dc_q_dp_rd adiv5_headers dc 0x01 100 in
  let dc'' := @dc_q_ap_wr adiv5_headers dc 0x02 7 in
  (Z.land 0x01 0xFFFFFF03 <> 0 /\ Z.land 0x02 0xFFFF0003 <> 0) /\
  (qerror dc, txnext dc, rxnext dc, q_count dc) = (DC_OK, 3, 0, 0) /\
  (qerror dc', txnext dc', rxnext dc', q_count dc') = (DC_ERR_FAILED, 4, 1, 1) /\
  (qerror dc'', txnext dc'', rxnext dc'', q_count dc'')
    = (DC_ERR_FAILED, 8, 0, 1) /\
  qerror dc' <> DC_ERR_INVALID_ARG /\ txnext dc' <> txnext dc /\
  rxnext dc' <> rxnext dc /\ q_count dc' <> q_count dc.
Proof.
  vm_compute. repeat split; try reflexivity; intro H; discriminate H.
Qed.

(** ** The mirrors of the probe's configuration *)

Section Mirrors.
Context {hdr : Headers}.

Lemma clamp_min (x c : Z) : (if x >? c then c else x) = Z.min x c.
Proof. destruct (Z.gtb_spec x c); lia. Qed.

(** A command of the layer is one packet handed to the carrier, and changes
    nothing of the context but the carrier. *)
Lemma dap_cmd_std_effect (dc : DC) (io : list Z) (txlen rxlen : Z) :
  exists u,
    fst (dap_cmd_std dc io txlen rxlen) = set_usb u dc /\
    usb_out u = usb_out (usb dc) ++ [take (Z.to_nat txlen) io].
Proof.
  unfold dap_cmd_std, dap_cmd.
  destruct (usb_write (usb dc) io txlen) as [u w] eqn:Hw.
  pose proof (usb_write_out (usb dc) io txlen) as Hout.
  rewrite Hw in Hout. cbn [fst] in Hout.
  destruct (negb (w =? txlen)); [exists u; auto|].
  cbn [usb set_usb].
  destruct (usb_read u io rxlen) as [[u' n] io'] eqn:Hr.
  pose proof (usb_read_out u io rxlen) as Hout'.
  rewrite Hr in Hout'. cbn [fst] in Hout'.
  exists u'. split; [|congruence].
  destruct (n <? 1); [reflexivity|].
  destruct (negb (peek io' 0 =? peek io 0)); [reflexivity|].
  destruct (negb (peek io' 1 =? 0)); reflexivity.
Qed.

Lemma dap_xfer_config_effect (dc : DC) (idle wait match_ : Z) :
  let idle' := Z.min idle 255 in
  let wait' := Z.min wait 65535 in
  let match' := Z.min match_ 65535 in
  (cfg_idle dc = idle' /\ cfg_wait dc = wait' /\ cfg_match dc = match' ->
   dap_xfer_config dc idle wait match_ = (dc, DC_OK)) /\
  (~ (cfg_idle dc = idle' /\ cfg_wait dc = wait' /\ cfg_match dc = match') ->
   exists u,
     fst (dap_xfer_config dc idle wait match_)
       = set_usb u (set_cfg idle' wait' match' dc) /\
     usb_out u = usb_out (usb dc) ++
       [[DAP_TransferConfigure; u8 idle'; u8 wait'; u8 (Z.shiftr wait' 8);
         u8 match'; u8 (Z.shiftr match' 8)]]).
Proof.
  intros idle' wait' match'. unfold dap_xfer_config.
  rewrite !clamp_min. fold idle' wait' match'.
  destruct ((cfg_idle dc =? idle') && (cfg_wait dc =? wait') &&
            (cfg_match dc =? match')) eqn:E.
  - split; [reflexivity|].
    intros H. exfalso. apply H.
    apply andb_true_iff in E as [E E3]. apply andb_true_iff in E as [E1 E2].
    apply Z.eqb_eq in E1, E2, E3. auto.
  - split.
    + intros (H1 & H2 & H3). exfalso.
      rewrite H1, H2, H3, !Z.eqb_refl in E. discriminate E.
    + intros _.
      destruct (dap_cmd_std_effect (set_cfg idle' wait' match' dc)
                  [DAP_TransferConfigure; u8 idle'; u8 wait';
                   u8 (Z.shiftr wait' 8); u8 match'; u8 (Z.shiftr match' 8)]
                  6 2) as (u & Hu & Hout).
      exists u. split; [exact Hu|exact Hout].
Qed.

Lemma dc_q_set_mask_once (dc : DC) (m : Z) :
  qerror dc = DC_OK -> 5 <= txavail dc ->
  dc_q_set_mask dc m =
  if cfg_mask dc =? m then dc
  else raw_wr_append (set_cfg_mask m dc) (Z.lor XFER_WR XFER_MatchMask) m.
Proof.
  intros Hq Hroom. unfold dc_q_set_mask. rewrite Hq. cbn [is_ok negb].
  destruct (cfg_mask dc =? m); [reflexivity|].
  unfold dc_q_raw_wr. cbn [txavail set_cfg_mask].
  apply Z.ltb_ge in Hroom. rewrite Hroom. reflexivity.
Qed.

(** Where the mirrors do suppress the repeated write.  On a queue without a
    latched error: when the packet has room for a write, so that the first
    call does not flush, two calls of [dc_q_set_mask] with the same mask
    enqueue exactly one MatchMask write when the mirror differed from the
    mask, and nothing when the mirror was equal to it; two calls of
    [dc_set_match_retry] with the same count send exactly one
    TransferConfigure when the clamped values differed from the mirrors, and
    nothing when they were equal. *)
Theorem repeated_configuration (dc : DC) (m n : Z) :
  qerror dc = DC_OK ->
  (5 <= txavail dc -> 3 <= txnext dc ->
   (Z.to_nat (txnext dc) + 5 <= length (txbuf dc))%nat ->
   let dc2 := dc_q_set_mask (dc_q_set_mask dc m) m in
   dc2 = dc_q_set_mask dc m /\
   (cfg_mask dc = m -> dc2 = dc) /\
   (cfg_mask dc <> m ->
    cfg_mask dc2 = m /\ usb dc2 = usb dc /\
    q_count dc2 = u8 (q_count dc + 1) /\
    q_stream dc2 =
    q_stream dc ++ u8 (Z.lor XFER_WR XFER_MatchMask) :: le_bytes32 m)) /\
  (let idle := Z.min (cfg_idle dc) 255 in
   let wait := Z.min (cfg_wait dc) 65535 in
   let match_ := Z.min n 65535 in
   let dc2 := dc_set_match_retry (dc_set_match_retry dc n) n in
   dc2 = dc_set_match_retry dc n /\
   (cfg_idle dc = idle /\ cfg_wait dc = wait /\ cfg_match dc = match_ ->
    dc2 = dc) /\
   (~ (cfg_idle dc = idle /\ cfg_wait dc = wait /\ cfg_match dc = match_) ->
    cfg_match dc2 = match_ /\
    usb_out (usb dc2) = usb_out (usb dc) ++
      [[DAP_TransferConfigure; u8 idle; u8 wait; u8 (Z.shiftr wait 8);
        u8 match_; u8 (Z.shiftr match_ 8)]])).
Proof.
  intros Hq. split.
  - intros Hroom Ht Hlen dc2. subst dc2.
    rewrite (dc_q_set_mask_once dc m Hq Hroom).
    destruct (Z.eqb_spec (cfg_mask dc) m) as [He|Hne].
    + rewrite (dc_q_set_mask_once dc m Hq Hroom).
      apply Z.eqb_eq in He. rewrite He. split; [reflexivity|].
      split; [reflexivity|]. apply Z.eqb_eq in He. congruence.
    + set (dc1 := raw_wr_append (set_cfg_mask m dc)
                    (Z.lor XFER_WR XFER_MatchMask) m).
      assert (H2 : dc_q_set_mask dc1 m = dc1).
      { unfold dc_q_set_mask.
        change (qerror dc1) with (qerror dc). rewrite Hq. cbn [is_ok negb].
        change (cfg_mask dc1) with m. rewrite Z.eqb_refl. reflexivity. }
      rewrite H2. split; [reflexivity|]. split; [congruence|].
      intros _. split; [reflexivity|]. split; [reflexivity|].
      split.
      * apply (txbuf_raw_wr_append (set_cfg_mask m dc)); cbn [txnext txbuf set_cfg_mask]; lia.
      * apply (q_stream_raw_wr_append (set_cfg_mask m dc));
          cbn [txnext txbuf set_cfg_mask]; lia.
  - intros idle wait match_ dc2. subst dc2.
    assert (H1 : dc_set_match_retry dc n =
                 fst (dap_xfer_config dc (cfg_idle dc) (cfg_wait dc) n)).
    { unfold dc_set_match_retry. rewrite Hq. reflexivity. }
    destruct (dap_xfer_config_effect dc (cfg_idle dc) (cfg_wait dc) n)
      as [Hsame Hdiff]. fold idle wait match_ in Hsame, Hdiff.
    assert (Hd : (cfg_idle dc = idle /\ cfg_wait dc = wait /\
                  cfg_match dc = match_) \/
                 ~ (cfg_idle dc = idle /\ cfg_wait dc = wait /\
                    cfg_match dc = match_)).
    { destruct (Z.eq_dec (cfg_idle dc) idle);
      destruct (Z.eq_dec (cfg_wait dc) wait);
      destruct (Z.eq_dec (cfg_match dc) match_); tauto. }
    destruct Hd as [He|Hne].
    + rewrite H1, (Hsame He). cbn [fst]. rewrite H1, (Hsame He). cbn [fst].
      split; [reflexivity|]. split; [reflexivity|]. intros H. tauto.
    + destruct (Hdiff Hne) as (u & Hu & Hout).
      rewrite H1, Hu.
      set (dc1 := set_usb u (set_cfg idle wait match_ dc)).
      assert (H2 : dc_set_match_retry dc1 n = dc1).
      { unfold dc_set_match_retry.
        change (qerror dc1) with (qerror dc). rewrite Hq. cbn [is_ok negb].
        destruct (dap_xfer_config_effect dc1 (cfg_idle dc1) (cfg_wait dc1) n)
          as [Hs _].
        rewrite Hs; [reflexivity|].
        change (cfg_idle dc1) with idle. change (cfg_wait dc1) with wait.
        change (cfg_match dc1) with match_. subst idle wait. lia. }
      rewrite H2. split; [reflexivity|]. split; [tauto|].
      intros _. split; [reflexivity|exact Hout].
Qed.

End Mirrors.

Section MirrorsRun.
#[local] Existing Instance adiv5_headers.

(** A fresh context of a probe with packets of 512 bytes: the mask mirror
    is invalid and the retry mirror is 0. *)
Lemma repeated_configuration_witness :
  let dc := dc_q_init (created (probe 512)) in
  let dc2 := dc_q_set_mask (dc_q_set_mask dc 0xFF) 0xFF in
  let dc3 := dc_set_match_retry (dc_set_match_retry dc 100) 100 in
  q_stream dc2 = q_stream dc ++ [0x20; 0xFF; 0; 0; 0] /\
  usb_out (usb dc3) = usb_out (usb dc) ++ [[0x04; 8; 64; 0; 100; 0]].
Proof.
  intros dc dc2 dc3.
  assert (Hq : qerror dc = DC_OK) by (vm_compute; reflexivity).
  destruct (repeated_configuration dc 0xFF 100 Hq) as [Hm Hr].
  split.
  - refine (proj2 (proj2 (proj2 (proj2 (proj2 (Hm _ _ _)) _)))).
    + vm_compute. intro H. discriminate H.
    + vm_compute. intro H. discriminate H.
    + vm_compute. apply Nat.leb_le. vm_compute. reflexivity.
    + vm_compute. intro H. discriminate H.
  - refine (proj2 (proj2 (proj2 Hr) _)).
    vm_compute. intros (_ & _ & H). discriminate H.
Defined.

(** C9, two calls of [dc_q_set_mask] with the same mask enqueue exactly one
    MatchMask write in the batch, is broken by the code in two ways.

    When the first call has to flush: on a probe with packets of 64 bytes,
    twelve writes leave one byte of the packet.  [dc_q_set_mask] stores the
    mask 0xFF in the mirror and calls [dc_q_raw_wr], whose flush (the probe
    answers it, no error) ends in [dc_q_clear], which puts the mirror back
    to the sentinel; the write is then queued.  The second call finds the
    mirror different from 0xFF and queues the same write again: the batch
    holds two MatchMask writes.

    When the mask is the sentinel: right after [dc_q_init] the mirror is
    0xFFFFFFFF, and two calls with the mask 0xFFFFFFFF enqueue nothing, so
    the probe is never given that mask. *)
Lemma dc_q_set_mask_twice_diverges :
  let full := run (replicate 12 (op_q_dp_wr 0x00 7))
                (dc_q_init (created (probe_then 64 63 (3, [0x05; 12; 1])))) in
  let dc1 := dc_q_set_mask full 0xFF in
  let dc2 := dc_q_set_mask dc1 0xFF in
  let fresh := dc_q_init (created (probe 512)) in
  (max_packet_size full, qerror full, txavail full, q_count full)
  = (64, DC_OK, 1, 12) /\
  (qerror dc1, cfg_mask dc1) = (DC_OK, INVALID) /\
  usb_out (usb dc1) = usb_out (usb full) ++ [packet full] /\
  q_stream dc1 = [0x20; 0xFF; 0; 0; 0] /\
  qerror dc2 = DC_OK /\ usb_out (usb dc2) = usb_out (usb dc1) /\
  q_stream dc2 = [0x20; 0xFF; 0; 0; 0; 0x20; 0xFF; 0; 0; 0] /\
  q_count dc2 = 2 /\
  (qerror fresh, cfg_mask fresh, q_count fresh) = (DC_OK, 0xFFFFFFFF, 0) /\
  dc_q_set_mask (dc_q_set_mask fresh 0xFFFFFFFF) 0xFFFFFFFF = fresh.
Proof. vm_compute. repeat split; reflexivity. Qed.

End MirrorsRun.

(** ** The AP selection of [dc_q_dp_match] *)

Section Match.
Context {hdr : Headers}.

Lemma dc_q_raw_wr_room (dc : DC) (req v : Z) :
  5 <= txavail dc -> dc_q_raw_wr dc req v = raw_wr_append dc req v.
Proof.
  intros H. unfold dc_q_raw_wr. apply Z.ltb_ge in H. rewrite H. reflexivity.
Qed.

(** The AP field of DP.SELECT is bits 15..8 of the address, moved to bits
    31..24. *)
Lemma select_ap_field (a : Z) :
  Z.land (Z.shiftl (Z.land a 0xFF00) 16) 0xFF000000
  = Z.shiftl (Z.land (Z.shiftr a 8) 0xFF) 24.
Proof.
  change 0xFF000000 with (Z.shiftl (Z.ones 8) 24).
  change 0xFF00 with (Z.shiftl (Z.ones 8) 8).
  change 0xFF with (Z.ones 8).
  apply Z.bits_inj'. intros i Hi. rewrite Z.land_spec.
  destruct (Z.ltb_spec i 24) as [Hlt|Hge].
  - rewrite (Z.shiftl_spec_low (Z.ones 8)) by lia.
    rewrite (Z.shiftl_spec_low (Z.land _ _) 24) by lia.
    apply andb_false_r.
  - rewrite !Z.shiftl_spec by lia. rewrite !Z.land_spec.
    rewrite Z.shiftr_spec by lia. rewrite Z.shiftl_spec by lia.
    replace (i - 16 - 8) with (i - 24) by lia.
    replace (i - 24 + 8) with (i - 16) by lia.
    destruct (Z.testbit a (i - 16)), (Z.testbit (Z.ones 8) (i - 24));
      reflexivity.
Qed.

(** A value made of the AP and APBANK fields has its DPBANK field zero. *)
Lemma select_dpbank_zero (x y : Z) :
  Z.land (Z.lor (Z.shiftl x 24) (Z.shiftl y 4)) 0xF = 0.
Proof.
  change 0xF with (Z.ones 4).
  apply Z.bits_inj'. intros i Hi.
  rewrite Z.land_spec, Z.lor_spec, Z.bits_0.
  destruct (Z.ltb_spec i 4) as [Hlt|Hge].
  - rewrite !Z.shiftl_spec_low by lia. reflexivity.
  - rewrite Z.ones_spec_high by lia. apply andb_false_r.
Qed.

(** C6: [dc_q_dp_match] checks its address against the AP mask, latching an
    error when [addr & 0xFFFF0003] is not zero, and selects as an AP access
    does: the value of DP.SELECT is made of the AP and APBANK fields of the
    address alone, [dp_select] and the DP register of the address playing no
    part; a write of it is queued, and the cache updated, when it differs
    from the cache; then the five bytes of the DP read with value match are
    queued.  With the field macros of ADIv5, the AP field is bits 15..8 of
    the address, the APBANK field bits 7..4, and the DPBANK field is zero. *)
Theorem dc_q_dp_match_selects_as_ap (dc : DC) (a v : Z) :
  qerror dc = DC_OK ->
  (Z.land a 0xFFFF0003 <> 0 ->
   qerror (dc_q_dp_match dc a v) = DC_ERR_FAILED) /\
  (Z.land a 0xFFFF0003 = 0 ->
   10 <= txavail dc < 4294967296 -> 3 <= txnext dc ->
   (Z.to_nat (txnext dc) + 10 <= length (txbuf dc))%nat ->
   let select :=
     Z.lor (DP_SELECT_AP (Z.shiftl (Z.land a 0xFF00) 16))
           (DP_SELECT_APBANK (Z.shiftr a 4)) in
   let dc' := dc_q_dp_match dc a v in
   let value_match :=
     u8 (Z.lor (Z.lor (Z.lor XFER_DP XFER_RD) XFER_ValueMatch) (Z.land a 0x0C))
     :: le_bytes32 v in
   let select_write :=
     u8 (Z.lor (Z.lor XFER_DP XFER_WR) DP_SELECT) :: le_bytes32 select in
   qerror dc' = DC_OK /\
   dp_select_cache dc' = select /\
   (select = dp_select_cache dc ->
    q_stream dc' = q_stream dc ++ value_match) /\
   (select <> dp_select_cache dc ->
    q_stream dc' = q_stream dc ++ select_write ++ value_match) /\
   ((forall x, DP_SELECT_AP x = Z.land x 0xFF000000) ->
    (forall x, DP_SELECT_APBANK x = Z.shiftl (Z.land x 0xF) 4) ->
    select = Z.lor (Z.shiftl (Z.land (Z.shiftr a 8) 0xFF) 24)
                   (Z.shiftl (Z.land (Z.shiftr a 4) 0xF) 4) /\
    Z.land select 0xF = 0)).
Proof.
  intros Hq. split.
  - intros Hbad. unfold dc_q_dp_match. rewrite Hq. cbn [is_ok negb].
    rewrite dc_q_ap_sel_invalid by exact Hbad.
    apply dc_q_raw_wr_latched. discriminate.
  - intros Hok Hroom Ht Hlen select dc' value_match select_write.
    assert (Hlaw :
      (forall x, DP_SELECT_AP x = Z.land x 0xFF000000) ->
      (forall x, DP_SELECT_APBANK x = Z.shiftl (Z.land x 0xF) 4) ->
      select = Z.lor (Z.shiftl (Z.land (Z.shiftr a 8) 0xFF) 24)
                     (Z.shiftl (Z.land (Z.shiftr a 4) 0xF) 4) /\
      Z.land select 0xF = 0).
    { intros HAP HBANK.
      assert (Hs : select = Z.lor (Z.shiftl (Z.land (Z.shiftr a 8) 0xFF) 24)
                     (Z.shiftl (Z.land (Z.shiftr a 4) 0xF) 4)).
      { subst select. rewrite HAP, HBANK, select_ap_field. reflexivity. }
      split; [exact Hs|]. rewrite Hs. apply select_dpbank_zero. }
    subst dc'. unfold dc_q_dp_match. rewrite Hq. cbn [is_ok negb].
    unfold dc_q_ap_sel. rewrite Hok. cbn [Z.eqb negb]. fold select.
    destruct (Z.eqb_spec select (dp_select_cache dc)) as [He|Hne]; cbn [negb].
    + rewrite dc_q_raw_wr_room by lia.
      split; [exact Hq|]. split; [symmetry; exact He|].
      split; [|split; [congruence|exact Hlaw]].
      intros _. apply q_stream_raw_wr_append; lia.
    + rewrite (dc_q_raw_wr_room (set_dp_select_cache select dc))
        by (cbn [txavail set_dp_select_cache]; lia).
      set (dc1 := raw_wr_append (set_dp_select_cache select dc)
                    (Z.lor (Z.lor XFER_DP XFER_WR) DP_SELECT) select).
      assert (Hs1 : q_stream dc1 = q_stream dc ++ select_write).
      { apply (q_stream_raw_wr_append (set_dp_select_cache select dc));
          cbn [txnext txbuf set_dp_select_cache]; lia. }
      assert (Hl1 : length (txbuf dc1) = length (txbuf dc)).
      { apply (txbuf_raw_wr_append (set_dp_select_cache select dc));
          cbn [txnext txbuf set_dp_select_cache]; lia. }
      assert (Ht1 : txnext dc1 = txnext dc + 5) by reflexivity.
      assert (Ha1 : txavail dc1 = txavail dc - 5).
      { change (txavail dc1) with (u32 (txavail dc - 5)).
        apply u32_small. lia. }
      rewrite dc_q_raw_wr_room by lia.
      split; [exact Hq|]. split; [reflexivity|].
      split; [congruence|]. split; [|exact Hlaw].
      intros _. rewrite q_stream_raw_wr_append by lia.
      rewrite Hs1, <- app_assoc. reflexivity.
Qed.

End Match.

Section MatchRun.
#[local] Existing Instance adiv5_headers.

(** A value match on DP register 4 through the address 0x0134 selects AP 1,
    AP bank 3. *)
Lemma dc_q_dp_match_selects_as_ap_witness :
  let dc := dc_q_init (created (probe 512)) in
  let dc' := dc_q_dp_match dc 0x0134 0xCAFE in
  dp_select_cache dc' = 0x01000030 /\
  q_stream dc' = [0x08; 0x30; 0x00; 0x00; 0x01; 0x16; 0xFE; 0xCA; 0x00; 0x00].
Proof.
  intros dc dc'.
  assert (Hq : qerror dc = DC_OK) by (vm_compute; reflexivity).
  destruct (proj2 (dc_q_dp_match_selects_as_ap dc 0x0134 0xCAFE Hq))
    as (_ & Hc & _ & Hs & _).
  - vm_compute. reflexivity.
  - vm_compute. split; [intro H; discriminate H|reflexivity].
  - vm_compute. intro H. discriminate H.
  - vm_compute. apply Nat.leb_le. vm_compute. reflexivity.
  - split; [exact Hc|]. apply Hs. vm_compute. intro H. discriminate H.
Defined.

End MatchRun.

(** ** The attach sequence *)

Section Attach.
Context {hdr : Headers}.

Lemma dap_cmd_effect (dc : DC) (tx : list Z) (txlen : Z) (rx : list Z)
    (rxlen : Z) :
  exists u,
    fst (fst (dap_cmd dc tx txlen rx rxlen)) = set_usb u dc /\
    usb_out u = usb_out (usb dc) ++ [take (Z.to_nat txlen) tx].
Proof.
  unfold dap_cmd.
  destruct (usb_write (usb dc) tx txlen) as [u w] eqn:Hw.
  pose proof (usb_write_out (usb dc) tx txlen) as Hout.
  rewrite Hw in Hout. cbn [fst] in Hout.
  destruct (negb (w =? txlen)); [exists u; auto|].
  cbn [usb set_usb].
  destruct (usb_read u rx rxlen) as [[u' n] rx'] eqn:Hr.
  pose proof (usb_read_out u rx rxlen) as Hout'.
  rewrite Hr in Hout'. cbn [fst] in Hout'.
  exists u'. split; [|congruence].
  destruct (n <? 1); [reflexivity|].
  destruct (negb (peek rx' 0 =? peek tx 0)); reflexivity.
Qed.

(** The bare read of DP.IDR that ends [dc_attach] is one packet of one
    request. *)
Lemma set_qerror_clear (dc : DC) :
  set_qerror DC_OK (dc_q_clear dc) = dc_q_clear dc.
Proof.
  cbv [dc_q_clear usb status max_packet_count max_packet_size cfg_idle cfg_wait
       cfg_match cfg_mask dp_select dp_select_cache txbuf rxptr txnext rxnext
       txavail rxavail qerror mem set_cfg_mask set_dp_select_cache set_txbuf
       set_txnext set_rxnext set_txavail set_rxavail set_qerror].
  reflexivity.
Qed.

Lemma q_count_clear (dc : DC) :
  (3 <= length (txbuf dc))%nat -> q_count (dc_q_clear dc) = 0.
Proof.
  intros H. unfold q_count, dc_q_clear. cbn [txbuf set_txbuf].
  apply peek_poke_eq. rewrite !length_poke.
  cbn [txbuf set_cfg_mask set_dp_select_cache set_qerror set_rxavail
       set_txavail set_rxnext set_txnext]. lia.
Qed.

Lemma dc_q_exec_clear (dc : DC) :
  (3 <= length (txbuf dc))%nat ->
  dc_q_exec (dc_q_clear dc) = (dc_q_clear dc, DC_OK).
Proof.
  intros H. unfold dc_q_exec.
  replace (qerror (dc_q_clear dc)) with DC_OK by reflexivity.
  cbn [is_ok negb]. fold (q_count (dc_q_clear dc)).
  rewrite q_count_clear by exact H. reflexivity.
Qed.

(** On a queue just initialised a raw read is appended, flushed first or
    not. *)
Lemma dc_q_raw_rd_init (dc : DC) (req val : Z) :
  (3 <= length (txbuf dc))%nat ->
  dc_q_raw_rd (dc_q_init dc) req val = raw_rd_append (dc_q_clear dc) req val.
Proof.
  intros H. unfold dc_q_raw_rd, dc_q_init.
  destruct ((txavail (dc_q_clear dc) <? 1) || (rxavail (dc_q_clear dc) <? 4));
    [|reflexivity].
  rewrite dc_q_exec_clear by exact H. cbv beta iota zeta. cbn [is_ok negb].
  rewrite set_qerror_clear. reflexivity.
Qed.

Lemma packet_first_read (dc : DC) (req val : Z) :
  (4 <= length (txbuf dc))%nat ->
  packet (raw_rd_append (dc_q_clear dc) req val) = [DAP_Transfer; 0; 1; u8 req].
Proof.
  intros H. unfold packet, raw_rd_append, dc_q_clear.
  cbn [txbuf txnext set_txbuf set_cfg_mask set_dp_select_cache set_qerror
       set_rxavail set_txavail set_rxnext set_txnext set_rxptr].
  destruct (txbuf dc) as [|b0 [|b1 [|b2 [|b3 rest]]]];
    try (cbn [length] in H; lia).
  reflexivity.
Qed.

(** A flush of a queue that holds requests and no error hands the packet to
    the carrier. *)
Lemma dc_q_exec_sends (dc : DC) :
  qerror dc = DC_OK -> q_count dc <> 0 ->
  usb_out (usb (fst (dc_q_exec dc))) = usb_out (usb dc) ++ [packet dc].
Proof.
  intros Hq Hc.
  destruct (dc_q_exec_cases dc)
    as [(Hq' & _)|[(_ & Hc' & _)|(_ & _ & u & r & Hout & [[-> _]|[m ->]])]].
  - contradiction.
  - contradiction.
  - exact Hout.
  - exact Hout.
Qed.

(** The bare read of DP.IDR that ends [dc_attach] is one packet of one
    request. *)
Lemma idr_read_packet (dc : DC) (idcode : Z) :
  arrays_ok dc ->
  usb_out (usb (fst (dc_q_exec
     (dc_q_raw_rd (dc_q_init dc) (Z.lor (Z.lor XFER_DP XFER_RD) XFER_00)
        idcode))))
  = usb_out (usb dc) ++ [[DAP_Transfer; 0; 1; 0x02]].
Proof.
  intros [Htx Hrx].
  rewrite dc_q_raw_rd_init by lia.
  rewrite dc_q_exec_sends.
  - rewrite packet_first_read by lia. reflexivity.
  - reflexivity.
  - destruct (txbuf_raw_rd_append (dc_q_clear dc)
                (Z.lor (Z.lor XFER_DP XFER_RD) XFER_00) idcode) as (Hc & _).
    + cbn [txnext dc_q_clear set_txbuf set_cfg_mask set_dp_select_cache
           set_qerror set_rxavail set_txavail set_rxnext set_txnext]. lia.
    + unfold dc_q_clear. cbn [txbuf set_txbuf]. rewrite !length_poke.
      cbn [txbuf set_cfg_mask set_dp_select_cache set_qerror set_rxavail
           set_txavail set_rxnext set_txnext]. lia.
    + rewrite Hc, q_count_clear by lia. discriminate.
Qed.

(** [__builtin_parity] is the parity of the number of 1 bits. *)
Lemma xor_bits_odd (n : nat) (x : Z) : xor_bits n x = Nat.odd (ones n x).
Proof.
  induction n as [|k IH]; cbn [xor_bits ones].
  - reflexivity.
  - rewrite IH. destruct (Z.testbit x (Z.of_nat k)).
    + cbn [Nat.add]. rewrite Nat.odd_succ, <- Nat.negb_odd. reflexivity.
    + reflexivity.
Qed.

(** C7: the first packet [dc_attach] hands to the carrier is the
    SWD_Sequence command, the only one, followed by the transfer of the
    DP.IDR read.  With the multidrop flag it is 54 bytes long, its count
    field at offset 1 is 8, bytes 2..48 are those of the template, bytes
    49..52 are the target id in little-endian order, and byte 53 is its even
    parity: 1 when the number of 1 bits among the 32 is odd.  Without the
    flag it is the first 45 bytes of the template, unmodified, count field
    5. *)
Theorem dc_attach_sequence (dc : DC) (flags tgt idcode : Z) :
  arrays_ok dc ->
  exists cmd,
    usb_out (usb (fst (dc_attach dc flags tgt idcode)))
      = usb_out (usb dc) ++ [cmd; [DAP_Transfer; 0; 1; 0x02]] /\
    peek cmd 0 = DAP_SWD_Sequence /\
    (Z.land flags DC_MULTIDROP <> 0 ->
     length cmd = 54%nat /\ peek cmd 1 = 8 /\
     drop 2 (take 49 cmd) = drop 2 (take 49 attach_cmd) /\
     drop 49 (take 53 cmd)
       = [tgt mod 256; tgt / 256 mod 256; tgt / 65536 mod 256;
          tgt / 16777216 mod 256] /\
     peek cmd 53 = Z.b2z (Nat.odd (ones 32 tgt))) /\
    (Z.land flags DC_MULTIDROP = 0 ->
     cmd = take 45 attach_cmd /\ length cmd = 45%nat /\ peek cmd 1 = 5).
Proof.
  intros Harr. unfold dc_attach.
  destruct (Z.eqb_spec (Z.land flags DC_MULTIDROP) 0) as [Hf|Hf]; cbn [negb].
  - destruct (dap_cmd_effect dc attach_cmd 45 [0; 0; 0] 2) as (u & -> & Hout).
    exists (take 45 attach_cmd).
    rewrite idr_read_packet by exact Harr.
    cbn [usb set_usb]. rewrite Hout, <- app_assoc.
    split; [reflexivity|]. split; [reflexivity|].
    split; [intros H; contradiction|]. intros _. auto.
  - set (cmd := poke (poke_bytes (poke attach_cmd 1 8) 49 (le_bytes32 tgt)) 53
                  (u8 (builtin_parity tgt))).
    destruct (dap_cmd_effect dc cmd 54 [0; 0; 0] 3) as (u & -> & Hout).
    exists (take 54 cmd).
    rewrite idr_read_packet by exact Harr.
    cbn [usb set_usb]. rewrite Hout, <- app_assoc.
    split; [reflexivity|]. split; [reflexivity|].
    split; [|intros H; contradiction]. intros _.
    split; [reflexivity|]. split; [reflexivity|]. split; [reflexivity|].
    split.
    + change (drop 49 (take 53 (take 54 cmd))) with (le_bytes32 tgt).
      unfold le_bytes32, u8. rewrite !Z.shiftr_div_pow2 by lia. reflexivity.
    + change (peek (take 54 cmd) 53) with (u8 (builtin_parity tgt)).
      unfold builtin_parity. rewrite xor_bits_odd.
      apply u8_small. destruct (Nat.odd (ones 32 tgt)); cbn; lia.
Qed.

End Attach.

Section AttachRun.
#[local] Existing Instance adiv5_headers.

(** The multidrop attach of the target 0x01002927. *)
Lemma dc_attach_sequence_witness :
  let dc := created (probe 512) in
  exists cmd,
    usb_out (usb (fst (dc_attach dc 1 0x01002927 100)))
      = usb_out (usb dc) ++ [cmd; [0x05; 0; 1; 0x02]] /\
    length cmd = 54%nat /\ peek cmd 1 = 8 /\
    drop 49 (take 53 cmd) = [0x27; 0x29; 0x00; 0x01] /\ peek cmd 53 = 0.
Proof.
  intros dc.
  destruct (dc_attach_sequence dc 1 0x01002927 100)
    as (cmd & Hout & _ & Hm & _).
  - vm_compute. split; reflexivity.
  - exists cmd. split; [exact Hout|].
    destruct Hm as (H1 & H2 & _ & H4 & H5).
    + vm_compute. intro H. discriminate H.
    + split; [exact H1|]. split; [exact H2|]. split; [exact H4|exact H5].
Defined.

End AttachRun.


(** * Further properties of the transport *)

(** ** The command layer *)

Section Commands.
Context {hdr : Headers}.

Lemma Forall_poke (P : Z -> Prop) (buf : list Z) (i b : Z) :
  P b -> Forall P buf -> Forall P (poke buf i b).
Proof. intros Hb H. unfold poke. apply Forall_insert; assumption. Qed.

Lemma Forall_poke_bytes (P : Z -> Prop) (bs buf : list Z) (i : Z) :
  Forall P bs -> Forall P buf -> Forall P (poke_bytes buf i bs).
Proof.
  revert buf i. induction bs as [|b bs IH]; intros buf i Hbs H; cbn.
  - exact H.
  - inversion Hbs; subst. apply IH; [assumption|].
    apply Forall_poke; assumption.
Qed.

Lemma peek_Forall (P : Z -> Prop) (buf : list Z) (i : Z) :
  P 0 -> Forall P buf -> P (peek buf i).
Proof.
  intros H0 H. unfold peek. destruct (buf !! Z.to_nat i) as [b|] eqn:E; cbn.
  - eapply Forall_lookup_1; eassumption.
  - exact H0.
Qed.

Lemma Forall_u8 (l : list Z) : Forall is_byte (map u8 l).
Proof. apply Forall_map, Forall_true. intros x. apply u8_range. Qed.

Lemma usb_read_bytes (u : usb_handle) (buf : list Z) (len : Z) :
  Forall is_byte buf ->
  Forall is_byte (snd (usb_read u buf len)) /\
  length (snd (usb_read u buf len)) = length buf.
Proof.
  intros H. unfold usb_read. destruct (usb_rd u) as [|[n data] rs]; cbn [snd].
  - auto.
  - split; [|apply length_poke_bytes].
    apply Forall_poke_bytes; [|exact H].
    apply Forall_take, Forall_u8.
Qed.

(** [dap_get_info] hands one packet, the opcode and the index, to the
    carrier and changes nothing else of the context.  A length it returns is
    within the bounds asked for and below 256, and exactly that many bytes
    are copied out; otherwise the result is [Io] or [Protocol] and nothing is
    copied. *)
Theorem dap_get_info_result (dc : DC) (di minlen maxlen : Z) :
  let res := dap_get_info dc di minlen maxlen in
  (exists u,
     fst (fst res) = set_usb u dc /\
     usb_out u = usb_out (usb dc) ++ [[DAP_Info; u8 di]]) /\
  match snd (fst res) with
  | Sz L => minlen <= L <= maxlen /\ 0 <= L <= 255 /\
            length (snd res) = Z.to_nat L
  | Fail e => (e = DC_ERR_IO \/ e = DC_ERR_PROTOCOL) /\ snd res = []
  end.
Proof.
  intros res. subst res. unfold dap_get_info.
  set (buf0 := poke (poke (replicate 258 0) 0 DAP_Info) 1 (u8 di)).
  assert (Hb0 : Forall is_byte buf0).
  { subst buf0. apply Forall_poke; [apply u8_range|].
    apply Forall_poke; [unfold is_byte, DAP_Info; lia|].
    apply Forall_replicate. unfold is_byte. lia. }
  assert (Hl0 : length buf0 = 258%nat) by reflexivity.
  destruct (usb_write (usb dc) buf0 2) as [u w] eqn:Hw.
  pose proof (usb_write_out (usb dc) buf0 2) as Hout.
  rewrite Hw in Hout. cbn [fst] in Hout.
  change (take (Z.to_nat 2) buf0) with [DAP_Info; u8 di] in Hout.
  destruct (negb (w =? 2)).
  { cbn [fst snd]. split; [exists u; auto|auto]. }
  cbn [usb set_usb].
  destruct (usb_read u buf0 (256 + 2)) as [[u' sz] buf] eqn:Hr.
  pose proof (usb_read_out u buf0 (256 + 2)) as Hout'.
  pose proof (usb_read_bytes u buf0 (256 + 2) Hb0) as [Hb Hl].
  rewrite Hr in Hout', Hb, Hl. cbn [fst snd] in Hout', Hb, Hl.
  assert (Hu : exists u0, set_usb u' (set_usb u dc) = set_usb u0 dc /\
            usb_out u0 = usb_out (usb dc) ++ [[DAP_Info; u8 di]]).
  { exists u'. split; [reflexivity|congruence]. }
  destruct ((sz <? 2) || negb (peek buf 0 =? DAP_Info)).
  { cbn [fst snd]. auto. }
  destruct (Z.ltb_spec (peek buf 1) minlen) as [H1|H1]; cbn [orb].
  { cbn [fst snd]. auto. }
  destruct (Z.gtb_spec (peek buf 1) maxlen) as [H2|H2].
  { cbn [fst snd]. auto. }
  cbn [fst snd]. split; [exact Hu|].
  assert (Hp : is_byte (peek buf 1)).
  { apply peek_Forall; [unfold is_byte; lia|exact Hb]. }
  unfold is_byte in Hp. split; [lia|]. split; [lia|].
  rewrite length_take, length_drop, Hl, Hl0. lia.
Qed.

(** [dap_cmd_std] hands one packet to the carrier and changes nothing else
    of the context; its status is [DC_OK], [Io], [Unsupported] or
    [Remote]. *)
Theorem dap_cmd_std_status (dc : DC) (io : list Z) (txlen rxlen : Z) :
  let res := dap_cmd_std dc io txlen rxlen in
  (exists u,
     fst res = set_usb u dc /\
     usb_out u = usb_out (usb dc) ++ [take (Z.to_nat txlen) io]) /\
  (snd res = DC_OK \/ snd res = DC_ERR_IO \/ snd res = DC_ERR_UNSUPPORTED \/
   snd res = DC_ERR_REMOTE).
Proof.
  intros res. subst res. split; [apply dap_cmd_std_effect|].
  unfold dap_cmd_std, dap_cmd.
  destruct (usb_write (usb dc) io txlen) as [u w].
  destruct (negb (w =? txlen)); [cbn; auto|].
  cbn [usb set_usb].
  destruct (usb_read u io rxlen) as [[u' n] io'].
  destruct (n <? 1); [cbn; auto|].
  destruct (negb (peek io' 0 =? peek io 0)); [cbn; auto|].
  destruct (negb (peek io' 1 =? 0)); cbn; auto.
Qed.

(** The response of [dap_cmd_std] lands in the buffer of the command.  When
    the carrier takes the packet and answers with the single byte of the
    opcode, the status byte looked at is the second byte of the command
    itself: the result is [DC_OK] when that byte is 0 and [Remote]
    otherwise. *)
Theorem dap_cmd_std_one_byte_response (dc : DC) (c a : Z) (rest : list Z)
    (txlen rxlen : Z) (ws : list Z) (rs : list (Z * list Z)) (e : Z) :
  usb_wr (usb dc) = txlen :: ws ->
  usb_rd (usb dc) = (1, [e]) :: rs ->
  u8 e = c -> 1 <= rxlen ->
  snd (dap_cmd_std dc (c :: a :: rest) txlen rxlen)
  = if a =? 0 then DC_OK else DC_ERR_REMOTE.
Proof.
  intros Hw Hr He Hlen.
  set (io := c :: a :: rest).
  assert (Hwrite : usb_write (usb dc) io txlen
            = (mk_usb ws (usb_rd (usb dc))
                 (usb_out (usb dc) ++ [take (Z.to_nat txlen) io]), txlen)).
  { unfold usb_write. rewrite Hw. reflexivity. }
  assert (Hread : forall out,
            usb_read (mk_usb ws (usb_rd (usb dc)) out) io rxlen
            = (mk_usb ws rs out, 1, io)).
  { intros out. unfold usb_read. cbn [usb_rd usb_wr usb_out]. rewrite Hr.
    replace (Z.to_nat rxlen) with (S (Z.to_nat (rxlen - 1))) by lia.
    cbn [map take poke_bytes]. rewrite He, take_nil. reflexivity. }
  unfold dap_cmd_std, dap_cmd. rewrite Hwrite, Z.eqb_refl.
  cbn [negb usb set_usb]. rewrite Hread.
  change (1 <? 1) with false. cbv beta iota.
  rewrite Z.eqb_refl. cbn [negb].
  change (peek io 1) with a.
  destruct (a =? 0); reflexivity.
Qed.

(** [dap_xfer_config] stores the clamped values in the mirrors before it
    informs the probe, whatever becomes of the command: a second call with
    the same arguments sends nothing and returns [DC_OK], also when the first
    one failed. *)
Theorem dap_xfer_config_twice (dc : DC) (idle wait match_ : Z) :
  let dc1 := fst (dap_xfer_config dc idle wait match_) in
  cfg_idle dc1 = Z.min idle 255 /\ cfg_wait dc1 = Z.min wait 65535 /\
  cfg_match dc1 = Z.min match_ 65535 /\
  dap_xfer_config dc1 idle wait match_ = (dc1, DC_OK).
Proof.
  intros dc1.
  assert (H : cfg_idle dc1 = Z.min idle 255 /\ cfg_wait dc1 = Z.min wait 65535 /\
              cfg_match dc1 = Z.min match_ 65535).
  { subst dc1.
    destruct (dap_xfer_config_effect dc idle wait match_) as [Hs Hd].
    destruct (Z.eq_dec (cfg_idle dc) (Z.min idle 255)) as [E1|E1];
    [destruct (Z.eq_dec (cfg_wait dc) (Z.min wait 65535)) as [E2|E2];
     [destruct (Z.eq_dec (cfg_match dc) (Z.min match_ 65535)) as [E3|E3]|]|].
    - rewrite Hs by auto. cbn [fst]. auto.
    - destruct Hd as (u & -> & _); [tauto|]. cbn. auto.
    - destruct Hd as (u & -> & _); [tauto|]. cbn. auto.
    - destruct Hd as (u & -> & _); [tauto|]. cbn. auto. }
  split; [apply H|]. split; [apply H|]. split; [apply H|].
  apply (dap_xfer_config_effect dc1 idle wait match_). exact H.
Qed.

(** The six bytes of a TransferConfigure command carry the clamped values
    in little-endian order: the idle count in one byte, the wait and match
    retry counts in two bytes each. *)
Theorem dap_xfer_config_encoding (dc : DC) (idle wait match_ : Z) :
  0 <= idle -> 0 <= wait -> 0 <= match_ ->
  ~ (cfg_idle dc = Z.min idle 255 /\ cfg_wait dc = Z.min wait 65535 /\
     cfg_match dc = Z.min match_ 65535) ->
  exists b1 b2 b3 b4 b5,
    usb_out (usb (fst (dap_xfer_config dc idle wait match_)))
      = usb_out (usb dc) ++ [[DAP_TransferConfigure; b1; b2; b3; b4; b5]] /\
    b1 = Z.min idle 255 /\
    b2 + 256 * b3 = Z.min wait 65535 /\
    b4 + 256 * b5 = Z.min match_ 65535 /\
    Forall is_byte [b1; b2; b3; b4; b5].
Proof.
  intros Hi Hw Hm Hne.
  destruct (dap_xfer_config_effect dc idle wait match_) as [_ Hd].
  destruct (Hd Hne) as (u & -> & Hout).
  eexists _, _, _, _, _. split; [exact Hout|].
  assert (Hsplit : forall x, 0 <= x <= 65535 ->
            u8 x + 256 * u8 (Z.shiftr x 8) = x).
  { intros x Hx. unfold u8. rewrite Z.shiftr_div_pow2 by lia.
    change (2 ^ 8) with 256.
    rewrite (Z.mod_small (x / 256)) by (split; [apply Z.div_pos; lia|
      apply Z.div_lt_upper_bound; lia]).
    pose proof (Z.div_mod x 256 ltac:(lia)). lia. }
  split; [apply u8_small; lia|].
  split; [apply Hsplit; lia|]. split; [apply Hsplit; lia|].
  repeat (constructor; [apply u8_range|]). constructor.
Qed.

End Commands.

(** ** Responses *)

Section Responses.
Context {hdr : Headers}.

(** The bytes [memcpy] writes for a word are the bytes it reads the word
    back from. *)
Lemma le_word32_bytes32 (v : Z) (pre post : list Z) :
  0 <= v < 4294967296 ->
  le_word32 (pre ++ le_bytes32 v ++ post) (Z.of_nat (length pre)) = v.
Proof.
  intros Hv. unfold le_word32.
  assert (Hp : forall k b0 b1 b2 b3, (k < 4)%nat ->
            peek (pre ++ [b0; b1; b2; b3] ++ post) (Z.of_nat (length pre) + Z.of_nat k)
            = nth k [b0; b1; b2; b3] 0).
  { intros k b0 b1 b2 b3 Hk. unfold peek.
    replace (Z.to_nat (Z.of_nat (length pre) + Z.of_nat k))
      with (length pre + k)%nat by lia.
    rewrite lookup_app_r by lia.
    replace (length pre + k - length pre)%nat with k by lia.
    destruct k as [|[|[|[|k]]]]; try lia; reflexivity. }
  unfold le_bytes32.
  pose proof (Hp 0%nat) as H0. pose proof (Hp 1%nat) as H1.
  pose proof (Hp 2%nat) as H2. pose proof (Hp 3%nat) as H3.
  cbn [Z.of_nat Pos.of_succ_nat Pos.succ] in H0, H1, H2, H3.
  rewrite Z.add_0_r in H0.
  rewrite H0, H1, H2, H3 by lia. cbn [nth].
  unfold u8. change 256 with (2 ^ 8).
  apply Z.bits_inj'. intros j Hj.
  rewrite !Z.lor_spec.
  assert (Hhigh : 32 <= j -> Z.testbit v j = false).
  { intros H. rewrite <- (Z.mod_small v (2 ^ 32)) by (change (2 ^ 32) with 4294967296; lia).
    apply Z.mod_pow2_bits_high. lia. }
  destruct (Z.ltb_spec j 8); [|destruct (Z.ltb_spec j 16);
    [|destruct (Z.ltb_spec j 24); [|destruct (Z.ltb_spec j 32)]]].
  - rewrite Z.mod_pow2_bits_low by lia.
    rewrite !Z.shiftl_spec_low by lia. rewrite !orb_false_r. reflexivity.
  - rewrite Z.mod_pow2_bits_high by lia.
    rewrite (Z.shiftl_spec _ 8) by lia.
    rewrite Z.mod_pow2_bits_low by lia. rewrite Z.shiftr_spec by lia.
    rewrite !Z.shiftl_spec_low by lia.
    replace (j - 8 + 8) with j by lia. rewrite !orb_false_r. reflexivity.
  - rewrite Z.mod_pow2_bits_high by lia.
    rewrite (Z.shiftl_spec _ 8) by lia.
    rewrite (Z.mod_pow2_bits_high _ 8 (j - 8)) by lia.
    rewrite (Z.shiftl_spec _ 16) by lia.
    rewrite Z.mod_pow2_bits_low by lia. rewrite Z.shiftr_spec by lia.
    rewrite !Z.shiftl_spec_low by lia.
    replace (j - 16 + 16) with j by lia. rewrite !orb_false_r. reflexivity.
  - rewrite Z.mod_pow2_bits_high by lia.
    rewrite (Z.shiftl_spec _ 8) by lia.
    rewrite (Z.mod_pow2_bits_high _ 8 (j - 8)) by lia.
    rewrite (Z.shiftl_spec _ 16) by lia.
    rewrite (Z.mod_pow2_bits_high _ 8 (j - 16)) by lia.
    rewrite (Z.shiftl_spec _ 24) by lia.
    rewrite Z.mod_pow2_bits_low by lia. rewrite Z.shiftr_spec by lia.
    replace (j - 24 + 24) with j by lia. reflexivity.
  - rewrite Z.mod_pow2_bits_high by lia.
    rewrite (Z.shiftl_spec _ 8) by lia.
    rewrite (Z.mod_pow2_bits_high _ 8 (j - 8)) by lia.
    rewrite (Z.shiftl_spec _ 16) by lia.
    rewrite (Z.mod_pow2_bits_high _ 8 (j - 16)) by lia.
    rewrite (Z.shiftl_spec _ 24) by lia.
    rewrite (Z.mod_pow2_bits_high _ 8 (j - 24)) by lia.
    rewrite Hhigh by lia. reflexivity.
Qed.

(** The stores of the loop of [dc_q_exec], newest first: word [k] of the
    response goes through pointer [k]. *)
Lemma scatter_mem (cnt : nat) (i : Z) (rxbuf : list Z) (dc : DC) :
  mem (scatter cnt i rxbuf dc)
  = rev (map (fun k => (peek (rxptr dc) (i + Z.of_nat k),
                        le_word32 rxbuf (3 + 4 * (i + Z.of_nat k))))
           (seq 0 cnt)) ++ mem dc.
Proof.
  revert i dc. induction cnt as [|k IH]; intros i dc.
  - reflexivity.
  - cbn [scatter]. rewrite IH. cbn [rxptr mem set_mem].
    rewrite <- cons_seq, <- fmap_S_seq.
    cbn [map rev]. rewrite <- app_assoc. cbn [app].
    rewrite Z.add_0_r. f_equal.
    change (S <$> seq 0 k) with (map S (seq 0 k)). rewrite map_map.
    f_equal. apply map_ext. intros n.
    replace (i + 1 + Z.of_nat n) with (i + Z.of_nat (S n)) by lia.
    reflexivity.
Qed.

(** [dc_q_exec] when the carrier takes the packet and answers with at least
    three bytes that begin with the opcode. *)
Lemma dc_q_exec_answer (dc : DC) (n : Z) (data ws : list Z)
    (rs : list (Z * list Z)) :
  qerror dc = DC_OK -> q_count dc <> 0 ->
  usb_wr (usb dc) = txnext dc :: ws ->
  usb_rd (usb dc) = (n, data) :: rs ->
  let rxbuf := poke_bytes (replicate 1024 0xEE) 0
                 (take (Z.to_nat (3 + rxnext dc * 4)) (map u8 data)) in
  3 <= n -> peek rxbuf 0 = DAP_Transfer ->
  let r := dc_decode_status (peek rxbuf 2) in
  let u := mk_usb ws rs (usb_out (usb dc) ++ [packet dc]) in
  dc_q_exec dc
  = (dc_q_clear (if is_ok r
                 then scatter (Z.to_nat ((n - 3) ÷ 4)) 0 rxbuf (set_usb u dc)
                 else set_usb u dc), r).
Proof.
  intros Hq Hc Hw Hr rxbuf Hn H0 r u.
  assert (Hwrite : usb_write (usb dc) (txbuf dc) (txnext dc)
                   = (mk_usb ws (usb_rd (usb dc))
                        (usb_out (usb dc) ++ [packet dc]), txnext dc)).
  { unfold usb_write, packet. rewrite Hw. reflexivity. }
  assert (Hread : usb_read (mk_usb ws (usb_rd (usb dc))
                              (usb_out (usb dc) ++ [packet dc]))
                    (replicate 1024 0xEE) (3 + rxnext dc * 4)
                  = (u, n, rxbuf)).
  { unfold usb_read. cbn [usb_rd usb_wr usb_out]. rewrite Hr. reflexivity. }
  unfold dc_q_exec, q_count in *. rewrite Hq. cbn [is_ok negb].
  apply Z.eqb_neq in Hc. rewrite Hc.
  rewrite Hwrite, Z.eqb_refl. cbn [negb usb set_usb rxnext].
  rewrite Hread.
  apply Z.ltb_ge in Hn.
  replace (n <? 0) with false by (symmetry; apply Z.ltb_ge; apply Z.ltb_ge in Hn; lia).
  rewrite Hn, H0, Z.eqb_refl. cbn [negb orb]. fold r.
  destruct (is_ok r); reflexivity.
Qed.

(** The stores of a successful flush. *)
Lemma dc_q_exec_stores_in_order_aux (dc : DC) (n : Z) (data ws : list Z)
    (rs : list (Z * list Z)) :
  qerror dc = DC_OK -> q_count dc <> 0 ->
  usb_wr (usb dc) = txnext dc :: ws ->
  usb_rd (usb dc) = (n, data) :: rs ->
  let rxbuf := poke_bytes (replicate 1024 0xEE) 0
                 (take (Z.to_nat (3 + rxnext dc * 4)) (map u8 data)) in
  3 <= n -> peek rxbuf 0 = DAP_Transfer ->
  dc_decode_status (peek rxbuf 2) = DC_OK ->
  let dc' := fst (dc_q_exec dc) in
  snd (dc_q_exec dc) = DC_OK /\
  mem dc' = rev (map (fun k => (peek (rxptr dc) (Z.of_nat k),
                                le_word32 rxbuf (3 + 4 * Z.of_nat k)))
                   (seq 0 (Z.to_nat ((n - 3) ÷ 4)))) ++ mem dc /\
  usb_out (usb dc') = usb_out (usb dc) ++ [packet dc] /\
  (txnext dc', rxnext dc', qerror dc') = (3, 0, DC_OK).
Proof.
  intros Hq Hc Hw Hr rxbuf Hn H0 Hst dc'. subst dc'.
  rewrite (dc_q_exec_answer dc n data ws rs Hq Hc Hw Hr Hn H0).
  fold rxbuf. rewrite Hst. cbn [is_ok fst snd].
  split; [reflexivity|].
  rewrite scatter_mem_only.
  split; [|split; reflexivity].
  change (mem (dc_q_clear ?x)) with (mem x). cbn [mem set_mem].
  rewrite scatter_mem. cbn [rxptr set_usb mem]. reflexivity.
Qed.

(** On a decoded status of OK, [dc_q_exec] stores word [k] of the response
    through the pointer of the read queued [k]-th, for as many whole words as
    the count the carrier returned covers (a short response fills the first
    slots only, and is still a success), and leaves the queue empty. *)
Theorem dc_q_exec_stores_in_order (dc : DC) (n : Z) (data ws : list Z)
    (rs : list (Z * list Z)) :
  qerror dc = DC_OK -> q_count dc <> 0 ->
  usb_wr (usb dc) = txnext dc :: ws ->
  usb_rd (usb dc) = (n, data) :: rs ->
  let rxbuf := poke_bytes (replicate 1024 0xEE) 0
                 (take (Z.to_nat (3 + rxnext dc * 4)) (map u8 data)) in
  3 <= n -> peek rxbuf 0 = DAP_Transfer ->
  dc_decode_status (peek rxbuf 2) = DC_OK ->
  let dc' := fst (dc_q_exec dc) in
  snd (dc_q_exec dc) = DC_OK /\
  mem dc' = rev (map (fun k => (peek (rxptr dc) (Z.of_nat k),
                                le_word32 rxbuf (3 + 4 * Z.of_nat k)))
                   (seq 0 (Z.to_nat ((n - 3) ÷ 4)))) ++ mem dc /\
  usb_out (usb dc') = usb_out (usb dc) ++ [packet dc] /\
  (txnext dc', rxnext dc', qerror dc') = (3, 0, DC_OK).
Proof.
  intros Hq Hc Hw Hr rxbuf Hn H0 Hst dc'. subst dc'.
  rewrite (dc_q_exec_answer dc n data ws rs Hq Hc Hw Hr Hn H0).
  fold rxbuf. rewrite Hst. cbn [is_ok fst snd].
  split; [reflexivity|].
  rewrite scatter_mem_only.
  split; [|split; reflexivity].
  change (mem (dc_q_clear ?x)) with (mem x). cbn [mem set_mem].
  rewrite scatter_mem. cbn [rxptr set_usb mem]. reflexivity.
Qed.

(** On any other decoded status [dc_q_exec] returns it, stores nothing and
    leaves the queue empty and the latch clear. *)
Theorem dc_q_exec_decoded_error (dc : DC) (n : Z) (data ws : list Z)
    (rs : list (Z * list Z)) :
  qerror dc = DC_OK -> q_count dc <> 0 ->
  usb_wr (usb dc) = txnext dc :: ws ->
  usb_rd (usb dc) = (n, data) :: rs ->
  let rxbuf := poke_bytes (replicate 1024 0xEE) 0
                 (take (Z.to_nat (3 + rxnext dc * 4)) (map u8 data)) in
  3 <= n -> peek rxbuf 0 = DAP_Transfer ->
  dc_decode_status (peek rxbuf 2) <> DC_OK ->
  let dc' := fst (dc_q_exec dc) in
  snd (dc_q_exec dc) = dc_decode_status (peek rxbuf 2) /\
  mem dc' = mem dc /\
  usb_out (usb dc') = usb_out (usb dc) ++ [packet dc] /\
  (txnext dc', rxnext dc', qerror dc') = (3, 0, DC_OK).
Proof.
  intros Hq Hc Hw Hr rxbuf Hn H0 Hst dc'. subst dc'.
  rewrite (dc_q_exec_answer dc n data ws rs Hq Hc Hw Hr Hn H0).
  fold rxbuf. apply is_ok_false in Hst. rewrite Hst. cbn [fst snd].
  split; [reflexivity|]. split; [reflexivity|]. split; reflexivity.
Qed.

End Responses.

(** ** Single transfers *)

Section Single.
Context {hdr : Headers}.

Lemma map_u8_le_bytes32 (v : Z) : map u8 (le_bytes32 v) = le_bytes32 v.
Proof.
  unfold le_bytes32. cbn [map].
  rewrite !(u8_small (u8 _)) by apply u8_range. reflexivity.
Qed.

(** The state of a queue just cleared after one raw read. *)
Lemma first_read_fields (dc : DC) (req val : Z) :
  arrays_ok dc ->
  let dA := raw_rd_append (dc_q_clear dc) req val in
  qerror dA = DC_OK /\ q_count dA <> 0 /\ txnext dA = 4 /\ rxnext dA = 1 /\
  usb dA = usb dc /\ mem dA = mem dc /\ peek (rxptr dA) 0 = val /\
  packet dA = [DAP_Transfer; 0; 1; u8 req].
Proof.
  intros [Htx Hrx] dA.
  split; [reflexivity|]. split.
  { destruct (txbuf_raw_rd_append (dc_q_clear dc) req val) as (Hc & _).
    - cbn [txnext dc_q_clear set_txbuf set_cfg_mask set_dp_select_cache
           set_qerror set_rxavail set_txavail set_rxnext set_txnext]. lia.
    - unfold dc_q_clear. cbn [txbuf set_txbuf]. rewrite !length_poke.
      cbn [txbuf set_cfg_mask set_dp_select_cache set_qerror set_rxavail
           set_txavail set_rxnext set_txnext]. lia.
    - subst dA. rewrite Hc, q_count_clear by lia. discriminate. }
  split; [reflexivity|]. split; [reflexivity|].
  split; [reflexivity|]. split; [reflexivity|]. split.
  - subst dA. unfold raw_rd_append, dc_q_clear.
    cbn [rxptr rxnext set_txbuf set_cfg_mask set_dp_select_cache set_qerror
         set_rxavail set_txavail set_rxnext set_txnext set_rxptr].
    apply peek_poke_eq. change (Z.to_nat 0) with 0%nat. lia.
  - apply packet_first_read. lia.
Qed.

(** A flush of a queue that holds one read, when the carrier takes the
    packet and the probe answers with a status that decodes to OK and the
    four bytes of a word. *)
Lemma exec_one_word (dA : DC) (val v c st : Z) (ws : list Z)
    (rs : list (Z * list Z)) :
  qerror dA = DC_OK -> q_count dA <> 0 -> rxnext dA = 1 ->
  peek (rxptr dA) 0 = val ->
  usb_wr (usb dA) = txnext dA :: ws ->
  usb_rd (usb dA) = (7, DAP_Transfer :: c :: st :: le_bytes32 v) :: rs ->
  dc_decode_status (u8 st) = DC_OK -> 0 <= v < 4294967296 ->
  let res := dc_q_exec dA in
  snd res = DC_OK /\ mem (fst res) = (val, v) :: mem dA /\
  usb_out (usb (fst res)) = usb_out (usb dA) ++ [packet dA] /\
  (txnext (fst res), rxnext (fst res), qerror (fst res)) = (3, 0, DC_OK).
Proof.
  intros Hq Hc Hx Hp Hw Hr Hst Hv res. subst res.
  assert (Hbuf : poke_bytes (replicate 1024 238) 0
                   (take (Z.to_nat (3 + rxnext dA * 4))
                      (map u8 (DAP_Transfer :: c :: st :: le_bytes32 v)))
                 = [DAP_Transfer; u8 c; u8 st] ++ le_bytes32 v
                   ++ replicate 1017 238).
  { rewrite Hx. cbn [map]. rewrite map_u8_le_bytes32. reflexivity. }
  destruct (dc_q_exec_stores_in_order_aux dA 7
              (DAP_Transfer :: c :: st :: le_bytes32 v) ws rs)
    as (H1 & H2 & H3 & H4).
  - exact Hq.
  - exact Hc.
  - exact Hw.
  - exact Hr.
  - lia.
  - rewrite Hbuf. reflexivity.
  - rewrite Hbuf. exact Hst.
  - split; [exact H1|]. split; [|split; [exact H3|exact H4]].
    rewrite H2, Hbuf.
    change (Z.to_nat ((7 - 3) ÷ 4)) with 1%nat. cbn [seq map rev app].
    change (Z.of_nat 0) with 0. change (3 + 4 * 0) with 3.
    rewrite Hp. do 2 f_equal.
    apply (le_word32_bytes32 v [DAP_Transfer; u8 c; u8 st]). exact Hv.
Qed.

Lemma single_read_exec (dc : DC) (req val v c st : Z) (ws : list Z)
    (rs : list (Z * list Z)) :
  arrays_ok dc ->
  usb_wr (usb dc) = 4 :: ws ->
  usb_rd (usb dc) = (7, DAP_Transfer :: c :: st :: le_bytes32 v) :: rs ->
  dc_decode_status (u8 st) = DC_OK -> 0 <= v < 4294967296 ->
  let res := dc_q_exec (raw_rd_append (dc_q_clear dc) req val) in
  snd res = DC_OK /\ mem (fst res) = (val, v) :: mem dc /\
  usb_out (usb (fst res)) = usb_out (usb dc) ++ [[DAP_Transfer; 0; 1; u8 req]] /\
  (txnext (fst res), rxnext (fst res), qerror (fst res)) = (3, 0, DC_OK).
Proof.
  intros Harr Hw Hr Hst Hv.
  destruct (first_read_fields dc req val Harr)
    as (Hq & Hc & Ht & Hx & Hu & Hm & Hp & Hpk).
  rewrite <- Hpk, <- Hu, <- Hm.
  apply (exec_one_word _ val v c st ws rs); assumption.
Qed.

(** [dc_dp_rd] of a register other than 4, whatever was queued before: one
    packet of one request is sent, and when the probe answers with a status
    that decodes to OK and a word, the word is stored through [val]. *)
Theorem dc_dp_rd_reads (dc : DC) (a val v c st : Z) (ws : list Z)
    (rs : list (Z * list Z)) :
  arrays_ok dc ->
  Z.land a 0xFFFFFF03 = 0 -> Z.land a 0xF <> 0x4 ->
  usb_wr (usb dc) = 4 :: ws ->
  usb_rd (usb dc) = (7, DAP_Transfer :: c :: st :: le_bytes32 v) :: rs ->
  dc_decode_status (u8 st) = DC_OK -> 0 <= v < 4294967296 ->
  let res := dc_dp_rd dc a val in
  snd res = DC_OK /\ mem (fst res) = (val, v) :: mem dc /\
  usb_out (usb (fst res))
  = usb_out (usb dc)
    ++ [[DAP_Transfer; 0; 1;
         u8 (Z.lor (Z.lor XFER_DP XFER_RD) (Z.land a 0x0C))]] /\
  (txnext (fst res), rxnext (fst res), qerror (fst res)) = (3, 0, DC_OK).
Proof.
  intros Harr Hv Hr Hw Hrd Hst Hrange.
  unfold dc_dp_rd, dc_q_dp_rd.
  replace (qerror (dc_q_init dc)) with DC_OK by reflexivity.
  cbn [is_ok negb].
  destruct (dc_q_dp_sel_valid (dc_q_init dc) a Hv) as [Hsel _].
  rewrite (Hsel Hr).
  rewrite dc_q_raw_rd_init by (destruct Harr; lia).
  apply (single_read_exec dc _ val v c st ws rs); assumption.
Qed.

(** What [dap_cmd] leaves of the carrier when the packet is taken whole. *)
Lemma dap_cmd_script (dc : DC) (tx : list Z) (txlen : Z) (rx : list Z)
    (rxlen : Z) (ws : list Z) (r0 : Z * list Z) (rs : list (Z * list Z)) :
  usb_wr (usb dc) = txlen :: ws -> usb_rd (usb dc) = r0 :: rs ->
  fst (fst (dap_cmd dc tx txlen rx rxlen))
  = set_usb (mk_usb ws rs (usb_out (usb dc) ++ [take (Z.to_nat txlen) tx])) dc.
Proof.
  intros Hw Hr. unfold dap_cmd, usb_write. rewrite Hw.
  rewrite Z.eqb_refl. cbn [negb usb set_usb].
  unfold usb_read. cbn [usb_rd usb_wr usb_out]. rewrite Hr.
  destruct r0 as [n data].
  destruct (n <? 1); [destruct dc; reflexivity|].
  match goal with |- context [if ?c then _ else _] => destruct c end;
    destruct dc; reflexivity.
Qed.

(** [dc_attach], when the carrier takes the sequence whole: whatever comes
    back for the sequence, an error included, the DP.IDR read follows, and
    when the probe answers it with a status that decodes to OK and a word,
    the result is [DC_OK] and the word is stored through [idcode]. *)
Theorem dc_attach_reads_idr (dc : DC) (flags tgt idcode v c st : Z)
    (ws : list Z) (r0 : Z * list Z) (rs : list (Z * list Z)) :
  arrays_ok dc ->
  usb_wr (usb dc)
  = (if Z.land flags DC_MULTIDROP =? 0 then 45 else 54) :: 4 :: ws ->
  usb_rd (usb dc)
  = r0 :: (7, DAP_Transfer :: c :: st :: le_bytes32 v) :: rs ->
  dc_decode_status (u8 st) = DC_OK -> 0 <= v < 4294967296 ->
  let res := dc_attach dc flags tgt idcode in
  snd res = DC_OK /\ mem (fst res) = (idcode, v) :: mem dc /\
  length (usb_out (usb (fst res))) = (length (usb_out (usb dc)) + 2)%nat /\
  (txnext (fst res), rxnext (fst res), qerror (fst res)) = (3, 0, DC_OK).
Proof.
  intros Harr Hw Hrd Hst Hrange res. subst res. unfold dc_attach.
  set (d1 := if negb (Z.land flags DC_MULTIDROP =? 0) then _ else _).
  assert (H1 : exists pkt,
            d1 = set_usb (mk_usb (4 :: ws)
                    ((7, DAP_Transfer :: c :: st :: le_bytes32 v) :: rs)
                    (usb_out (usb dc) ++ [pkt])) dc).
  { subst d1. destruct (Z.land flags DC_MULTIDROP =? 0); cbn [negb];
      eexists; eapply dap_cmd_script; eassumption. }
  destruct H1 as [pkt H1]. clearbody d1. subst d1. cbv zeta.
  destruct Harr as [Hl1 Hl2].
  rewrite dc_q_raw_rd_init by (cbn [txbuf set_usb]; lia).
  destruct (single_read_exec
              (set_usb (mk_usb (4 :: ws)
                 ((7, DAP_Transfer :: c :: st :: le_bytes32 v) :: rs)
                 (usb_out (usb dc) ++ [pkt])) dc)
              (Z.lor (Z.lor XFER_DP XFER_RD) XFER_00) idcode v c st ws rs)
    as (R1 & R2 & R3 & R4); try assumption; try reflexivity;
    [split; assumption|].
  split; [exact R1|]. split; [exact R2|]. split; [|exact R4].
  rewrite R3. cbn [usb set_usb usb_out]. rewrite !length_app. cbn [length]. lia.
Qed.

End Single.

(** ** Batches *)

Section Batches.
Context {hdr : Headers}.

Lemma poke_bytes_app (bs buf : list Z) (i : Z) :
  0 <= i -> (Z.to_nat i + length bs <= length buf)%nat ->
  poke_bytes buf i bs
  = take (Z.to_nat i) buf ++ bs ++ drop (Z.to_nat i + length bs) buf.
Proof.
  revert buf i. induction bs as [|b bs IH]; intros buf i Hi Hlen;
    cbn [poke_bytes length app].
  - rewrite Nat.add_0_r, take_drop. reflexivity.
  - cbn [length] in Hlen. rewrite IH by (rewrite ?length_poke; lia).
    replace (Z.to_nat (i + 1)) with (S (Z.to_nat i)) by lia.
    unfold poke.
    rewrite (take_S_r _ _ b) by (apply list_lookup_insert_eq; lia).
    rewrite take_insert_ge by lia.
    rewrite drop_insert_lt by lia.
    rewrite <- app_assoc. cbn [app].
    replace (S (Z.to_nat i) + length bs)%nat
      with (Z.to_nat i + S (length bs))%nat by lia.
    reflexivity.
Qed.

Lemma packet_split (dc : DC) :
  3 <= txnext dc -> (Z.to_nat (txnext dc) <= length (txbuf dc))%nat ->
  packet dc = [peek (txbuf dc) 0; peek (txbuf dc) 1; q_count dc] ++ q_stream dc.
Proof.
  intros Ht Hlen. unfold q_stream, q_count, packet, peek.
  set (l := take (Z.to_nat (txnext dc)) (txbuf dc)).
  assert (Hl : (3 <= length l)%nat) by (subst l; rewrite length_take; lia).
  assert (Hk : forall k, (k < 3)%nat -> txbuf dc !! k = l !! k).
  { intros k Hk. subst l. rewrite lookup_take_lt by lia. reflexivity. }
  change (Z.to_nat 0) with 0%nat. change (Z.to_nat 1) with 1%nat.
  change (Z.to_nat 2) with 2%nat.
  rewrite !Hk by lia.
  destruct l as [|b0 [|b1 [|b2 rest]]]; try (cbn [length] in Hl; lia).
  reflexivity.
Qed.

(** A DP read of a register other than 4, on a queue with room. *)
Lemma dc_q_dp_rd_room (d : DC) (a val : Z) :
  qerror d = DC_OK -> Z.land a 0xFFFFFF03 = 0 -> Z.land a 0xF <> 0x4 ->
  1 <= txavail d -> 4 <= rxavail d ->
  dc_q_dp_rd d a val
  = raw_rd_append d (Z.lor (Z.lor XFER_DP XFER_RD) (Z.land a 0x0C)) val.
Proof.
  intros Hq Hv Hr Ht Hx. unfold dc_q_dp_rd. rewrite Hq. cbn [is_ok negb].
  destruct (dc_q_dp_sel_valid d a Hv) as [Hsel _]. rewrite (Hsel Hr).
  unfold dc_q_raw_rd.
  apply Z.ltb_ge in Ht, Hx. rewrite Ht, Hx. reflexivity.
Qed.

(** What one appended read changes. *)
Lemma raw_rd_append_fields (d : DC) (req val : Z) :
  let d' := raw_rd_append d req val in
  usb d' = usb d /\ mem d' = mem d /\ qerror d' = qerror d /\
  max_packet_size d' = max_packet_size d /\
  txnext d' = txnext d + 1 /\ rxnext d' = rxnext d + 1 /\
  txavail d' = u32 (txavail d - 1) /\ rxavail d' = u32 (rxavail d - 4) /\
  rxptr d' = poke (rxptr d) (rxnext d) val.
Proof. destruct d. cbn. repeat split; reflexivity. Qed.

(** The state of a queue that holds [j] reads and nothing else. *)
Lemma reads_queued (P : Z) (a : Z) (vals : list Z) (d : DC) (j : Z) :
  Z.land a 0xFFFFFF03 = 0 -> Z.land a 0xF <> 0x4 ->
  P <= 1024 -> 4 * (j + Z.of_nat (length vals)) <= P - 3 ->
  arrays_ok d -> max_packet_size d = P -> qerror d = DC_OK ->
  0 <= j -> txnext d = 3 + j -> rxnext d = j -> q_count d = j ->
  txavail d = P - 3 - j -> rxavail d = P - 3 - 4 * j ->
  let req := Z.lor (Z.lor XFER_DP XFER_RD) (Z.land a 0x0C) in
  let dq := fold_left (fun d v => dc_q_dp_rd d a v) vals d in
  let k := j + Z.of_nat (length vals) in
  usb dq = usb d /\ mem dq = mem d /\ qerror dq = DC_OK /\
  arrays_ok dq /\
  txnext dq = 3 + k /\ rxnext dq = k /\ q_count dq = k /\
  peek (txbuf dq) 0 = peek (txbuf d) 0 /\
  peek (txbuf dq) 1 = peek (txbuf d) 1 /\
  q_stream dq = q_stream d ++ replicate (length vals) (u8 req) /\
  rxptr dq = poke_bytes (rxptr d) j vals.
Proof.
  intros Hv Hr HP. revert d j.
  induction vals as [|v vals IH]; intros d j Hk Harr Hmps Hq Hj Ht Hx Hc Hta Hxa;
    cbn [fold_left length replicate poke_bytes].
  - cbn [length] in Hk. rewrite Z.add_0_r, app_nil_r. auto 12.
  - cbn [length] in Hk. cbv zeta.
    rewrite dc_q_dp_rd_room by (assumption || lia).
    set (req := Z.lor (Z.lor XFER_DP XFER_RD) (Z.land a 0x0C)).
    destruct (raw_rd_append_fields d req v)
      as (Fu & Fm & Fq & Fp & Ft & Fx & Fta & Fxa & Frp).
    destruct Harr as [Hl1 Hl2].
    destruct (txbuf_raw_rd_append d req v) as (Fc & F0 & F1 & Flen); [lia..|].
    pose proof (q_stream_raw_rd_append d req v) as Fs.
    specialize (IH (raw_rd_append d req v) (j + 1)).
    destruct IH as (Iu & Im & Iq & Iarr & It & Ix & Ic & I0 & I1 & Is & Irp).
    + lia.
    + split; [lia|]. rewrite Frp, length_poke. exact Hl2.
    + congruence.
    + congruence.
    + lia.
    + lia.
    + lia.
    + rewrite Fc, Hc. apply u8_small. lia.
    + rewrite Fta, Hta. rewrite u32_small by lia. lia.
    + rewrite Fxa, Hxa. rewrite u32_small by lia. lia.
    + replace (j + Z.of_nat (S (length vals)))
        with (j + 1 + Z.of_nat (length vals)) by lia.
      split; [congruence|]. split; [congruence|]. split; [exact Iq|].
      split; [exact Iarr|]. split; [exact It|]. split; [exact Ix|].
      split; [exact Ic|]. split; [congruence|]. split; [congruence|].
      split.
      * rewrite Is, Fs by lia. rewrite <- app_assoc. reflexivity.
      * rewrite Irp, Frp, Hx. reflexivity.
Qed.

Lemma lookup_concat_le_bytes32 (words : list Z) (i : nat) (v : Z) (pre : list Z) :
  words !! i = Some v ->
  exists post,
    pre ++ concat (map le_bytes32 words)
    = (pre ++ concat (map le_bytes32 (take i words))) ++ le_bytes32 v ++ post /\
    length (pre ++ concat (map le_bytes32 (take i words)))
    = (length pre + 4 * i)%nat.
Proof.
  revert i pre. induction words as [|w words IH]; intros i pre Hi.
  - discriminate.
  - destruct i as [|i].
    + injection Hi as ->. exists (concat (map le_bytes32 words)).
      cbn [take map concat]. rewrite app_nil_r. split; [reflexivity|lia].
    + cbn [lookup list_lookup] in Hi.
      destruct (IH i (pre ++ le_bytes32 w) Hi) as (post & E & L).
      exists post. cbn [take map concat].
      rewrite <- !app_assoc in E. rewrite <- !app_assoc in L.
      rewrite <- !app_assoc. split.
      * rewrite !app_assoc. rewrite !app_assoc in E. exact E.
      * rewrite !length_app in *. cbn [le_bytes32 length] in *. lia.
Qed.

Lemma map_u8_concat_le_bytes32 (words : list Z) :
  map u8 (concat (map le_bytes32 words)) = concat (map le_bytes32 words).
Proof.
  induction words as [|w words IH]; [reflexivity|].
  cbn [map concat]. rewrite map_app, IH, map_u8_le_bytes32. reflexivity.
Qed.

Lemma length_concat_le_bytes32 (words : list Z) :
  length (concat (map le_bytes32 words)) = (4 * length words)%nat.
Proof.
  induction words as [|w words IH]; [reflexivity|].
  cbn [map concat]. rewrite length_app, IH. cbn [le_bytes32 length]. lia.
Qed.

(** The state [dc_q_clear] leaves. *)
Lemma dc_q_clear_fields (dc : DC) :
  arrays_ok dc -> 3 <= max_packet_size dc < 4294967296 ->
  let d := dc_q_clear dc in
  arrays_ok d /\ max_packet_size d = max_packet_size dc /\
  qerror d = DC_OK /\ txnext d = 3 /\ rxnext d = 0 /\ q_count d = 0 /\
  txavail d = max_packet_size dc - 3 /\ rxavail d = max_packet_size dc - 3 /\
  peek (txbuf d) 0 = DAP_Transfer /\ peek (txbuf d) 1 = 0 /\
  q_stream d = [] /\ usb d = usb dc /\ mem d = mem dc /\
  rxptr d = rxptr dc /\ dp_select_cache d = INVALID /\ cfg_mask d = INVALID.
Proof.
  intros [Hl1 Hl2] HP.
  destruct dc as [du ds dmc dmp dci dcw dcm dck dsel dcache dtx drx dtn drn dta
                  dra dqe dm].
  cbn [txbuf rxptr max_packet_size] in Hl1, Hl2, HP.
  unfold arrays_ok, q_count, q_stream, packet, dc_q_clear.
  cbn [usb status max_packet_count max_packet_size cfg_idle cfg_wait
       cfg_match cfg_mask dp_select dp_select_cache txbuf rxptr txnext rxnext
       txavail rxavail qerror mem set_cfg_mask set_dp_select_cache set_txbuf
       set_txnext set_rxnext set_txavail set_rxavail set_qerror].
  rewrite !length_poke, u32_small by lia.
  rewrite peek_poke_eq by (rewrite !length_poke; lia).
  rewrite (peek_poke_ne _ 2 1) by lia.
  rewrite peek_poke_eq by (rewrite !length_poke; lia).
  rewrite !(peek_poke_ne _ _ 0) by lia.
  rewrite peek_poke_eq by lia.
  change (Z.to_nat 3) with 3%nat.
  rewrite drop_ge by (rewrite length_take; lia).
  auto 20.
Qed.

Lemma stores_zip (rxp rxbuf vals words : list Z) (s : nat) :
  length vals = length words ->
  (forall i v w, vals !! i = Some v -> words !! i = Some w ->
     peek rxp (Z.of_nat (s + i)) = v /\
     le_word32 rxbuf (3 + 4 * Z.of_nat (s + i)) = w) ->
  map (fun k => (peek rxp (Z.of_nat k), le_word32 rxbuf (3 + 4 * Z.of_nat k)))
    (seq s (length vals))
  = combine vals words.
Proof.
  revert words s. induction vals as [|v vals IH]; intros words s Hlen H.
  - reflexivity.
  - destruct words as [|w words]; [discriminate|].
    cbn [length seq map combine].
    destruct (H 0%nat v w eq_refl eq_refl) as [E1 E2].
    rewrite Nat.add_0_r in E1, E2. rewrite E1, E2. f_equal.
    apply IH; [cbn [length] in Hlen; lia|].
    intros i v' w' Hv Hw.
    replace (S s + i)%nat with (s + S i)%nat by lia.
    apply H; assumption.
Qed.

(** Reads of DP registers queued on a fresh queue, as many as one response
    can carry, then flushed: nothing is sent while they are queued; the
    flush sends one packet holding the requests in order; and when the
    probe answers with a status that decodes to OK and one word for each,
    word [i] is stored through the pointer given with read [i]. *)
Theorem dc_q_dp_rd_batch (dc : DC) (a c st : Z) (vals words ws : list Z)
    (rs : list (Z * list Z)) :
  let k := Z.of_nat (length vals) in
  let req := Z.lor (Z.lor XFER_DP XFER_RD) (Z.land a 0x0C) in
  arrays_ok dc -> max_packet_size dc <= 1024 ->
  1 <= k -> 4 * k <= max_packet_size dc - 3 ->
  Z.land a 0xFFFFFF03 = 0 -> Z.land a 0xF <> 0x4 ->
  usb_wr (usb dc) = 3 + k :: ws ->
  usb_rd (usb dc)
  = (3 + 4 * k, DAP_Transfer :: c :: st :: concat (map le_bytes32 words)) :: rs ->
  length words = length vals ->
  Forall (fun w => 0 <= w < 4294967296) words ->
  dc_decode_status (u8 st) = DC_OK ->
  let dq := fold_left (fun d v => dc_q_dp_rd d a v) vals (dc_q_init dc) in
  let res := dc_q_exec dq in
  usb dq = usb dc /\
  snd res = DC_OK /\
  mem (fst res) = rev (combine vals words) ++ mem dc /\
  usb_out (usb (fst res))
  = usb_out (usb dc)
    ++ [[DAP_Transfer; 0; k] ++ replicate (length vals) (u8 req)].
Proof.
  intros k req Harr HP Hk Hfit Hv Hr Hw Hrd Hlen Hwords Hst dq res.
  destruct (dc_q_clear_fields dc Harr)
    as (Carr & Cp & Cq & Ct & Cx & Cc & Cta & Cxa & C0 & C1 & Cs & Cu & Cm
        & Crp & _); [lia|].
  destruct (reads_queued (max_packet_size dc) a vals (dc_q_clear dc) 0 Hv Hr HP)
    as (Qu & Qm & Qq & Qarr & Qt & Qx & Qc & Q0 & Q1 & Qs & Qrp);
    try assumption; try lia.
  cbv zeta in Qu, Qm, Qq, Qarr, Qt, Qx, Qc, Q0, Q1, Qs, Qrp.
  change (fold_left (fun d v => dc_q_dp_rd d a v) vals (dc_q_clear dc))
    with dq in Qu, Qm, Qq, Qarr, Qt, Qx, Qc, Q0, Q1, Qs, Qrp.
  clearbody dq. subst res.
  rewrite Z.add_0_l in Qt, Qx, Qc. fold k in Qt, Qx, Qc.
  destruct Qarr as [Ql1 Ql2]. destruct Harr as [Hl1 Hl2].
  assert (Hpk : packet dq
                = [DAP_Transfer; 0; k] ++ replicate (length vals) (u8 req)).
  { rewrite packet_split by lia.
    rewrite Q0, Q1, Qc, Qs, C0, C1, Cs. reflexivity. }
  set (body := concat (map le_bytes32 words)).
  assert (Hbody : length body = (4 * length vals)%nat).
  { subst body. rewrite length_concat_le_bytes32. lia. }
  assert (Hbuf : poke_bytes (replicate 1024 238) 0
                   (take (Z.to_nat (3 + rxnext dq * 4))
                      (map u8 (DAP_Transfer :: c :: st :: body)))
                 = [DAP_Transfer; u8 c; u8 st] ++ body
                   ++ drop (3 + length body) (replicate 1024 238)).
  { cbn [map]. rewrite (map_u8_concat_le_bytes32 words : map u8 body = body).
    change (u8 DAP_Transfer) with DAP_Transfer.
    rewrite take_ge by (cbn [length]; lia).
    rewrite poke_bytes_app by (rewrite ?length_replicate; cbn [length]; lia).
    reflexivity. }
  destruct (dc_q_exec_stores_in_order_aux dq (3 + 4 * k)
              (DAP_Transfer :: c :: st :: body) ws rs)
    as (H1 & H2 & H3 & _).
  - exact Qq.
  - lia.
  - rewrite Qu, Cu, Qt. exact Hw.
  - rewrite Qu, Cu. exact Hrd.
  - lia.
  - rewrite Hbuf. reflexivity.
  - rewrite Hbuf. exact Hst.
  - split; [congruence|]. split; [exact H1|]. split.
    + rewrite H2, Hbuf, Qm, Cm. do 2 f_equal.
      replace (3 + 4 * k - 3) with (k * 4) by lia.
      rewrite Z.quot_mul by lia. subst k. rewrite Nat2Z.id.
      apply stores_zip; [lia|].
      intros i v w Hi Hwi. cbn [Nat.add]. split.
      * rewrite Qrp, Crp.
        rewrite poke_bytes_app by (change (Z.to_nat 0) with 0%nat; lia).
        change (Z.to_nat 0) with 0%nat. rewrite take_0. cbn [app].
        unfold peek. rewrite Nat2Z.id.
        rewrite (lookup_app_l_Some _ _ _ _ Hi). reflexivity.
      * destruct (lookup_concat_le_bytes32 words i w
                    [DAP_Transfer; u8 c; u8 st] Hwi) as (post & E & L).
        fold body in E.
        rewrite app_assoc, E, <- !app_assoc.
        rewrite (app_assoc _ (concat _)).
        replace (3 + 4 * Z.of_nat i)
          with (Z.of_nat (length ([DAP_Transfer; u8 c; u8 st]
                  ++ concat (map le_bytes32 (take i words)))))
          by (rewrite L; cbn [length]; lia).
        apply le_word32_bytes32.
        exact (Forall_lookup_1 _ _ _ _ Hwords Hwi).
    + rewrite H3, Qu, Cu, Hpk. reflexivity.
Qed.

End Batches.

(** ** AP accesses and DP.SELECT *)

Section ApSelect.
Context {hdr : Headers}.

Lemma raw_wr_append_fields (d : DC) (req val : Z) :
  let d' := raw_wr_append d req val in
  usb d' = usb d /\ mem d' = mem d /\ qerror d' = qerror d /\
  max_packet_size d' = max_packet_size d /\
  txnext d' = txnext d + 5 /\ rxnext d' = rxnext d /\
  txavail d' = u32 (txavail d - 5) /\ rxavail d' = rxavail d /\
  rxptr d' = rxptr d /\ dp_select_cache d' = dp_select_cache d.
Proof.
  destruct d as [du ds dmc dmp dci dcw dcm dck dsel dcache dtx drx dtn drn dta
                 dra dqe dm].
  cbn. repeat split; reflexivity.
Qed.

(** The AP and APBANK fields of an AP address are its bits above the
    register number. *)
Lemma ap_field_of_bank (a : Z) :
  Z.land a 0xFF00 = Z.shiftl (Z.land (Z.shiftr a 4) 0xFF0) 4.
Proof.
  change 0xFF00 with (Z.shiftl (Z.ones 8) 8).
  change 0xFF0 with (Z.shiftl (Z.ones 8) 4).
  apply Z.bits_inj'. intros i Hi. rewrite Z.land_spec.
  destruct (Z.ltb_spec i 8) as [Hlt|Hge].
  - rewrite (Z.shiftl_spec_low (Z.ones 8)) by lia. rewrite andb_false_r.
    destruct (Z.ltb_spec i 4).
    + rewrite Z.shiftl_spec_low by lia. reflexivity.
    + rewrite Z.shiftl_spec by lia. rewrite Z.land_spec.
      rewrite (Z.shiftl_spec_low (Z.ones 8)) by lia.
      rewrite andb_false_r. reflexivity.
  - rewrite !Z.shiftl_spec by lia. rewrite Z.land_spec.
    rewrite Z.shiftr_spec by lia. rewrite Z.shiftl_spec by lia.
    replace (i - 4 + 4) with i by lia.
    replace (i - 4 - 4) with (i - 8) by lia. reflexivity.
Qed.

(** What one appended write, and one appended read, make of the queue. *)
Lemma wr_step (d : DC) (req v : Z) :
  3 <= txnext d -> (Z.to_nat (txnext d) + 5 <= length (txbuf d))%nat ->
  let d' := raw_wr_append d req v in
  usb d' = usb d /\ mem d' = mem d /\ qerror d' = qerror d /\
  txnext d' = txnext d + 5 /\ rxnext d' = rxnext d /\
  rxptr d' = rxptr d /\ dp_select_cache d' = dp_select_cache d /\
  q_count d' = u8 (q_count d + 1) /\
  peek (txbuf d') 0 = peek (txbuf d) 0 /\
  peek (txbuf d') 1 = peek (txbuf d) 1 /\
  length (txbuf d') = length (txbuf d) /\
  q_stream d' = q_stream d ++ u8 req :: le_bytes32 v.
Proof.
  intros Ht Hlen d'.
  destruct (raw_wr_append_fields d req v)
    as (F1 & F2 & F3 & _ & F5 & F6 & _ & _ & F9 & F10).
  destruct (txbuf_raw_wr_append d req v) as (G1 & G2 & G3 & G4); [lia..|].
  pose proof (q_stream_raw_wr_append d req v Ht Hlen) as G5.
  auto 15.
Qed.

Lemma rd_step (d : DC) (req val : Z) :
  3 <= txnext d -> (Z.to_nat (txnext d) + 1 <= length (txbuf d))%nat ->
  let d' := raw_rd_append d req val in
  usb d' = usb d /\ mem d' = mem d /\ qerror d' = qerror d /\
  txnext d' = txnext d + 1 /\ rxnext d' = rxnext d + 1 /\
  rxptr d' = poke (rxptr d) (rxnext d) val /\
  dp_select_cache d' = dp_select_cache d /\
  q_count d' = u8 (q_count d + 1) /\
  peek (txbuf d') 0 = peek (txbuf d) 0 /\
  peek (txbuf d') 1 = peek (txbuf d) 1 /\
  length (txbuf d') = length (txbuf d) /\
  q_stream d' = q_stream d ++ [u8 req].
Proof.
  intros Ht Hlen d'.
  destruct (raw_rd_append_fields d req val)
    as (F1 & F2 & F3 & _ & F5 & F6 & _ & _ & F9).
  destruct (txbuf_raw_rd_append d req val) as (G1 & G2 & G3 & G4); [lia..|].
  pose proof (q_stream_raw_rd_append d req val Ht Hlen) as G5.
  assert (F10 : dp_select_cache (raw_rd_append d req val) = dp_select_cache d)
    by (destruct d; reflexivity).
  auto 15.
Qed.

(** Setting the cache of DP.SELECT leaves the queue as it is. *)
Lemma set_dp_select_cache_fields (s : Z) (d : DC) :
  let d' := set_dp_select_cache s d in
  usb d' = usb d /\ mem d' = mem d /\ qerror d' = qerror d /\
  txnext d' = txnext d /\ rxnext d' = rxnext d /\ rxptr d' = rxptr d /\
  txbuf d' = txbuf d /\ q_count d' = q_count d /\ q_stream d' = q_stream d /\
  txavail d' = txavail d /\ rxavail d' = rxavail d /\ dp_select_cache d' = s.
Proof. destruct d. cbn. repeat split; reflexivity. Qed.

(** The state of a queue just cleared after a write of DP.SELECT and a
    read. *)
Lemma select_read_fields (dc : DC) (select selreq req val : Z) :
  arrays_ok dc -> 3 <= max_packet_size dc < 4294967296 ->
  let dA := raw_rd_append
              (raw_wr_append (set_dp_select_cache select (dc_q_clear dc))
                 selreq select) req val in
  qerror dA = DC_OK /\ q_count dA <> 0 /\ txnext dA = 9 /\ rxnext dA = 1 /\
  usb dA = usb dc /\ mem dA = mem dc /\ peek (rxptr dA) 0 = val /\
  packet dA = [DAP_Transfer; 0; 2; u8 selreq] ++ le_bytes32 select ++ [u8 req].
Proof.
  intros Harr HP.
  destruct (dc_q_clear_fields dc Harr HP)
    as ((Cl1 & Cl2) & _ & Cq & Ct & Cx & Cc & _ & _ & C0 & C1 & Cs & Cu & Cm
        & Crp & _).
  generalize dependent (dc_q_clear dc). intros dcl Cl1 Cl2 Cq Ct Cx Cc C0 C1 Cs
    Cu Cm Crp.
  destruct (set_dp_select_cache_fields select dcl)
    as (Su & Sm & Sq & St & Sx & Srp & Stx & Sc & Ss & _).
  generalize dependent (set_dp_select_cache select dcl).
  intros d0 Su Sm Sq St Sx Srp Stx Sc Ss.
  destruct (wr_step d0 selreq select)
    as (Wu & Wm & Wq & Wt & Wx & Wrp & _ & Wc & W0 & W1 & Wl & Ws);
    [lia|rewrite Stx; lia|].
  generalize dependent (raw_wr_append d0 selreq select).
  intros d1 Wu Wm Wq Wt Wx Wrp Wc W0 W1 Wl Ws.
  destruct (rd_step d1 req val)
    as (Ru & Rm & Rq & Rt & Rx & Rrp & _ & Rc & R0 & R1 & Rl & Rs);
    [lia|rewrite Wl, Stx; lia|].
  generalize dependent (raw_rd_append d1 req val).
  intros d2 Ru Rm Rq Rt Rx Rrp Rc R0 R1 Rl Rs. cbv zeta.
  assert (Hc : q_count d2 = 2).
  { rewrite Rc, Wc, Sc, Cc. reflexivity. }
  split; [congruence|]. split; [rewrite Hc; discriminate|].
  split; [lia|]. split; [lia|]. split; [congruence|]. split; [congruence|].
  split.
  - rewrite Rrp, Wx, Sx, Cx. apply peek_poke_eq.
    rewrite Wrp, Srp. change (Z.to_nat 0) with 0%nat. lia.
  - rewrite packet_split by (rewrite ?Rl, ?Wl, ?Stx; lia).
    rewrite R0, W0, Stx, C0, R1, W1, Stx, C1, Hc, Rs, Ws, Ss, Cs.
    reflexivity.
Qed.

(** [dc_ap_rd], whatever was queued before: the cache of DP.SELECT being
    invalid after [dc_q_init], the write of DP.SELECT and the read go out in
    one packet, the write first; when the probe answers with a status that
    decodes to OK and a word, the word is stored through [val]. *)
Theorem dc_ap_rd_selects_then_reads (dc : DC) (a val v c st : Z)
    (ws : list Z) (rs : list (Z * list Z)) :
  let select := Z.lor (DP_SELECT_AP (Z.shiftl (Z.land a 0xFF00) 16))
                      (DP_SELECT_APBANK (Z.shiftr a 4)) in
  arrays_ok dc -> 64 <= max_packet_size dc <= 1024 ->
  Z.land a 0xFFFF0003 = 0 -> select <> INVALID ->
  usb_wr (usb dc) = 9 :: ws ->
  usb_rd (usb dc) = (7, DAP_Transfer :: c :: st :: le_bytes32 v) :: rs ->
  dc_decode_status (u8 st) = DC_OK -> 0 <= v < 4294967296 ->
  let res := dc_ap_rd dc a val in
  snd res = DC_OK /\ mem (fst res) = (val, v) :: mem dc /\
  usb_out (usb (fst res))
  = usb_out (usb dc)
    ++ [[DAP_Transfer; 0; 2; u8 (Z.lor (Z.lor XFER_DP XFER_WR) DP_SELECT)]
        ++ le_bytes32 select
        ++ [u8 (Z.lor (Z.lor XFER_AP XFER_RD) (Z.land a 0x0C))]] /\
  (txnext (fst res), rxnext (fst res), qerror (fst res)) = (3, 0, DC_OK).
Proof.
  intros select Harr HP Hv Hsel Hw Hrd Hst Hrange res. subst res.
  unfold dc_ap_rd, dc_q_ap_rd.
  replace (qerror (dc_q_init dc)) with DC_OK by reflexivity.
  cbn [is_ok negb]. unfold dc_q_ap_sel. rewrite Hv. cbn [Z.eqb negb].
  fold select.
  replace (dp_select_cache (dc_q_init dc)) with INVALID by reflexivity.
  apply Z.eqb_neq in Hsel. rewrite Hsel. cbn [negb]. cbv zeta.
  unfold dc_q_init.
  set (d0 := set_dp_select_cache select (dc_q_clear dc)).
  assert (Ht0 : txavail d0 = max_packet_size dc - 3).
  { subst d0. unfold dc_q_clear.
    cbn [usb status max_packet_count max_packet_size cfg_idle cfg_wait
         cfg_match cfg_mask dp_select dp_select_cache txbuf rxptr txnext rxnext
         txavail rxavail qerror mem set_cfg_mask set_dp_select_cache set_txbuf
         set_txnext set_rxnext set_txavail set_rxavail set_qerror set_rxptr].
    apply u32_small. lia. }
  assert (Hx0 : rxavail d0 = max_packet_size dc - 3).
  { subst d0. unfold dc_q_clear.
    cbn [usb status max_packet_count max_packet_size cfg_idle cfg_wait
         cfg_match cfg_mask dp_select dp_select_cache txbuf rxptr txnext rxnext
         txavail rxavail qerror mem set_cfg_mask set_dp_select_cache set_txbuf
         set_txnext set_rxnext set_txavail set_rxavail set_qerror set_rxptr].
    apply u32_small. lia. }
  rewrite dc_q_raw_wr_room by lia.
  set (selreq := Z.lor (Z.lor XFER_DP XFER_WR) DP_SELECT).
  destruct (raw_wr_append_fields d0 selreq select)
    as (_ & _ & _ & _ & _ & _ & Ft & Fx & _).
  unfold dc_q_raw_rd.
  replace (txavail (raw_wr_append d0 selreq select) <? 1) with false
    by (symmetry; apply Z.ltb_ge; rewrite Ft, Ht0, u32_small; lia).
  replace (rxavail (raw_wr_append d0 selreq select) <? 4) with false
    by (symmetry; apply Z.ltb_ge; rewrite Fx, Hx0; lia).
  cbn [orb]. subst d0.
  destruct (select_read_fields dc select selreq
              (Z.lor (Z.lor XFER_AP XFER_RD) (Z.land a 0x0C)) val Harr)
    as (Hq & Hc & Ht & Hx & Hu & Hm & Hp & Hpk); [lia|].
  rewrite <- Hpk, <- Hu, <- Hm.
  set (dA := raw_rd_append _ _ _) in *. clearbody dA.
  apply (exec_one_word dA val v c st ws rs); try assumption.
  - rewrite Hu, Ht. exact Hw.
  - rewrite Hu. exact Hrd.
Qed.

End ApSelect.

(** ** Consecutive AP accesses *)

Section ApBank.
Context {hdr : Headers}.

(** An AP read on a queue with room, where nothing has to be flushed. *)
Lemma dc_q_ap_rd_room (d : DC) (a v : Z) :
  let select := Z.lor (DP_SELECT_AP (Z.shiftl (Z.land a 0xFF00) 16))
                      (DP_SELECT_APBANK (Z.shiftr a 4)) in
  qerror d = DC_OK -> Z.land a 0xFFFF0003 = 0 ->
  3 <= txnext d -> (Z.to_nat (txnext d) + 6 <= length (txbuf d))%nat ->
  6 <= txavail d < 4294967296 -> 4 <= rxavail d < 4294967296 ->
  let d' := dc_q_ap_rd d a v in
  usb d' = usb d /\ mem d' = mem d /\ qerror d' = DC_OK /\
  dp_select_cache d' = select /\
  q_stream d'
  = q_stream d
    ++ (if select =? dp_select_cache d then []
        else u8 (Z.lor (Z.lor XFER_DP XFER_WR) DP_SELECT) :: le_bytes32 select)
    ++ [u8 (Z.lor (Z.lor XFER_AP XFER_RD) (Z.land a 0x0C))] /\
  txnext d + 1 <= txnext d' <= txnext d + 6 /\
  length (txbuf d') = length (txbuf d) /\
  txavail d - 6 <= txavail d' < 4294967296 /\
  rxavail d' = rxavail d - 4 /\ rxnext d' = rxnext d + 1.
Proof.
  intros select Hq Hv Ht Hlen Hta Hxa d'. subst d'.
  unfold dc_q_ap_rd. rewrite Hq. cbn [is_ok negb].
  unfold dc_q_ap_sel. rewrite Hv. cbn [Z.eqb negb]. fold select.
  destruct (Z.eqb_spec select (dp_select_cache d)) as [He|Hne]; cbn [negb].
  - unfold dc_q_raw_rd.
    replace (txavail d <? 1) with false by (symmetry; apply Z.ltb_ge; lia).
    replace (rxavail d <? 4) with false by (symmetry; apply Z.ltb_ge; lia).
    cbn [orb].
    set (req := Z.lor (Z.lor XFER_AP XFER_RD) (Z.land a 0x0C)).
    destruct (rd_step d req v)
      as (Ru & Rm & Rq & Rt & Rx & _ & Rca & _ & _ & _ & Rl & Rs); [lia..|].
    destruct (raw_rd_append_fields d req v)
      as (_ & _ & _ & _ & _ & _ & Fta & Fxa & _).
    rewrite Fta, Fxa, !u32_small by lia. cbn [app].
    split; [exact Ru|]. split; [exact Rm|]. split; [congruence|].
    split; [congruence|]. split; [exact Rs|]. split; [lia|].
    split; [exact Rl|]. split; [lia|]. split; [reflexivity|exact Rx].
  - cbv zeta.
    destruct (set_dp_select_cache_fields select d)
      as (Su & Sm & Sq & St & Sx & _ & Stx & _ & Ss & Sta & Sxa & Sca).
    generalize dependent (set_dp_select_cache select d).
    intros d0 Su Sm Sq St Sx Stx Ss Sta Sxa Sca.
    rewrite dc_q_raw_wr_room by lia.
    set (selreq := Z.lor (Z.lor XFER_DP XFER_WR) DP_SELECT).
    destruct (wr_step d0 selreq select)
      as (Wu & Wm & Wq & Wt & Wx & _ & Wca & _ & _ & _ & Wl & Ws);
      [lia|rewrite Stx; lia|].
    destruct (raw_wr_append_fields d0 selreq select)
      as (_ & _ & _ & _ & _ & _ & Wta & Wxa & _).
    generalize dependent (raw_wr_append d0 selreq select).
    intros d1 Wu Wm Wq Wt Wx Wca Wl Ws Wta Wxa.
    rewrite u32_small in Wta by lia.
    unfold dc_q_raw_rd.
    replace (txavail d1 <? 1) with false by (symmetry; apply Z.ltb_ge; lia).
    replace (rxavail d1 <? 4) with false by (symmetry; apply Z.ltb_ge; lia).
    cbn [orb].
    set (req := Z.lor (Z.lor XFER_AP XFER_RD) (Z.land a 0x0C)).
    destruct (rd_step d1 req v)
      as (Ru & Rm & Rq & Rt & Rx & _ & Rca & _ & _ & _ & Rl & Rs);
      [lia|rewrite Wl, Stx; lia|].
    destruct (raw_rd_append_fields d1 req v)
      as (_ & _ & _ & _ & _ & _ & Fta & Fxa & _).
    rewrite Fta, Fxa, !u32_small by lia.
    split; [congruence|]. split; [congruence|]. split; [congruence|].
    split; [congruence|]. split.
    { rewrite Rs, Ws, Ss, <- app_assoc. reflexivity. }
    split; [lia|]. split; [congruence|]. split; [lia|].
    split; [lia|lia].
Qed.

(** Two AP reads in the same bank of the same AP, on a queue with room:
    DP.SELECT is written at most once, before the first read and only when
    the cache differs; the second read is queued alone. *)
Theorem dc_q_ap_rd_select_once (dc : DC) (a1 a2 v1 v2 : Z) :
  let select := Z.lor (DP_SELECT_AP (Z.shiftl (Z.land a1 0xFF00) 16))
                      (DP_SELECT_APBANK (Z.shiftr a1 4)) in
  qerror dc = DC_OK ->
  Z.land a1 0xFFFF0003 = 0 -> Z.land a2 0xFFFF0003 = 0 ->
  Z.shiftr a1 4 = Z.shiftr a2 4 ->
  3 <= txnext dc -> (Z.to_nat (txnext dc) + 12 <= length (txbuf dc))%nat ->
  12 <= txavail dc < 4294967296 -> 8 <= rxavail dc < 4294967296 ->
  let d2 := dc_q_ap_rd (dc_q_ap_rd dc a1 v1) a2 v2 in
  q_stream d2
  = q_stream dc
    ++ (if select =? dp_select_cache dc then []
        else u8 (Z.lor (Z.lor XFER_DP XFER_WR) DP_SELECT) :: le_bytes32 select)
    ++ [u8 (Z.lor (Z.lor XFER_AP XFER_RD) (Z.land a1 0x0C));
        u8 (Z.lor (Z.lor XFER_AP XFER_RD) (Z.land a2 0x0C))] /\
  usb d2 = usb dc /\ qerror d2 = DC_OK /\ dp_select_cache d2 = select /\
  rxnext d2 = rxnext dc + 2.
Proof.
  intros select Hq Hv1 Hv2 Hbank Ht Hlen Hta Hxa d2. subst d2.
  destruct (dc_q_ap_rd_room dc a1 v1 Hq Hv1)
    as (Au & Am & Aq & Aca & As & At & Al & Ata & Axa & Ax); [lia..|].
  fold select in Aca, As.
  generalize dependent (dc_q_ap_rd dc a1 v1).
  intros d1 Au Am Aq Aca As At Al Ata Axa Ax.
  destruct (dc_q_ap_rd_room d1 a2 v2 Aq Hv2)
    as (Bu & Bm & Bq & Bca & Bs & _ & _ & _ & _ & Bx); [lia..|].
  assert (Hsel : Z.lor (DP_SELECT_AP (Z.shiftl (Z.land a2 0xFF00) 16))
                       (DP_SELECT_APBANK (Z.shiftr a2 4)) = select).
  { subst select. rewrite (ap_field_of_bank a1), (ap_field_of_bank a2), Hbank.
    reflexivity. }
  rewrite Hsel in Bca, Bs. rewrite Aca, Z.eqb_refl in Bs. cbn [app] in Bs.
  split.
  - rewrite Bs, As, <- !app_assoc. reflexivity.
  - split; [congruence|]. split; [exact Bq|]. split; [exact Bca|]. lia.
Qed.

End ApBank.

(** ** The error latch *)

Section Sticky.
Context {hdr : Headers}.

(** With an error latched every queueing operation returns at once: any
    sequence of them leaves the context as it was, sends nothing, and the
    flush that follows reports the error latched first and clears the
    queue. *)
Theorem latched_error_is_sticky (dc : DC) (ops : list q_op) :
  qerror dc <> DC_OK -> Forall (fun o => is_enqueue o = true) ops ->
  run ops dc = dc /\ dc_q_exec (run ops dc) = (dc_q_clear dc, qerror dc).
Proof.
  intros Hq Hops.
  assert (Hrun : run ops dc = dc).
  { induction Hops as [|o ops Ho _ IH]; [reflexivity|].
    unfold run in *. cbn [fold_left].
    replace (step dc o) with dc; [exact IH|].
    apply is_ok_false in Hq.
    destruct o; try discriminate Ho; cbn [step];
      unfold dc_q_dp_rd, dc_q_dp_wr, dc_q_ap_rd, dc_q_ap_wr, dc_q_set_mask,
        dc_set_match_retry, dc_q_ap_match, dc_q_dp_match;
      rewrite Hq; reflexivity. }
  split; [exact Hrun|]. rewrite Hrun.
  unfold dc_q_exec. apply is_ok_false in Hq. rewrite Hq. reflexivity.
Qed.

End Sticky.
(** ** The context [dc_create] yields *)

Section Created.
Context {hdr : Headers}.

Local Abbreviation shape u c s i w m :=
  (mkDC u 0 c s i w m INVALID 0 INVALID
     (poke (poke (poke (replicate 1024 0) 0 DAP_Transfer) 1 0) 2 0)
     (replicate 256 0) 3 0 61 61 DC_OK []).

Lemma set_usb_shape (u' u : usb_handle) (c s i w m : Z) :
  set_usb u' (shape u c s i w m) = shape u' c s i w m.
Proof. reflexivity. Qed.

(** An information query is one packet, and changes the carrier only. *)
Lemma dap_get_info_frame (d : DC) (di minlen maxlen : Z) :
  exists u,
    fst (fst (dap_get_info d di minlen maxlen)) = set_usb u d /\
    usb_out u = usb_out (usb d) ++ [[DAP_Info; u8 di]].
Proof.
  unfold dap_get_info.
  set (buf0 := poke (poke (replicate 258 0) 0 DAP_Info) 1 (u8 di)).
  destruct (usb_write (usb d) buf0 2) as [u w] eqn:Hw.
  pose proof (usb_write_out (usb d) buf0 2) as Hout.
  rewrite Hw in Hout. cbn [fst] in Hout.
  change (take (Z.to_nat 2) buf0) with [DAP_Info; u8 di] in Hout.
  destruct (negb (w =? 2)); [exists u; split; [reflexivity|exact Hout]|].
  cbn [usb set_usb].
  destruct (usb_read u buf0 (256 + 2)) as [[u' n] buf] eqn:Hr.
  pose proof (usb_read_out u buf0 (256 + 2)) as Hout'.
  rewrite Hr in Hout'. cbn [fst] in Hout'.
  exists u'. split; [|congruence].
  assert (E : set_usb u' (set_usb u d) = set_usb u' d)
    by (destruct d; reflexivity).
  rewrite E.
  destruct (_ || _); [reflexivity|].
  destruct (_ || _); reflexivity.
Qed.

Lemma info_strings_frame (cnt : nat) (n : Z) (d : DC) :
  exists u,
    info_strings cnt n d = set_usb u d /\
    usb_out u
    = usb_out (usb d)
      ++ map (fun k => [DAP_Info; u8 (n + Z.of_nat k)]) (seq 0 cnt).
Proof.
  revert n d. induction cnt as [|k IH]; intros n d; cbn [info_strings].
  - exists (usb d). split; [destruct d; reflexivity|].
    cbn [seq map]. rewrite app_nil_r. reflexivity.
  - destruct (dap_get_info_frame d n 0 255) as (u & -> & Hu).
    destruct (IH (n + 1) (set_usb u d)) as (u' & -> & Hu').
    exists u'. split; [destruct d; reflexivity|].
    rewrite Hu'. replace (usb (set_usb u d)) with u by (destruct d; reflexivity).
    rewrite Hu, <- app_assoc. f_equal.
    rewrite <- cons_seq. cbn [map app]. rewrite Z.add_0_r. f_equal.
    rewrite <- fmap_S_seq.
    change (S <$> seq 0 k) with (map S (seq 0 k)). rewrite map_map.
    apply map_ext. intros i. do 3 f_equal. lia.
Qed.

(** Up to the check of the limits only the carrier and the two limits
    differ from what [calloc], the defaults and [dc_q_clear] left; sixteen
    queries have been sent. *)
Lemma dap_configure_limits_shape (u : usb_handle) :
  exists u' c s,
    dap_configure_limits (set_usb u calloc_DC)
    = shape u' c s INVALID INVALID INVALID /\
    usb_out u'
    = usb_out u
      ++ map (fun k => [DAP_Info; u8 (0 + Z.of_nat k)]) (seq 0 10)
      ++ [[DAP_Info; u8 DI_Capabilities];
          [DAP_Info; u8 DI_UART_RX_Buffer_Size];
          [DAP_Info; u8 DI_UART_TX_Buffer_Size];
          [DAP_Info; u8 DI_SWO_Trace_Buffer_Size];
          [DAP_Info; u8 DI_Max_Packet_Count];
          [DAP_Info; u8 DI_Max_Packet_Size]].
Proof.
  unfold dap_configure_limits.
  replace (dc_q_clear _) with (shape u 1 64 INVALID INVALID INVALID)
    by (cbv [dc_q_clear calloc_DC usb status max_packet_count max_packet_size
             cfg_idle cfg_wait cfg_match cfg_mask dp_select dp_select_cache
             txbuf rxptr txnext rxnext txavail rxavail qerror mem set_usb
             set_cfg set_cfg_mask set_max_packet_count set_max_packet_size
             set_dp_select_cache set_txbuf set_txnext set_rxnext set_txavail
             set_rxavail set_qerror]; reflexivity).
  cbv zeta.
  destruct (info_strings_frame 10 0 (shape u 1 64 INVALID INVALID INVALID))
    as (u1 & -> & O1). rewrite ?set_usb_shape. cbn [usb] in O1.
  destruct (dap_get_info_frame (shape u1 1 64 INVALID INVALID INVALID)
              DI_Capabilities 1 2) as (u2 & -> & O2).
  rewrite ?set_usb_shape. cbn [usb] in O2.
  destruct (dap_get_info_frame (shape u2 1 64 INVALID INVALID INVALID)
              DI_UART_RX_Buffer_Size 4 4) as (u3 & -> & O3).
  rewrite ?set_usb_shape. cbn [usb] in O3.
  destruct (dap_get_info_frame (shape u3 1 64 INVALID INVALID INVALID)
              DI_UART_TX_Buffer_Size 4 4) as (u4 & -> & O4).
  rewrite ?set_usb_shape. cbn [usb] in O4.
  destruct (dap_get_info_frame (shape u4 1 64 INVALID INVALID INVALID)
              DI_SWO_Trace_Buffer_Size 4 4) as (u5 & -> & O5).
  rewrite ?set_usb_shape. cbn [usb] in O5.
  destruct (dap_get_info_frame (shape u5 1 64 INVALID INVALID INVALID)
              DI_Max_Packet_Count 1 1) as (u6 & E6 & O6).
  cbn [usb] in O6.
  destruct (dap_get_info (shape u5 1 64 INVALID INVALID INVALID)
              DI_Max_Packet_Count 1 1) as [[d6 r6] n8].
  cbn [fst] in E6. subst d6. rewrite ?set_usb_shape.
  set (c := if ret_is r6 1 then peek n8 0 else 1).
  replace (if ret_is r6 1 then _ else _)
    with (shape u6 c 64 INVALID INVALID INVALID)
    by (subst c; destruct (ret_is r6 1); reflexivity).
  destruct (dap_get_info_frame (shape u6 c 64 INVALID INVALID INVALID)
              DI_Max_Packet_Size 2 2) as (u7 & E7 & O7).
  cbn [usb] in O7.
  destruct (dap_get_info (shape u6 c 64 INVALID INVALID INVALID)
              DI_Max_Packet_Size 2 2) as [[d7 r7] n16].
  cbn [fst] in E7. subst d7.
  assert (Hout : usb_out u7
            = usb_out u
              ++ map (fun k => [DAP_Info; u8 (0 + Z.of_nat k)]) (seq 0 10)
              ++ [[DAP_Info; u8 DI_Capabilities];
                  [DAP_Info; u8 DI_UART_RX_Buffer_Size];
                  [DAP_Info; u8 DI_UART_TX_Buffer_Size];
                  [DAP_Info; u8 DI_SWO_Trace_Buffer_Size];
                  [DAP_Info; u8 DI_Max_Packet_Count];
                  [DAP_Info; u8 DI_Max_Packet_Size]]).
  { rewrite O7, O6, O5, O4, O3, O2, O1. rewrite <- !app_assoc. reflexivity. }
  exists u7, c.
  destruct (ret_is r7 2); eexists; (split; [reflexivity|exact Hout]).
Qed.

(** What [dap_configure] makes of the context once the limits are
    accepted: the three commands are sent and the mirrors set. *)
Lemma dap_configure_commands (u : usb_handle) (c s : Z) :
  1 <= c -> 64 <= s ->
  exists u' s',
    64 <= s' <= 1024 /\
    fst (dap_xfer_config
           (fst (dap_swd_configure
                   (fst (dap_connect
                           (dap_configure_clip
                              (shape u c s INVALID INVALID INVALID))))
                   CFG_Turnaround_1)) 8 64 0)
    = shape u' c s' 8 64 0 /\
    usb_out u'
    = usb_out u
      ++ [[DAP_Connect; u8 PORT_SWD];
          [DAP_SWD_Configure; u8 CFG_Turnaround_1];
          [DAP_TransferConfigure; 8; 64; 0; 0; 0]].
Proof.
  intros Hc Hs.
  unfold dap_configure_clip.
  replace (set_dp_select_cache INVALID (shape u c s INVALID INVALID INVALID))
    with (shape u c s INVALID INVALID INVALID) by reflexivity.
  cbn [max_packet_size].
  set (s' := if s >? 1024 then 1024 else s).
  assert (Hs' : 64 <= s' <= 1024)
    by (subst s'; destruct (Z.gtb_spec s 1024); lia).
  replace (if s >? 1024 then _ else _)
    with (shape u c s' INVALID INVALID INVALID)
    by (subst s'; destruct (s >? 1024); reflexivity).
  clearbody s'.
  unfold dap_connect, dap_swd_configure.
  destruct (dap_cmd_std_effect (shape u c s' INVALID INVALID INVALID)
              [DAP_Connect; u8 PORT_SWD] 2 2) as (u1 & -> & O1).
  rewrite ?set_usb_shape. cbn [usb] in O1.
  destruct (dap_cmd_std_effect (shape u1 c s' INVALID INVALID INVALID)
              [DAP_SWD_Configure; u8 CFG_Turnaround_1] 2 2) as (u2 & -> & O2).
  rewrite ?set_usb_shape. cbn [usb] in O2.
  destruct (dap_xfer_config_effect (shape u2 c s' INVALID INVALID INVALID)
              8 64 0) as [_ H].
  destruct H as (u3 & -> & O3).
  { cbn [cfg_idle]. intros [E _]. discriminate E. }
  cbn [usb] in O3.
  exists u3, s'. split; [exact Hs'|]. split; [reflexivity|].
  rewrite O3, O2, O1, <- !app_assoc. reflexivity.
Qed.

(** Every context [dc_create] yields has packet limits within the arrays,
    the three transfer mirrors at (8, 64, 0) whether or not the probe took
    the command, the mask mirror and the DP.SELECT cache invalid, and an
    empty queue whose budgets are those of the default packet size of 64:
    the queue is cleared before the size is queried. *)
Theorem dc_create_context (calloc_ok : bool)
    (usb_open : Z -> Z -> Z -> option usb_handle) (r : dc_code) (dc : DC) :
  dc_create calloc_ok usb_open = (r, Some dc) ->
  r = DC_OK /\ arrays_ok dc /\
  64 <= max_packet_size dc <= 1024 /\ 1 <= max_packet_count dc /\
  (cfg_idle dc, cfg_wait dc, cfg_match dc) = (8, 64, 0) /\
  cfg_mask dc = INVALID /\ dp_select_cache dc = INVALID /\
  qerror dc = DC_OK /\ q_count dc = 0 /\
  (txnext dc, rxnext dc, txavail dc, rxavail dc) = (3, 0, 61, 61) /\
  mem dc = [].
Proof.
  unfold dc_create. destruct calloc_ok; cbn [negb]; [|discriminate].
  destruct (usb_connect usb_open) as [u|]; [|discriminate].
  unfold dap_configure.
  destruct (dap_configure_limits_shape u) as (u' & c & s & -> & _).
  cbn [max_packet_count max_packet_size].
  destruct (Z.ltb_spec c 1) as [Hc|Hc]; cbn [orb];
    [cbn [is_ok negb]; discriminate|].
  destruct (Z.ltb_spec s 64) as [Hs|Hs]; [cbn [is_ok negb]; discriminate|].
  cbv zeta.
  destruct (dap_configure_commands u' c s Hc Hs) as (u3 & s' & Hs' & -> & _).
  cbn [is_ok negb].
  intros E. injection E as <- <-.
  split; [reflexivity|]. split; [split; reflexivity|].
  split; [exact Hs'|]. split; [exact Hc|].
  repeat split; reflexivity.
Qed.

(** What [dc_create] says to the probe it opens, whatever the probe
    answers: ten information strings, six information queries, and, unless
    the limits read are below the minima, Connect for SWD, SWD_Configure and
    TransferConfigure(8, 64, 0); nineteen packets and no more when a context
    is yielded. *)
Theorem dc_create_packets (usb_open : Z -> Z -> Z -> option usb_handle)
    (u : usb_handle) (r : dc_code) (dc : DC) :
  usb_connect usb_open = Some u ->
  dc_create true usb_open = (r, Some dc) ->
  usb_out (usb dc)
  = usb_out u
    ++ map (fun n => [DAP_Info; n]) [0; 1; 2; 3; 4; 5; 6; 7; 8; 9]
    ++ [[DAP_Info; u8 DI_Capabilities];
        [DAP_Info; u8 DI_UART_RX_Buffer_Size];
        [DAP_Info; u8 DI_UART_TX_Buffer_Size];
        [DAP_Info; u8 DI_SWO_Trace_Buffer_Size];
        [DAP_Info; u8 DI_Max_Packet_Count];
        [DAP_Info; u8 DI_Max_Packet_Size];
        [DAP_Connect; u8 PORT_SWD];
        [DAP_SWD_Configure; u8 CFG_Turnaround_1];
        [DAP_TransferConfigure; 8; 64; 0; 0; 0]].
Proof.
  intros Hu. unfold dc_create. cbn [negb]. rewrite Hu.
  unfold dap_configure.
  destruct (dap_configure_limits_shape u) as (u' & c & s & -> & O1).
  cbn [max_packet_count max_packet_size].
  destruct (Z.ltb_spec c 1) as [Hc|Hc]; cbn [orb];
    [cbn [is_ok negb]; discriminate|].
  destruct (Z.ltb_spec s 64) as [Hs|Hs]; [cbn [is_ok negb]; discriminate|].
  cbv zeta.
  destruct (dap_configure_commands u' c s Hc Hs) as (u3 & s' & _ & -> & O2).
  cbn [is_ok negb].
  intros E. injection E as <- <-. cbn [usb].
  rewrite O2, O1, <- !app_assoc. reflexivity.
Qed.


End Created.

(** ** The DP bank selection on the contexts the program reaches *)

Section Reachable.
Context {hdr : Headers}.











End Reachable.

Section ReachableRun.
#[local] Existing Instance adiv5_headers.


End ReachableRun.

(** ** The flush that makes room *)

Lemma dc_code_eq_dec (a b : dc_code) : {a = b} + {a <> b}.
Proof. decide equality. Defined.

Section Flush.
Context {hdr : Headers}.

Lemma q_stream_clear (d : DC) : q_stream (dc_q_clear d) = [].
Proof.
  unfold q_stream, packet.
  replace (txnext (dc_q_clear d)) with 3 by reflexivity.
  apply drop_ge. rewrite length_take. change (Z.to_nat 3) with 3%nat. lia.
Qed.

(** A full queue holds requests. *)
Lemma qinv_full (d : DC) :
  qinv d -> 11 <= max_packet_size d -> txavail d < 5 \/ rxavail d < 4 ->
  q_count d <> 0.
Proof. unfold qinv. intros (_ & H) HP Hfull. lia. Qed.

(** A decoded status is never one of the two codes of the transport. *)
Lemma dc_decode_status_not_transport (n : Z) :
  dc_decode_status n <> DC_ERR_IO /\ dc_decode_status n <> DC_ERR_PROTOCOL.
Proof.
  unfold dc_decode_status.
  repeat match goal with |- context [if ?c then _ else _] => destruct c end;
    split; discriminate.
Qed.

(** The outcomes of a flush that has a packet to send: an early return
    with [Io] or [Protocol] that leaves the queue as it is, or a decoded
    status, which is neither of the two, after which the queue is cleared;
    the caller's memory is written only when that status is [DC_OK]. *)
Lemma dc_q_exec_outcome (d : DC) :
  qerror d = DC_OK -> q_count d <> 0 ->
  exists u,
    usb_out u = usb_out (usb d) ++ [packet d] /\
    ((exists r, (r = DC_ERR_IO \/ r = DC_ERR_PROTOCOL) /\
        dc_q_exec d = (set_usb u d, r)) \/
     (exists m r, r <> DC_ERR_IO /\ r <> DC_ERR_PROTOCOL /\
        (r <> DC_OK -> m = mem d) /\
        dc_q_exec d = (dc_q_clear (set_mem m (set_usb u d)), r))).
Proof.
  intros Hq Hc. unfold dc_q_exec, q_count in *.
  rewrite Hq. cbn [is_ok negb]. apply Z.eqb_neq in Hc. rewrite Hc.
  destruct (usb_write (usb d) (txbuf d) (txnext d)) as [u w] eqn:Hw.
  pose proof (usb_write_out (usb d) (txbuf d) (txnext d)) as Hout.
  rewrite Hw in Hout. cbn [fst] in Hout. fold (packet d) in Hout.
  destruct (negb (w =? txnext d)).
  { exists u. split; [exact Hout|]. left. exists DC_ERR_IO. auto. }
  cbn [usb set_usb rxnext].
  destruct (usb_read u (replicate 1024 238) (3 + rxnext d * 4))
    as [[u' n] rxbuf] eqn:Hr.
  pose proof (usb_read_out u (replicate 1024 238) (3 + rxnext d * 4)) as Hout'.
  rewrite Hr in Hout'. cbn [fst] in Hout'.
  assert (Hset : set_usb u' (set_usb u d) = set_usb u' d)
    by (destruct d; reflexivity).
  rewrite Hset.
  exists u'. split; [congruence|]. destruct (n <? 0).
  { left. exists DC_ERR_IO. auto. }
  match goal with |- context [if ?c then (_, DC_ERR_PROTOCOL) else _] =>
    destruct c end.
  { left. exists DC_ERR_PROTOCOL. auto. }
  right.
  destruct (dc_decode_status_not_transport (peek rxbuf 2)) as [N1 N2].
  destruct (is_ok (dc_decode_status (peek rxbuf 2))) eqn:Hok.
  - do 2 eexists. split; [exact N1|]. split; [exact N2|]. split.
    + intros H. apply is_ok_true in Hok. contradiction.
    + rewrite scatter_mem_only. reflexivity.
  - exists (mem d), (dc_decode_status (peek rxbuf 2)).
    split; [exact N1|]. split; [exact N2|]. split; [reflexivity|].
    f_equal; try (f_equal; destruct d; reflexivity).
Qed.

(** The flush that [dc_q_raw_rd] and [dc_q_raw_wr] ask for, and what they
    do with its result [r]: on [DC_OK] the request is appended to the
    cleared queue ([k]); otherwise [r] is latched in the context the flush
    left and nothing is appended. *)
Lemma flush_then (d : DC) (k : DC -> DC) :
  qerror d = DC_OK -> q_count d <> 0 -> arrays_ok d ->
  let r := snd (dc_q_exec d) in
  let dx := fst (dc_q_exec d) in
  let d' := let '(dx, r) := dc_q_exec d in
            let dx := set_qerror r dx in
            if negb (is_ok r) then dx else k dx in
  usb_out (usb dx) = usb_out (usb d) ++ [packet d] /\
  (r = DC_OK ->
   exists x, arrays_ok x /\ max_packet_size x = max_packet_size d /\
     dx = dc_q_clear x /\ d' = k (dc_q_clear x)) /\
  (r <> DC_OK ->
   d' = set_qerror r dx /\
   (r = DC_ERR_IO \/ r = DC_ERR_PROTOCOL ->
    q_stream dx = q_stream d /\ q_count dx = q_count d) /\
   (r <> DC_ERR_IO -> r <> DC_ERR_PROTOCOL ->
    q_stream dx = [] /\ q_count dx = 0)).
Proof.
  intros Hq Hc Harr.
  destruct (dc_q_exec_outcome d Hq Hc)
    as (u & Hout & [(r & Hr & E)|(m & r & N1 & N2 & Hm & E)]);
    rewrite E; cbn [fst snd]; cbv zeta.
  - split; [rewrite <- Hout; destruct d; reflexivity|].
    assert (Hne : is_ok r = false) by (destruct Hr; subst r; reflexivity).
    split.
    + intros ->. discriminate Hne.
    + intros _. rewrite Hne. cbn [negb]. split; [reflexivity|]. split.
      * intros _. clear. destruct d. cbn. split; reflexivity.
      * intros H1 H2. destruct Hr; contradiction.
  - split; [rewrite <- Hout; destruct d; reflexivity|]. split.
    + intros ->. cbn [is_ok negb]. rewrite set_qerror_clear.
      exists (set_mem m (set_usb u d)).
      split; [clear - Harr; destruct d; cbn in *; exact Harr|].
      split; [clear; destruct d; reflexivity|]. split; reflexivity.
    + intros Hne. apply is_ok_false in Hne. rewrite Hne. cbn [negb].
      split; [reflexivity|]. split.
      * intros [H|H]; contradiction.
      * intros _ _. split; [apply q_stream_clear|].
        apply q_count_clear.
        clear - Harr. destruct Harr as [H _]. destruct d. cbn in *. lia.
Qed.

Lemma q_view_set_qerror (r : dc_code) (x : DC) :
  q_stream (set_qerror r x) = q_stream x /\
  q_count (set_qerror r x) = q_count x /\
  usb (set_qerror r x) = usb x.
Proof. destruct x. cbn. repeat split; reflexivity. Qed.


(** The state of a queue just cleared after one raw write. *)
Lemma first_write_fields (dc : DC) (req v : Z) :
  arrays_ok dc -> 3 <= max_packet_size dc < 4294967296 ->
  let dA := raw_wr_append (dc_q_clear dc) req v in
  qerror dA = DC_OK /\ usb dA = usb dc /\ rxnext dA = 0 /\
  mem dA = mem dc /\
  packet dA = [DAP_Transfer; 0; 1; u8 req] ++ le_bytes32 v.
Proof.
  intros Harr HP.
  destruct (dc_q_clear_fields dc Harr HP)
    as ((Cl1 & Cl2) & _ & Cq & Ct & Cx & Cc & _ & _ & C0 & C1 & Cs & Cu & Cm
        & _).
  generalize dependent (dc_q_clear dc).
  intros dcl Cl1 Cl2 Cq Ct Cx Cc C0 C1 Cs Cu Cm.
  destruct (wr_step dcl req v)
    as (Wu & Wm & Wq & Wt & Wx & _ & _ & Wc & W0 & W1 & Wl & Ws); [lia..|].
  cbv zeta. split; [congruence|]. split; [congruence|]. split; [congruence|].
  split; [congruence|].
  rewrite packet_split by lia.
  rewrite W0, W1, Wc, Ws, C0, C1, Cc, Cs. reflexivity.
Qed.

(** A write queued when the packet is full: the pending packet is sent
    first.  If that flush returns [DC_OK] the write opens the new packet,
    its request byte followed by the value, low byte first.  If it returns
    an error, the error is latched in the context the flush left and the
    write is not queued: after [Io] or [Protocol] the old requests are still
    queued; after any other status the queue is empty. *)
Theorem dc_q_raw_wr_full_queue (d : DC) (req v : Z) :
  qinv d -> 11 <= max_packet_size d < 4294967296 -> qerror d = DC_OK ->
  txavail d < 5 ->
  let r := snd (dc_q_exec d) in
  let dx := fst (dc_q_exec d) in
  let d' := dc_q_raw_wr d req v in
  usb_out (usb d') = usb_out (usb d) ++ [packet d] /\
  (r = DC_OK ->
   qerror d' = DC_OK /\
   packet d' = [DAP_Transfer; 0; 1; u8 req] ++ le_bytes32 v /\
   rxnext d' = 0 /\ mem d' = mem dx) /\
  (r <> DC_OK ->
   d' = set_qerror r dx /\
   (r = DC_ERR_IO \/ r = DC_ERR_PROTOCOL ->
    q_stream d' = q_stream d /\ q_count d' = q_count d) /\
   (r <> DC_ERR_IO -> r <> DC_ERR_PROTOCOL ->
    q_stream d' = [] /\ q_count d' = 0)).
Proof.
  intros Hinv HP Hq Hfull r dx d'. subst d'.
  assert (Hc : q_count d <> 0) by (apply qinv_full; [assumption|lia|lia]).
  assert (Harr : arrays_ok d) by (destruct Hinv as [H _]; exact H).
  unfold dc_q_raw_wr.
  replace (txavail d <? 5) with true by (symmetry; apply Z.ltb_lt; exact Hfull).
  pose proof (flush_then d (fun x => raw_wr_append x req v) Hq Hc Harr) as H.
  cbv beta zeta in H. cbv beta zeta. fold r dx in H.
  destruct H as (Hout & Hok & Herr).
  destruct (dc_code_eq_dec r DC_OK) as [Er|Er].
  - destruct (Hok Er) as (x & Hx & HPx & Edx & ->).
    destruct (first_write_fields x req v Hx) as (Fq & Fu & Fx & Fm & Fpk);
      [lia|].
    assert (Eu : usb dx = usb x) by (rewrite Edx; clear; destruct x; reflexivity).
    assert (Em : mem dx = mem x) by (rewrite Edx; clear; destruct x; reflexivity).
    split; [rewrite Fu, <- Eu; exact Hout|]. split.
    + intros _. rewrite Fm, Em. auto.
    + intros H. contradiction.
  - destruct (Herr Er) as (-> & Hkeep & Hgone).
    destruct (q_view_set_qerror r dx) as (Vs & Vc & Vu).
    rewrite Vs, Vc, Vu.
    split; [exact Hout|]. split; [intros H; contradiction|].
    intros _. split; [reflexivity|]. split; assumption.
Qed.

End Flush.

(** ** Batches of writes *)

Section WriteBatches.
Context {hdr : Headers}.

(** A DP write of a register other than 4, on a queue with room. *)
Lemma dc_q_dp_wr_room (d : DC) (a v : Z) :
  qerror d = DC_OK -> Z.land a 0xFFFFFF03 = 0 -> Z.land a 0xF <> 0x4 ->
  5 <= txavail d ->
  dc_q_dp_wr d a v
  = raw_wr_append d (Z.lor (Z.lor XFER_DP XFER_WR) (Z.land a 0x0C)) v.
Proof.
  intros Hq Hv Hr Ht. unfold dc_q_dp_wr. rewrite Hq. cbn [is_ok negb].
  destruct (dc_q_dp_sel_valid d a Hv) as [Hsel _]. rewrite (Hsel Hr).
  apply dc_q_raw_wr_room. exact Ht.
Qed.

(** The state of a queue that holds [j] writes and nothing else. *)
Lemma writes_queued (P : Z) (a : Z) (vals : list Z) (d : DC) (j : Z) :
  Z.land a 0xFFFFFF03 = 0 -> Z.land a 0xF <> 0x4 ->
  P <= 1024 -> 5 * (j + Z.of_nat (length vals)) <= P - 3 ->
  arrays_ok d -> max_packet_size d = P -> qerror d = DC_OK ->
  0 <= j -> txnext d = 3 + 5 * j -> q_count d = j ->
  txavail d = P - 3 - 5 * j ->
  let req := Z.lor (Z.lor XFER_DP XFER_WR) (Z.land a 0x0C) in
  let dq := fold_left (fun d v => dc_q_dp_wr d a v) vals d in
  let k := j + Z.of_nat (length vals) in
  usb dq = usb d /\ mem dq = mem d /\ qerror dq = DC_OK /\
  arrays_ok dq /\
  txnext dq = 3 + 5 * k /\ rxnext dq = rxnext d /\ q_count dq = k /\
  peek (txbuf dq) 0 = peek (txbuf d) 0 /\
  peek (txbuf dq) 1 = peek (txbuf d) 1 /\
  q_stream dq
  = q_stream d ++ concat (map (fun v => u8 req :: le_bytes32 v) vals).
Proof.
  intros Hv Hr HP. revert d j.
  induction vals as [|v vals IH]; intros d j Hk Harr Hmps Hq Hj Ht Hc Hta;
    cbn [fold_left length map concat].
  - cbn [length] in Hk. rewrite Z.add_0_r, app_nil_r. auto 12.
  - cbn [length] in Hk. cbv zeta.
    rewrite dc_q_dp_wr_room by (assumption || lia).
    set (req := Z.lor (Z.lor XFER_DP XFER_WR) (Z.land a 0x0C)).
    destruct Harr as [Hl1 Hl2].
    destruct (wr_step d req v)
      as (Fu & Fm & Fq & Ft & Fx & Frp & _ & Fc & F0 & F1 & Flen & Fs);
      [lia..|].
    destruct (raw_wr_append_fields d req v)
      as (_ & _ & _ & Fp & _ & _ & Fta & _).
    specialize (IH (raw_wr_append d req v) (j + 1)).
    destruct IH as (Iu & Im & Iq & Iarr & It & Ix & Ic & I0 & I1 & Is).
    + lia.
    + split; [lia|]. rewrite Frp. exact Hl2.
    + congruence.
    + congruence.
    + lia.
    + lia.
    + rewrite Fc, Hc. apply u8_small. lia.
    + rewrite Fta, Hta. rewrite u32_small by lia. lia.
    + replace (j + Z.of_nat (S (length vals)))
        with (j + 1 + Z.of_nat (length vals)) by lia.
      split; [congruence|]. split; [congruence|]. split; [exact Iq|].
      split; [exact Iarr|]. split; [exact It|]. split; [congruence|].
      split; [exact Ic|]. split; [congruence|]. split; [congruence|].
      rewrite Is, Fs. rewrite <- app_assoc. reflexivity.
Qed.

(** Writes of DP registers queued on a fresh queue, as many as one packet
    can carry, then flushed: nothing is sent while they are queued; the
    flush sends one packet holding each request byte followed by the four
    bytes of its word, low byte first, in the order queued; the result is
    the decoded status of the three-byte response, and nothing is stored. *)
Theorem dc_q_dp_wr_batch (dc : DC) (a c st : Z) (vals ws : list Z)
    (rs : list (Z * list Z)) :
  let k := Z.of_nat (length vals) in
  let req := Z.lor (Z.lor XFER_DP XFER_WR) (Z.land a 0x0C) in
  arrays_ok dc -> max_packet_size dc <= 1024 ->
  1 <= k -> 5 * k <= max_packet_size dc - 3 ->
  Z.land a 0xFFFFFF03 = 0 -> Z.land a 0xF <> 0x4 ->
  usb_wr (usb dc) = 3 + 5 * k :: ws ->
  usb_rd (usb dc) = (3, [DAP_Transfer; c; st]) :: rs ->
  let dq := fold_left (fun d v => dc_q_dp_wr d a v) vals (dc_q_init dc) in
  let res := dc_q_exec dq in
  usb dq = usb dc /\
  snd res = dc_decode_status (u8 st) /\
  mem (fst res) = mem dc /\
  usb_out (usb (fst res))
  = usb_out (usb dc)
    ++ [[DAP_Transfer; 0; k]
        ++ concat (map (fun v => u8 req :: le_bytes32 v) vals)].
Proof.
  intros k req Harr HP Hk Hfit Hv Hr Hw Hrd dq res.
  destruct (dc_q_clear_fields dc Harr)
    as (Carr & Cp & Cq & Ct & Cx & Cc & Cta & Cxa & C0 & C1 & Cs & Cu & Cm
        & _); [lia|].
  destruct (writes_queued (max_packet_size dc) a vals (dc_q_clear dc) 0 Hv Hr HP)
    as (Qu & Qm & Qq & Qarr & Qt & Qx & Qc & Q0 & Q1 & Qs);
    try assumption; try lia.
  cbv zeta in Qu, Qm, Qq, Qarr, Qt, Qx, Qc, Q0, Q1, Qs.
  change (fold_left (fun d v => dc_q_dp_wr d a v) vals (dc_q_clear dc))
    with dq in Qu, Qm, Qq, Qarr, Qt, Qx, Qc, Q0, Q1, Qs.
  clearbody dq. subst res.
  rewrite Z.add_0_l in Qt, Qc. fold k in Qt, Qc.
  destruct Qarr as [Ql1 Ql2].
  assert (Hpk : packet dq
                = [DAP_Transfer; 0; k]
                  ++ concat (map (fun v => u8 req :: le_bytes32 v) vals)).
  { rewrite packet_split by lia.
    rewrite Q0, Q1, Qc, Qs, C0, C1, Cs. reflexivity. }
  assert (Hbuf : poke_bytes (replicate 1024 238) 0
                   (take (Z.to_nat (3 + rxnext dq * 4))
                      (map u8 [DAP_Transfer; c; st]))
                 = [DAP_Transfer; u8 c; u8 st] ++ replicate 1021 238).
  { rewrite Qx, Cx. reflexivity. }
  rewrite (dc_q_exec_answer dq 3 [DAP_Transfer; c; st] ws rs).
  - rewrite Hbuf.
    change (peek ([DAP_Transfer; u8 c; u8 st] ++ replicate 1021 238) 2)
      with (u8 st).
    change (Z.to_nat ((3 - 3) ÷ 4)) with 0%nat. cbn [scatter fst snd].
    split; [congruence|]. split; [reflexivity|].
    split.
    + destruct (is_ok (dc_decode_status (u8 st)));
        change (mem (dc_q_clear ?x)) with (mem x); cbn [mem set_usb];
        congruence.
    + destruct (is_ok (dc_decode_status (u8 st)));
        change (usb (dc_q_clear ?x)) with (usb x); cbn [usb set_usb usb_out];
        rewrite Qu, Cu, Hpk; reflexivity.
  - exact Qq.
  - lia.
  - rewrite Qu, Cu, Qt. exact Hw.
  - rewrite Qu, Cu. exact Hrd.
  - lia.
  - rewrite Hbuf. reflexivity.
Qed.

End WriteBatches.

(** ** What reaches the probe *)

Section Wire.
Context {hdr : Headers}.
Hypothesis select_not_rd : Z.testbit DP_SELECT 1 = false.

Lemma sent_ok_same (d d' : DC) : usb d' = usb d -> sent_ok d d'.
Proof.
  intros H. exists []. rewrite H, app_nil_r. split; [reflexivity|constructor].
Qed.

Lemma sent_ok_trans (a b c : DC) : sent_ok a b -> sent_ok b c -> sent_ok a c.
Proof.
  intros (s1 & E1 & F1) (s2 & E2 & F2). exists (s1 ++ s2).
  split; [rewrite E2, E1, app_assoc; reflexivity|].
  apply Forall_app. split; assumption.
Qed.

Lemma sent_ok_from (a a' b : DC) : usb a' = usb a -> sent_ok a' b -> sent_ok a b.
Proof. intros H (s & E & F). exists s. rewrite <- H. auto. Qed.

Lemma sent_ok_to (a b b' : DC) : usb b' = usb b -> sent_ok a b -> sent_ok a b'.
Proof. intros H (s & E & F). exists s. rewrite H. auto. Qed.

(** The packet of a queue that satisfies the invariant and holds requests
    is well formed. *)
Lemma qgood_packet (P : Z) (d : DC) :
  qgood P d -> q_count d <> 0 -> wf_transfer (packet d).
Proof.
  intros (HP & Hfit & Hinv & Hpk) Hc.
  destruct (Hpk select_not_rd) as (H0 & H1 & n & Hrec & Hn).
  pose proof (qinv_count _ Hinv) as Hcnt.
  destruct Hinv as ((Hl1 & Hl2) & Hinv).
  exists (q_stream d), n, (Z.to_nat (rxnext d)).
  split; [|split; [exact Hrec|lia]].
  rewrite packet_split by lia. rewrite H0, H1, Hn. reflexivity.
Qed.

Lemma exec_sent (P : Z) (d : DC) : qgood P d -> sent_ok d (fst (dc_q_exec d)).
Proof.
  intros H.
  destruct (dc_q_exec_cases d)
    as [(_ & ->)|[(_ & _ & ->)|(_ & Hc & u & r & Hout & [[-> _]|[m ->]])]];
    cbn [fst].
  - apply sent_ok_same. destruct d; reflexivity.
  - apply sent_ok_same. reflexivity.
  - exists [packet d]. split.
    + rewrite <- Hout. destruct d; reflexivity.
    + constructor; [|constructor]. intros _. apply (qgood_packet P); assumption.
  - exists [packet d]. split.
    + rewrite <- Hout. destruct d; reflexivity.
    + constructor; [|constructor]. intros _. apply (qgood_packet P); assumption.
Qed.

Lemma raw_rd_sent (P : Z) (d : DC) (req v : Z) :
  qgood P d -> sent_ok d (dc_q_raw_rd d req v).
Proof.
  intros H. unfold dc_q_raw_rd.
  destruct ((txavail d <? 1) || (rxavail d <? 4)).
  - pose proof (exec_sent P d H) as Hs.
    destruct (dc_q_exec d) as [dx r]. cbn [fst] in Hs.
    destruct (negb (is_ok r)).
    + apply (sent_ok_to _ dx); [destruct dx; reflexivity|exact Hs].
    + apply (sent_ok_to _ dx); [destruct dx; reflexivity|exact Hs].
  - apply sent_ok_same. destruct d; reflexivity.
Qed.

Lemma raw_wr_sent (P : Z) (d : DC) (req v : Z) :
  qgood P d -> sent_ok d (dc_q_raw_wr d req v).
Proof.
  intros H. unfold dc_q_raw_wr.
  destruct (txavail d <? 5).
  - pose proof (exec_sent P d H) as Hs.
    destruct (dc_q_exec d) as [dx r]. cbn [fst] in Hs.
    destruct (negb (is_ok r)).
    + apply (sent_ok_to _ dx); [destruct dx; reflexivity|exact Hs].
    + apply (sent_ok_to _ dx); [destruct dx; reflexivity|exact Hs].
  - apply sent_ok_same. destruct d; reflexivity.
Qed.

Lemma qgood_set_cache (P s : Z) (d : DC) :
  qgood P d -> qgood P (set_dp_select_cache s d).
Proof.
  apply qgood_same_queue. destruct d. unfold same_queue. cbn. auto 10.
Qed.

Lemma dp_sel_sent (P : Z) (d : DC) (a : Z) :
  qgood P d -> sent_ok d (dc_q_dp_sel d a).
Proof.
  intros H. unfold dc_q_dp_sel.
  destruct (negb (Z.land a 4294967043 =? 0));
    [apply sent_ok_same; destruct d; reflexivity|].
  destruct (negb (Z.land a 15 =? 4)); [apply sent_ok_same; reflexivity|].
  match goal with |- context [if ?c then _ else _] => destruct c end;
    [|apply sent_ok_same; reflexivity].
  cbv zeta.
  match goal with |- sent_ok d (dc_q_raw_wr (set_dp_select_cache ?s d) ?r ?v) =>
    apply (sent_ok_from d (set_dp_select_cache s d));
      [destruct d; reflexivity
      |apply (raw_wr_sent P), qgood_set_cache, H]
  end.
Qed.

Lemma ap_sel_sent (P : Z) (d : DC) (a : Z) :
  qgood P d -> sent_ok d (dc_q_ap_sel d a).
Proof.
  intros H. unfold dc_q_ap_sel.
  destruct (negb (Z.land a 4294901763 =? 0));
    [apply sent_ok_same; destruct d; reflexivity|].
  match goal with |- context [if ?c then _ else _] => destruct c end;
    [|apply sent_ok_same; reflexivity].
  cbv zeta.
  match goal with |- sent_ok d (dc_q_raw_wr (set_dp_select_cache ?s d) ?r ?v) =>
    apply (sent_ok_from d (set_dp_select_cache s d));
      [destruct d; reflexivity
      |apply (raw_wr_sent P), qgood_set_cache, H]
  end.
Qed.

Lemma init_sent (P : Z) (d : DC) :
  qgood P d -> qgood P (dc_q_init d) /\ usb (dc_q_init d) = usb d.
Proof.
  intros (HP & Hfit & Hinv & _). split.
  - apply qgood_clear; [apply Hinv|exact HP|exact Hfit].
  - destruct d; reflexivity.
Qed.

(** A command of the layer is not a DAP_Transfer when its opcode is not. *)
Lemma cmd_sent (d d' : DC) (pkt : list Z) (u : usb_handle) :
  d' = set_usb u d -> usb_out u = usb_out (usb d) ++ [pkt] ->
  peek pkt 0 <> DAP_Transfer -> sent_ok d d'.
Proof.
  intros -> Hout Hp. exists [pkt]. split.
  - rewrite <- Hout. destruct d; reflexivity.
  - constructor; [|constructor]. intros E. contradiction.
Qed.

Lemma classic_cfg (d : DC) (idle wait match_ : Z) :
  let P := cfg_idle d = Z.min idle 255 /\ cfg_wait d = Z.min wait 65535 /\
           cfg_match d = Z.min match_ 65535 in
  P \/ ~ P.
Proof.
  cbv zeta.
  destruct (Z.eq_dec (cfg_idle d) (Z.min idle 255));
    destruct (Z.eq_dec (cfg_wait d) (Z.min wait 65535));
    destruct (Z.eq_dec (cfg_match d) (Z.min match_ 65535)); tauto.
Qed.

Lemma xfer_config_sent (d : DC) (idle wait match_ : Z) :
  sent_ok d (fst (dap_xfer_config d idle wait match_)).
Proof.
  destruct (dap_xfer_config_effect d idle wait match_) as [H1 H2].
  destruct (classic_cfg d idle wait match_) as [H|H].
  - rewrite (H1 H). apply sent_ok_same. reflexivity.
  - destruct (H2 H) as (u & E & Hout). rewrite E.
    eexists. split.
    + destruct d. cbn in *. exact Hout.
    + constructor; [|constructor]. intros Hp. discriminate Hp.
Qed.

Lemma attach_sent (P : Z) (d : DC) (flags tgt idcode : Z) :
  qgood P d -> sent_ok d (fst (dc_attach d flags tgt idcode)).
Proof.
  intros H. unfold dc_attach.
  match goal with |- sent_ok d (fst (dc_q_exec (dc_q_raw_rd (dc_q_init ?x) ?r ?v))) =>
    set (d1 := x) end.
  assert (H1 : sent_ok d d1 /\ qgood P d1).
  { subst d1. destruct (negb (Z.land flags DC_MULTIDROP =? 0)).
    - split; [|eapply qgood_same_queue; [apply dap_cmd_same_queue|exact H]].
      match goal with |- sent_ok d (fst (fst (dap_cmd d ?tx ?n ?rx ?m))) =>
        destruct (dap_cmd_effect d tx n rx m) as (u & E & Hout) end.
      apply (cmd_sent _ _ _ u E Hout). discriminate.
    - split; [|eapply qgood_same_queue; [apply dap_cmd_same_queue|exact H]].
      match goal with |- sent_ok d (fst (fst (dap_cmd d ?tx ?n ?rx ?m))) =>
        destruct (dap_cmd_effect d tx n rx m) as (u & E & Hout) end.
      apply (cmd_sent _ _ _ u E Hout). discriminate. }
  clearbody d1. destruct H1 as [Hs1 Hg1].
  destruct (init_sent P d1 Hg1) as [Hg2 Hu2].
  apply (sent_ok_trans d d1); [exact Hs1|].
  apply (sent_ok_from d1 (dc_q_init d1)); [exact Hu2|].
  eapply sent_ok_trans; [apply (raw_rd_sent P); exact Hg2|].
  apply (exec_sent P). apply qgood_raw_rd; [reflexivity|exact Hg2].
Qed.

Lemma step_sent (P : Z) (d : DC) (o : q_op) :
  qgood P d -> sent_ok d (step d o).
Proof.
  intros H.
  destruct (init_sent P d H) as [Hg0 Hu0].
  assert (Hrd : forall x req v, is_read (u8 req) = true ->
            qgood P x -> sent_ok x (fst (dc_q_exec (dc_q_raw_rd x req v)))).
  { intros x req v Hreq Hx.
    eapply sent_ok_trans; [apply (raw_rd_sent P); exact Hx|].
    apply (exec_sent P). apply qgood_raw_rd; assumption. }
  assert (Hwr : forall x req v, is_read (u8 req) = false ->
            qgood P x -> sent_ok x (fst (dc_q_exec (dc_q_raw_wr x req v)))).
  { intros x req v Hreq Hx.
    eapply sent_ok_trans; [apply (raw_wr_sent P); exact Hx|].
    apply (exec_sent P). apply qgood_raw_wr; [intros _; exact Hreq|exact Hx]. }
  destruct o as [| |a|a|a v|a v|a v|a v|m|n|a v|a v|a v|a v|a v|a v|f t p];
    cbn [step].
  - apply sent_ok_same. exact Hu0.
  - apply (exec_sent P), H.
  - apply (dp_sel_sent P), H.
  - apply (ap_sel_sent P), H.
  - unfold dc_q_dp_rd. destruct (negb (is_ok (qerror d)));
      [apply sent_ok_same; reflexivity|].
    eapply sent_ok_trans; [apply (dp_sel_sent P), H|].
    apply (raw_rd_sent P), qgood_dp_sel, H.
  - unfold dc_q_dp_wr. destruct (negb (is_ok (qerror d)));
      [apply sent_ok_same; reflexivity|].
    eapply sent_ok_trans; [apply (dp_sel_sent P), H|].
    apply (raw_wr_sent P), qgood_dp_sel, H.
  - unfold dc_q_ap_rd. destruct (negb (is_ok (qerror d)));
      [apply sent_ok_same; reflexivity|].
    eapply sent_ok_trans; [apply (ap_sel_sent P), H|].
    apply (raw_rd_sent P), qgood_ap_sel, H.
  - unfold dc_q_ap_wr. destruct (negb (is_ok (qerror d)));
      [apply sent_ok_same; reflexivity|].
    eapply sent_ok_trans; [apply (ap_sel_sent P), H|].
    apply (raw_wr_sent P), qgood_ap_sel, H.
  - unfold dc_q_set_mask. destruct (negb (is_ok (qerror d)));
      [apply sent_ok_same; reflexivity|].
    destruct (cfg_mask d =? m); [apply sent_ok_same; reflexivity|].
    cbv zeta.
    apply (sent_ok_from d (set_cfg_mask m d)); [destruct d; reflexivity|].
    apply (raw_wr_sent P).
    eapply qgood_same_queue; [|exact H].
    destruct d. unfold same_queue. cbn. auto 10.
  - unfold dc_set_match_retry. destruct (negb (is_ok (qerror d)));
      [apply sent_ok_same; reflexivity|].
    apply xfer_config_sent.
  - unfold dc_q_ap_match. destruct (negb (is_ok (qerror d)));
      [apply sent_ok_same; reflexivity|].
    eapply sent_ok_trans; [apply (ap_sel_sent P), H|].
    apply (raw_wr_sent P), qgood_ap_sel, H.
  - unfold dc_q_dp_match. destruct (negb (is_ok (qerror d)));
      [apply sent_ok_same; reflexivity|].
    eapply sent_ok_trans; [apply (ap_sel_sent P), H|].
    apply (raw_wr_sent P), qgood_ap_sel, H.
  - unfold dc_dp_rd, dc_q_dp_rd.
    apply (sent_ok_from d (dc_q_init d)); [exact Hu0|].
    destruct (negb (is_ok (qerror (dc_q_init d)))); [apply (exec_sent P), Hg0|].
    eapply sent_ok_trans; [apply (dp_sel_sent P), Hg0|].
    apply Hrd; [apply is_read_dp_rd|apply qgood_dp_sel, Hg0].
  - unfold dc_dp_wr, dc_q_dp_wr.
    apply (sent_ok_from d (dc_q_init d)); [exact Hu0|].
    destruct (negb (is_ok (qerror (dc_q_init d)))); [apply (exec_sent P), Hg0|].
    eapply sent_ok_trans; [apply (dp_sel_sent P), Hg0|].
    apply Hwr; [apply is_read_dp_wr|apply qgood_dp_sel, Hg0].
  - unfold dc_ap_rd, dc_q_ap_rd.
    apply (sent_ok_from d (dc_q_init d)); [exact Hu0|].
    destruct (negb (is_ok (qerror (dc_q_init d)))); [apply (exec_sent P), Hg0|].
    eapply sent_ok_trans; [apply (ap_sel_sent P), Hg0|].
    apply Hrd; [apply is_read_ap_rd|apply qgood_ap_sel, Hg0].
  - unfold dc_ap_wr, dc_q_ap_wr.
    apply (sent_ok_from d (dc_q_init d)); [exact Hu0|].
    destruct (negb (is_ok (qerror (dc_q_init d)))); [apply (exec_sent P), Hg0|].
    eapply sent_ok_trans; [apply (ap_sel_sent P), Hg0|].
    apply Hwr; [apply is_read_ap_wr|apply qgood_ap_sel, Hg0].
  - apply (attach_sent P), H.
Qed.

(** Whatever operations are called, in whatever order and whatever the
    carrier and the probe answer, every DAP_Transfer packet handed to the
    carrier is well formed: its count field is the number of the request
    records in it, between 1 and 255.  This holds for packet sizes up to
    642. *)
Theorem transfer_packets_well_formed (P : Z) (dc : DC) (ops : list q_op) :
  qgood P dc ->
  exists sent : list (list Z),
    usb_out (usb (run ops dc)) = usb_out (usb dc) ++ sent /\
    Forall (fun pkt => peek pkt 0 = DAP_Transfer -> wf_transfer pkt) sent.
Proof.
  revert dc. induction ops as [|o ops IH]; intros dc H.
  - exists []. rewrite app_nil_r. split; [reflexivity|constructor].
  - unfold run in *. cbn [fold_left].
    apply (sent_ok_trans dc (step dc o)).
    + apply (step_sent P), H.
    + apply IH. apply qgood_step, H.
Qed.

End Wire.

(** ** The properties above, on runs of the code *)

Section MoreRuns.
#[local] Existing Instance adiv5_headers.

(** A Connect answered by its opcode alone: the port number of the command,
    1, is read as the status. *)
Lemma dap_cmd_std_one_byte_response_witness :
  let dc := set_usb (mk_usb [2] [(1, [0x02])] []) calloc_DC in
  snd (dap_cmd_std dc [DAP_Connect; 1] 2 2) = DC_ERR_REMOTE.
Proof.
  intros dc.
  apply (dap_cmd_std_one_byte_response dc DAP_Connect 1 [] 2 2 [] [] 0x02).
  - reflexivity.
  - reflexivity.
  - reflexivity.
  - lia.
Defined.

(** A TransferConfigure of 8 idle cycles, 64 wait retries and 0x1234 match
    retries. *)
Lemma dap_xfer_config_encoding_witness :
  exists b1 b2 b3 b4 b5,
    usb_out (usb (fst (dap_xfer_config calloc_DC 8 64 0x1234)))
      = usb_out (usb calloc_DC) ++ [[DAP_TransferConfigure; b1; b2; b3; b4; b5]] /\
    b1 = Z.min 8 255 /\
    b2 + 256 * b3 = Z.min 64 65535 /\
    b4 + 256 * b5 = Z.min 0x1234 65535 /\
    Forall is_byte [b1; b2; b3; b4; b5].
Proof.
  apply (dap_xfer_config_encoding calloc_DC 8 64 0x1234).
  - lia.
  - lia.
  - lia.
  - vm_compute. intros [H _]. discriminate H.
Defined.

(** Two reads queued and flushed; the probe answers with two words. *)
Lemma dc_q_exec_stores_in_order_witness :
  let dc := dc_q_dp_rd (dc_q_dp_rd (dc_q_init (created (late_usb 5
              (11, [0x05; 2; 1; 0x77; 0x14; 0xA0; 0x2B;
                    0x40; 0x00; 0x00; 0xF0])))) 0x00 100) 0x0C 104 in
  snd (dc_q_exec dc) = DC_OK /\
  mem (fst (dc_q_exec dc)) = [(104, 0xF0000040); (100, 0x2BA01477)].
Proof.
  intros dc.
  destruct (dc_q_exec_stores_in_order dc 11
              [0x05; 2; 1; 0x77; 0x14; 0xA0; 0x2B; 0x40; 0x00; 0x00; 0xF0]
              [] []) as (H1 & H2 & _).
  - vm_compute. reflexivity.
  - vm_compute. intro H. discriminate H.
  - vm_compute. reflexivity.
  - vm_compute. reflexivity.
  - lia.
  - vm_compute. reflexivity.
  - vm_compute. reflexivity.
  - split; [exact H1|]. rewrite H2. vm_compute. reflexivity.
Defined.

(** The same two reads, answered by a FAULT. *)
Lemma dc_q_exec_decoded_error_witness :
  let dc := dc_q_dp_rd (dc_q_dp_rd (dc_q_init (created (late_usb 5
              (3, [0x05; 0; 4])))) 0x00 100) 0x0C 104 in
  snd (dc_q_exec dc) = DC_ERR_SWD_FAULT /\ mem (fst (dc_q_exec dc)) = [].
Proof.
  intros dc.
  destruct (dc_q_exec_decoded_error dc 3 [0x05; 0; 4] [] [])
    as (H1 & H2 & _).
  - vm_compute. reflexivity.
  - vm_compute. intro H. discriminate H.
  - vm_compute. reflexivity.
  - vm_compute. reflexivity.
  - lia.
  - vm_compute. reflexivity.
  - vm_compute. intro H. discriminate H.
  - split; [rewrite H1; vm_compute; reflexivity|].
    rewrite H2. vm_compute. reflexivity.
Defined.

(** A read of DP.IDR answered by 0x2BA01477. *)
Lemma dc_dp_rd_reads_witness :
  let dc := created (late_usb 4 (7, [0x05; 1; 1; 0x77; 0x14; 0xA0; 0x2B])) in
  snd (dc_dp_rd dc 0x00 100) = DC_OK /\
  mem (fst (dc_dp_rd dc 0x00 100)) = [(100, 0x2BA01477)].
Proof.
  intros dc.
  destruct (dc_dp_rd_reads dc 0x00 100 0x2BA01477 1 1 [] [])
    as (H1 & H2 & _).
  - vm_compute. split; reflexivity.
  - reflexivity.
  - vm_compute. intro H. discriminate H.
  - vm_compute. reflexivity.
  - vm_compute. reflexivity.
  - vm_compute. reflexivity.
  - lia.
  - split; [exact H1|]. rewrite H2. vm_compute. reflexivity.
Defined.

(** An attach whose sequence command is answered by a read error. *)
Lemma dc_attach_reads_idr_witness :
  let dc := set_usb (mk_usb [45; 4]
                       [(-1, []); (7, [0x05; 1; 1; 0x77; 0x14; 0xA0; 0x2B])] [])
                    (created dead_usb) in
  snd (dc_attach dc 0 0 100) = DC_OK /\
  mem (fst (dc_attach dc 0 0 100)) = [(100, 0x2BA01477)].
Proof.
  intros dc.
  destruct (dc_attach_reads_idr dc 0 0 100 0x2BA01477 1 1 [] (-1, []) [])
    as (H1 & H2 & _).
  - vm_compute. split; reflexivity.
  - vm_compute. reflexivity.
  - vm_compute. reflexivity.
  - vm_compute. reflexivity.
  - lia.
  - split; [exact H1|]. rewrite H2. vm_compute. reflexivity.
Defined.

(** Two reads in one batch. *)
Lemma dc_q_dp_rd_batch_witness :
  let dc := created (late_usb 5
              (11, [0x05; 2; 1; 0x77; 0x14; 0xA0; 0x2B;
                    0x40; 0x00; 0x00; 0xF0])) in
  let dq := fold_left (fun d v => dc_q_dp_rd d 0x0C v) [100; 104]
              (dc_q_init dc) in
  usb dq = usb dc /\ snd (dc_q_exec dq) = DC_OK /\
  mem (fst (dc_q_exec dq)) = [(104, 0xF0000040); (100, 0x2BA01477)].
Proof.
  intros dc dq.
  destruct (dc_q_dp_rd_batch dc 0x0C 2 1 [100; 104] [0x2BA01477; 0xF0000040]
              [] []) as (H0 & H1 & H2 & _).
  - vm_compute. split; reflexivity.
  - vm_compute. intro H. discriminate H.
  - vm_compute. intro H. discriminate H.
  - vm_compute. intro H. discriminate H.
  - reflexivity.
  - vm_compute. intro H. discriminate H.
  - vm_compute. reflexivity.
  - vm_compute. reflexivity.
  - reflexivity.
  - repeat constructor; lia.
  - vm_compute. reflexivity.
  - subst dq. split; [exact H0|]. split; [exact H1|].
    rewrite H2. vm_compute. reflexivity.
Defined.

(** A read of the IDR of AP 1, register 0xFC. *)
Lemma dc_ap_rd_selects_then_reads_witness :
  let dc := created (late_usb 9 (7, [0x05; 2; 1; 0x01; 0x00; 0x77; 0x24])) in
  snd (dc_ap_rd dc 0x01FC 100) = DC_OK /\
  mem (fst (dc_ap_rd dc 0x01FC 100)) = [(100, 0x24770001)] /\
  last (usb_out (usb (fst (dc_ap_rd dc 0x01FC 100))))
  = Some [0x05; 0; 2; 0x08; 0xF0; 0x00; 0x00; 0x01; 0x0F].
Proof.
  intros dc.
  destruct (dc_ap_rd_selects_then_reads dc 0x01FC 100 0x24770001 2 1 [] [])
    as (H1 & H2 & H3 & _).
  - vm_compute. split; reflexivity.
  - vm_compute. split; intro H; discriminate H.
  - reflexivity.
  - vm_compute. intro H. discriminate H.
  - vm_compute. reflexivity.
  - vm_compute. reflexivity.
  - vm_compute. reflexivity.
  - lia.
  - split; [exact H1|]. split; [rewrite H2; vm_compute; reflexivity|].
    rewrite H3. vm_compute. reflexivity.
Defined.

(** Two reads of AP 1, bank 0. *)
Lemma dc_q_ap_rd_select_once_witness :
  let dc := dc_q_init (created (probe 512)) in
  q_stream (dc_q_ap_rd (dc_q_ap_rd dc 0x0100 100) 0x0104 104)
  = [0x08; 0x00; 0x00; 0x00; 0x01; 0x03; 0x07].
Proof.
  intros dc.
  destruct (dc_q_ap_rd_select_once dc 0x0100 0x0104 100 104)
    as (H1 & _).
  - vm_compute. reflexivity.
  - reflexivity.
  - reflexivity.
  - reflexivity.
  - vm_compute. intro H. discriminate H.
  - apply Nat.leb_le. vm_compute. reflexivity.
  - vm_compute. split; [intro H; discriminate H|reflexivity].
  - vm_compute. split; [intro H; discriminate H|reflexivity].
  - rewrite H1. vm_compute. reflexivity.
Defined.

(** A read of the invalid DP address 0x01, then three more operations. *)
Lemma latched_error_is_sticky_witness :
  let dc := dc_q_dp_rd (dc_q_init (created (probe 512))) 0x01 100 in
  let ops := [op_q_ap_wr 0x00 7; op_q_dp_rd 0x04 200; op_set_match_retry 5] in
  run ops dc = dc /\ dc_q_exec (run ops dc) = (dc_q_clear dc, qerror dc).
Proof.
  intros dc ops.
  apply (latched_error_is_sticky dc ops).
  - vm_compute. intro H. discriminate H.
  - repeat constructor.
Defined.

(** The context made for a probe with packets of 512 bytes. *)
Lemma dc_create_context_witness :
  let dc := created (probe 512) in
  DC_OK = DC_OK /\ arrays_ok dc /\
  64 <= max_packet_size dc <= 1024 /\ 1 <= max_packet_count dc /\
  (cfg_idle dc, cfg_wait dc, cfg_match dc) = (8, 64, 0) /\
  cfg_mask dc = INVALID /\ dp_select_cache dc = INVALID /\
  qerror dc = DC_OK /\ q_count dc = 0 /\
  (txnext dc, rxnext dc, txavail dc, rxavail dc) = (3, 0, 61, 61) /\
  mem dc = [].
Proof.
  intros dc.
  apply (dc_create_context true (fun _ _ _ => Some (probe 512)) DC_OK dc).
  vm_compute. reflexivity.
Defined.

(** The packets sent to a probe with packets of 512 bytes. *)
Lemma dc_create_packets_witness :
  let dc := created (probe 512) in
  usb_out (usb dc)
  = usb_out (probe 512)
    ++ map (fun n => [DAP_Info; n]) [0; 1; 2; 3; 4; 5; 6; 7; 8; 9]
    ++ [[DAP_Info; u8 DI_Capabilities];
        [DAP_Info; u8 DI_UART_RX_Buffer_Size];
        [DAP_Info; u8 DI_UART_TX_Buffer_Size];
        [DAP_Info; u8 DI_SWO_Trace_Buffer_Size];
        [DAP_Info; u8 DI_Max_Packet_Count];
        [DAP_Info; u8 DI_Max_Packet_Size];
        [DAP_Connect; u8 PORT_SWD];
        [DAP_SWD_Configure; u8 CFG_Turnaround_1];
        [DAP_TransferConfigure; 8; 64; 0; 0; 0]].
Proof.
  intros dc.
  apply (dc_create_packets (fun _ _ _ => Some (probe 512)) (probe 512) DC_OK dc).
  - reflexivity.
  - vm_compute. reflexivity.
Defined.


(** The same read when the carrier refuses the packet: [Io] is latched,
    the read is not queued and the fifteen reads stay queued. *)
Lemma dc_q_raw_rd_full_queue_io :
  let d := run (replicate 15 (op_q_dp_rd 0x00 100))
             (dc_q_init (created dead_usb)) in
  let d' := dc_q_raw_rd d 0x02 104 in
  snd (dc_q_exec d) = DC_ERR_IO /\ qerror d' = DC_ERR_IO /\
  q_stream d' = q_stream d /\ q_count d' = 15.
Proof. vm_compute. repeat split; reflexivity. Qed.

(** The thirteenth write on packets of 64 bytes, the flush succeeding: the
    twelve writes are sent and the thirteenth opens the new packet. *)
Lemma dc_q_raw_wr_full_queue_witness :
  let d := run (replicate 12 (op_q_dp_wr 0x00 7))
             (dc_q_init (created (late_usb 63 (3, [0x05; 12; 1])))) in
  let d' := dc_q_raw_wr d 0x00 9 in
  snd (dc_q_exec d) = DC_OK /\
  usb_out (usb d') = usb_out (usb d) ++ [packet d] /\
  qerror d' = DC_OK /\
  packet d' = [DAP_Transfer; 0; 1; u8 0x00] ++ le_bytes32 9 /\
  rxnext d' = 0.
Proof.
  intros d d'.
  assert (Hok : snd (dc_q_exec d) = DC_OK) by (vm_compute; reflexivity).
  destruct (dc_q_raw_wr_full_queue d 0x00 9) as (Hout & Hyes & _).
  - vm_compute. repeat split; try reflexivity; intro H; discriminate H.
  - vm_compute. split; [intro H; discriminate H|reflexivity].
  - vm_compute. reflexivity.
  - vm_compute. reflexivity.
  - destruct (Hyes Hok) as (H1 & H2 & H3 & _).
    split; [exact Hok|]. split; [exact Hout|]. auto.
Defined.

(** Two writes of DP.ABORT in one batch. *)
Lemma dc_q_dp_wr_batch_witness :
  let dc := created (late_usb 13 (3, [0x05; 2; 1])) in
  let dq := fold_left (fun d v => dc_q_dp_wr d 0x00 v) [0x1E; 0x50000000]
              (dc_q_init dc) in
  snd (dc_q_exec dq) = DC_OK /\
  last (usb_out (usb (fst (dc_q_exec dq))))
  = Some [0x05; 0; 2; 0x00; 0x1E; 0; 0; 0; 0x00; 0; 0; 0; 0x50].
Proof.
  intros dc dq.
  destruct (dc_q_dp_wr_batch dc 0x00 2 1 [0x1E; 0x50000000] [] [])
    as (_ & H1 & _ & H3).
  - vm_compute. split; reflexivity.
  - vm_compute. intro H. discriminate H.
  - vm_compute. intro H. discriminate H.
  - vm_compute. intro H. discriminate H.
  - reflexivity.
  - vm_compute. intro H. discriminate H.
  - vm_compute. reflexivity.
  - vm_compute. reflexivity.
  - subst dq. split; [rewrite H1; vm_compute; reflexivity|].
    rewrite H3. vm_compute. reflexivity.
Defined.

(** A probe with packets of 512 bytes; reads, writes, an attach and a
    flush. *)
Lemma transfer_packets_well_formed_witness :
  let dc := dc_q_init (created (probe 512)) in
  let ops := [op_q_ap_rd 0x00 100; op_q_dp_wr 0x04 1; op_attach 0 0 104;
              op_q_ap_wr 0x0104 7; op_q_exec] in
  exists sent : list (list Z),
    usb_out (usb (run ops dc)) = usb_out (usb dc) ++ sent /\
    Forall (fun pkt => peek pkt 0 = DAP_Transfer -> wf_transfer pkt) sent.
Proof.
  intros dc ops.
  assert (Hs : Z.testbit DP_SELECT 1 = false) by reflexivity.
  apply (transfer_packets_well_formed Hs 512 dc ops).
  split; [reflexivity|]. split; [lia|]. split.
  - vm_compute. repeat split; try reflexivity; intro H; discriminate H.
  - intros _. split; [reflexivity|]. split; [reflexivity|].
    exists 0%nat. split; [vm_compute; constructor|reflexivity].
Defined.

End MoreRuns.

(** * The command line *)

Section CommandLineProps.
Variable char_signed : bool.
Variable strtoul : list Z -> Z -> Z * list Z.
Variable cc_n0 : nat -> Z.

Local Abbreviation scan_ := (scan char_signed strtoul cc_n0).
Local Abbreviation handle_line_ := (handle_line char_signed strtoul cc_n0).

(** The characters of a word are the same signed or unsigned, and are
    neither the terminator, nor blank, nor '#'. *)
Lemma uchar_word (b : Z) : 32 < b < 128 -> uchar char_signed b = b.
Proof.
  intros H. unfold uchar, char_val.
  replace (128 <=? b) with false by (symmetry; apply Z.leb_gt; lia).
  rewrite andb_false_r. apply u32_small. lia.
Qed.

Lemma uchar_byte (b : Z) :
  0 <= b < 256 ->
  (uchar char_signed b = 0 <-> b = 0) /\
  (uchar char_signed b <= 32 <-> b <= 32) /\
  (uchar char_signed b = 35 <-> b = 35).
Proof.
  intros H. unfold uchar, char_val.
  destruct (char_signed && (128 <=? b)) eqn:E.
  - apply andb_true_iff in E as [_ E]. apply Z.leb_le in E.
    replace (u32 (b - 256)) with (b - 256 + 4294967296).
    + lia.
    + unfold u32. rewrite <- (Z_mod_plus_full (b - 256) 1 4294967296).
      symmetry. rewrite Z.mul_1_l. apply Z.mod_small. lia.
  - rewrite u32_small by lia. lia.
Qed.

Lemma parse_s (s : list Z) : tok_s (parse strtoul s) = s.
Proof.
  unfold parse.
  destruct (strtoul s 16) as [n e].
  destruct ((peek s 0 =? 46) && negb (peek s 1 =? 0)).
  - destruct (strtoul (drop 1 s) 10) as [n' e'].
    destruct (peek e' 0 =? 0); [reflexivity|].
    destruct (peek e 0 =? 0); reflexivity.
  - destruct (peek e 0 =? 0); reflexivity.
Qed.

(** Inside a token, the characters of a word are appended to it. *)
Lemma scan_in_word (w rest s : list Z) (toks : list (list Z)) :
  Forall (fun b => 32 < b < 128 /\ b <> 35) w ->
  scan_ (w ++ rest) (Some s) toks = scan_ rest (Some (s ++ w)) toks.
Proof.
  intros H. revert s. induction H as [|b w [Hb Hc] _ IH]; intros s.
  - rewrite app_nil_r. reflexivity.
  - cbn [app scan]. rewrite uchar_word by exact Hb.
    replace (b =? 0) with false by (symmetry; apply Z.eqb_neq; lia).
    replace (b =? 35) with false by (symmetry; apply Z.eqb_neq; lia).
    replace (b <=? 32) with false by (symmetry; apply Z.leb_gt; lia).
    rewrite IH, <- app_assoc. reflexivity.
Qed.

(** Looking for a token, a word starts one when there is room. *)
Lemma scan_word (w rest : list Z) (toks : list (list Z)) :
  is_word w -> (length toks < 16)%nat ->
  scan_ (w ++ rest) None toks = scan_ rest (Some w) toks.
Proof.
  intros [Hne H] Hn. destruct w as [|b w]; [contradiction|].
  inversion H as [|? ? [Hb Hc] Hw]; subst.
  cbn [app scan]. rewrite uchar_word by exact Hb.
  replace (b =? 0) with false by (symmetry; apply Z.eqb_neq; lia).
  replace (b =? 35) with false by (symmetry; apply Z.eqb_neq; lia).
  replace (b <=? 32) with false by (symmetry; apply Z.leb_gt; lia).
  replace (Z.of_nat (length toks) =? MAX_ARGS) with false
    by (symmetry; apply Z.eqb_neq; unfold MAX_ARGS; lia).
  apply (scan_in_word w rest [b]). exact Hw.
Qed.

(** Words that are each followed by a blank become tokens, in order. *)
Lemma scan_words (ws : list (list Z)) (tail : list Z) (toks : list (list Z)) :
  Forall is_word ws -> (length toks + length ws <= 16)%nat ->
  scan_ (concat (map (fun w => w ++ [32]) ws) ++ tail) None toks
  = scan_ tail None (toks ++ ws).
Proof.
  intros H. revert toks. induction H as [|w ws Hw _ IH]; intros toks Hn.
  - rewrite app_nil_r. reflexivity.
  - cbn [map concat length] in *. rewrite <- !app_assoc.
    rewrite scan_word by (exact Hw || lia).
    cbn [app scan].
    replace (uchar char_signed 32) with 32
      by (unfold uchar, char_val; rewrite andb_false_r; reflexivity).
    cbn [Z.eqb Z.leb Z.compare Pos.compare Pos.compare_cont].
    rewrite IH by (rewrite length_app; cbn [length]; lia).
    rewrite <- app_assoc. reflexivity.
Qed.

Lemma skip_blanks_word (w rest : list Z) :
  is_word w -> skip_blanks char_signed (w ++ rest) = w ++ rest.
Proof.
  intros [Hne H]. destruct w as [|b w]; [contradiction|].
  inversion H as [|? ? [Hb Hc] Hw]; subst.
  cbn [app skip_blanks]. unfold char_val.
  replace (128 <=? b) with false by (symmetry; apply Z.leb_gt; lia).
  rewrite andb_false_r.
  replace (b <=? 32) with false by (symmetry; apply Z.leb_gt; lia).
  rewrite andb_false_r. reflexivity.
Qed.

(** A line that begins with a word other than one in '/' is scanned from
    its start. *)
Lemma handle_line_scan (w rest : list Z) :
  is_word w -> peek w 0 <> 47 ->
  handle_line_ (w ++ rest) = scan_ (w ++ rest) None [].
Proof.
  intros Hw H47. unfold handle_line. rewrite skip_blanks_word by exact Hw.
  destruct Hw as [Hne _]. destruct w as [|b w]; [contradiction|].
  cbn [app]. change (peek (b :: w ++ rest) 0) with b.
  change (peek (b :: w) 0) with b in H47.
  apply Z.eqb_neq in H47. rewrite H47. reflexivity.
Qed.

Lemma handle_line_scan_words (name : list Z) (ws : list (list Z))
    (tail : list Z) :
  is_word name -> peek name 0 <> 47 ->
  handle_line_ (concat (map (fun w => w ++ [32]) (name :: ws)) ++ tail)
  = scan_ (concat (map (fun w => w ++ [32]) (name :: ws)) ++ tail) None [].
Proof.
  intros Hw H47. cbn [map concat]. rewrite <- !app_assoc.
  apply handle_line_scan; assumption.
Qed.

(** Words separated by single blanks, at most sixteen and the first not
    beginning with '/': [debugger_command] is called with exactly these
    words as the tokens, the first as the name and the others parsed.  The
    field [n] of the name is the one field never assigned: it holds what the
    local held before. *)
Theorem handle_line_words (name : list Z) (ws : list (list Z)) :
  Forall is_word (name :: ws) -> peek name 0 <> 47 ->
  (length ws < 16)%nat ->
  handle_line_ (name ++ concat (map (fun w => 32 :: w) ws))
  = Command (mkTOKEN name (cc_n0 0%nat) tSTRING :: map (parse strtoul) ws).
Proof.
  intros H H47 Hn. inversion H as [|? ? Hname Hws]; subst.
  rewrite handle_line_scan by assumption.
  rewrite scan_word by (exact Hname || cbn [length]; lia).
  assert (G : forall (ws : list (list Z)) (s : list Z) (toks : list (list Z)),
            Forall is_word ws -> (length toks + length ws < 16)%nat ->
            scan_ (concat (map (fun w => 32 :: w) ws)) (Some s) toks
            = finish strtoul cc_n0 (toks ++ s :: ws)).
  { clear. intros ws. induction ws as [|w ws IH]; intros s toks Hws Hn.
    - reflexivity.
    - inversion Hws as [|? ? Hw Hws']; subst.
      cbn [map concat app scan length] in *.
      replace (uchar char_signed 32) with 32
        by (unfold uchar, char_val; rewrite andb_false_r; reflexivity).
      cbn [Z.eqb Z.leb Z.compare Pos.compare Pos.compare_cont].
      rewrite scan_word by (exact Hw || rewrite length_app; cbn [length]; lia).
      rewrite IH by (assumption || rewrite length_app; cbn [length]; lia).
      rewrite <- app_assoc. reflexivity. }
  rewrite G by (assumption || cbn [length]; lia).
  reflexivity.
Qed.

(** A '#' ends the line, and the word it is glued to is dropped with it:
    after words that are each followed by a blank, a word, or nothing,
    followed by '#' and anything leaves the command of the words before. *)
Theorem handle_line_comment (name : list Z) (ws : list (list Z))
    (g post : list Z) :
  Forall is_word (name :: ws) -> peek name 0 <> 47 ->
  (length ws < 15)%nat -> g = [] \/ is_word g ->
  handle_line_ (concat (map (fun w => w ++ [32]) (name :: ws)) ++ g ++ 35 :: post)
  = Command (mkTOKEN name (cc_n0 0%nat) tSTRING :: map (parse strtoul) ws).
Proof.
  intros H H47 Hn Hg.
  inversion H as [|? ? Hname Hws]; subst.
  rewrite handle_line_scan_words by assumption.
  rewrite scan_words by (assumption || cbn [length]; lia).
  cbn [app].
  assert (H35 : uchar char_signed 35 = 35)
    by (unfold uchar, char_val; rewrite andb_false_r; reflexivity).
  destruct Hg as [->|Hg].
  - cbn [app scan]. rewrite H35.
    cbn [Z.eqb Z.leb Z.compare Pos.compare Pos.compare_cont Pos.eqb].
    replace (Z.of_nat (length (name :: ws)) =? MAX_ARGS) with false
      by (symmetry; apply Z.eqb_neq; unfold MAX_ARGS; cbn [length]; lia).
    reflexivity.
  - rewrite scan_word by (exact Hg || cbn [length]; lia).
    cbn [scan]. rewrite H35.
    cbn [Z.eqb Z.leb Z.compare Pos.compare Pos.compare_cont Pos.eqb].
    reflexivity.
Qed.

(** After sixteen words any further character that is not blank, a '#'
    included, makes the line one of too many arguments: no command is
    run. *)
Theorem handle_line_too_many (name : list Z) (ws : list (list Z))
    (b : Z) (rest : list Z) :
  Forall is_word (name :: ws) -> peek name 0 <> 47 ->
  length ws = 15%nat -> 32 < b < 128 ->
  handle_line_ (concat (map (fun w => w ++ [32]) (name :: ws)) ++ b :: rest)
  = TooManyArgs.
Proof.
  intros H H47 Hn Hb.
  inversion H as [|? ? Hname Hws]; subst.
  rewrite handle_line_scan_words by assumption.
  rewrite scan_words by (assumption || cbn [length]; lia).
  cbn [app scan]. rewrite uchar_word by exact Hb.
  replace (b =? 0) with false by (symmetry; apply Z.eqb_neq; lia).
  replace (b <=? 32) with false by (symmetry; apply Z.leb_gt; lia).
  replace (Z.of_nat (length (name :: ws)) =? MAX_ARGS) with true
    by (symmetry; apply Z.eqb_eq; unfold MAX_ARGS; cbn [length]; lia).
  reflexivity.
Qed.

(** A line whose first character after the blanks is '/' is the command
    "wconsole" with the rest of the line, blanks and '#' included, as its
    one argument; the [n] fields of the two tokens are not assigned.  Where
    [char] is signed the bytes from 0x80 on count as blanks at the start of
    a line. *)
Theorem handle_line_console (blanks rest : list Z) :
  Forall (fun b => 0 < b <= 32 \/ (char_signed = true /\ 128 <= b < 256))
    blanks ->
  handle_line_ (blanks ++ 47 :: rest)
  = Command [mkTOKEN wconsole (cc_n0 0%nat) tSTRING;
             mkTOKEN (cstr rest) (cc_n0 1%nat) tSTRING].
Proof.
  intros H. unfold handle_line.
  assert (E : skip_blanks char_signed (blanks ++ 47 :: rest) = 47 :: rest).
  { induction H as [|b l Hb _ IH].
    - cbn [app skip_blanks]. unfold char_val. rewrite andb_false_r. reflexivity.
    - cbn [app skip_blanks]. rewrite IH.
      replace (negb (b =? 0) && (char_val char_signed b <=? 32)) with true;
        [reflexivity|].
      symmetry. apply andb_true_iff. split.
      + apply negb_true_iff, Z.eqb_neq. lia.
      + apply Z.leb_le. unfold char_val.
        destruct Hb as [Hb|[-> Hb]].
        * destruct (char_signed && (128 <=? b)); lia.
        * replace (128 <=? b) with true by (symmetry; apply Z.leb_le; lia).
          cbn [andb]. lia. }
  rewrite E. reflexivity.
Qed.

(** The tokens [scan] yields have no blank, no '#' and no NUL, and are at
    most sixteen. *)
Lemma scan_clean (line : list Z) (cur : option (list Z))
    (toks : list (list Z)) (cc : list TOKEN) :
  let clean := fun s : list Z => s <> [] /\
                 Forall (fun b => 32 < b < 256 /\ b <> 35) s in
  Forall (fun b => 0 <= b < 256) line ->
  Forall clean toks -> (length toks <= 16)%nat ->
  match cur with
  | None => True
  | Some s => clean s /\ (length toks < 16)%nat
  end ->
  scan_ line cur toks = Command cc ->
  (1 <= length cc <= 16)%nat /\ Forall (fun t => clean (tok_s t)) cc.
Proof.
  intros clean Hline. revert cur toks.
  assert (Hfin : forall toks, Forall clean toks -> (length toks <= 16)%nat ->
            finish strtoul cc_n0 toks = Command cc ->
            (1 <= length cc <= 16)%nat /\ Forall (fun t => clean (tok_s t)) cc).
  { intros toks Ht Hn E. destruct toks as [|name args]; [discriminate|].
    cbn [finish] in E. injection E as <-.
    inversion Ht as [|? ? Hname Hargs]; subst.
    cbn [length] in *. rewrite length_map. split; [lia|].
    constructor; [exact Hname|].
    apply Forall_map. eapply Forall_impl; [exact Hargs|].
    intros s Hs. cbn. rewrite parse_s. exact Hs. }
  induction Hline as [|b rest Hb _ IH]; intros cur toks Ht Hn Hcur E.
  - destruct cur as [s|]; cbn [scan] in E.
    + apply (Hfin (toks ++ [s])); [|rewrite length_app; cbn [length]; lia|exact E].
      apply Forall_app. split; [exact Ht|constructor; [apply Hcur|constructor]].
    + apply (Hfin toks); assumption.
  - destruct (uchar_byte b Hb) as (U0 & U32 & U35).
    cbn [scan] in E. destruct cur as [s|].
    + destruct Hcur as [Hs Hlt].
      assert (Hts : Forall clean (toks ++ [s])).
      { apply Forall_app. split; [exact Ht|constructor; [exact Hs|constructor]]. }
      destruct (Z.eqb_spec (uchar char_signed b) 0) as [E0|E0].
      { apply (Hfin (toks ++ [s])); [exact Hts| |exact E].
        rewrite length_app. cbn [length]. lia. }
      destruct (Z.eqb_spec (uchar char_signed b) 35) as [E35|E35].
      { apply (Hfin toks); assumption. }
      destruct (Z.leb_spec (uchar char_signed b) 32) as [E32|E32].
      { apply (IH None (toks ++ [s])); [exact Hts| |exact I|exact E].
        rewrite length_app. cbn [length]. lia. }
      apply (IH (Some (s ++ [b])) toks); [exact Ht|exact Hn| |exact E].
      split; [|exact Hlt]. destruct Hs as [Hne Hs]. split.
      * intros Hnil. apply app_eq_nil in Hnil as [_ Hnil]. discriminate Hnil.
      * apply Forall_app. split; [exact Hs|].
        constructor; [|constructor]. lia.
    + destruct (Z.eqb_spec (uchar char_signed b) 0) as [E0|E0].
      { apply (Hfin toks); assumption. }
      destruct (Z.leb_spec (uchar char_signed b) 32) as [E32|E32].
      { apply (IH None toks); assumption. }
      destruct (Z.eqb_spec (Z.of_nat (length toks)) MAX_ARGS) as [En|En];
        [discriminate|].
      destruct (Z.eqb_spec (uchar char_signed b) 35) as [E35|E35].
      { apply (Hfin toks); assumption. }
      apply (IH (Some [b]) toks); [exact Ht|exact Hn| |exact E].
      unfold MAX_ARGS in En. split; [|lia].
      split; [discriminate|]. constructor; [|constructor]. lia.
Qed.

(** Whatever the line, a command that is run is either the "wconsole" of a
    line in '/', or has between one and sixteen tokens, none of them empty
    and none holding a blank, a control character or a '#'. *)
Theorem handle_line_tokens (line : list Z) (cc : list TOKEN) :
  Forall (fun b => 0 <= b < 256) line ->
  handle_line_ line = Command cc ->
  (exists rest, cc = [mkTOKEN wconsole (cc_n0 0%nat) tSTRING;
                      mkTOKEN rest (cc_n0 1%nat) tSTRING]) \/
  ((1 <= length cc <= 16)%nat /\
   Forall (fun t => tok_s t <> [] /\
             Forall (fun b => 32 < b < 256 /\ b <> 35) (tok_s t)) cc).
Proof.
  intros Hline E. unfold handle_line in E.
  destruct (peek (skip_blanks char_signed line) 0 =? 47).
  - left. injection E as <-. eexists. reflexivity.
  - right.
    assert (Hs : Forall (fun b => 0 <= b < 256) (skip_blanks char_signed line)).
    { clear E. induction Hline as [|b l Hb Hl IH]; [constructor|].
      cbn [skip_blanks].
      destruct (negb (b =? 0) && (char_val char_signed b <=? 32));
        [exact IH|constructor; assumption]. }
    apply (scan_clean _ None [] cc Hs); [constructor|cbn [length]; lia|exact I|exact E].
Qed.

End CommandLineProps.

(** ** Command lines, run *)

(** "dump 20 .16": a name and two arguments, on a stack filled with 0x5A. *)
Lemma handle_line_words_witness :
  handle_line false (fun s _ => (0, s)) (fun _ => 0x5A5A5A5A)
    ([100; 117; 109; 112] ++ concat (map (fun w => 32 :: w) [[50; 48]; [46; 49; 54]]))
  = Command (mkTOKEN [100; 117; 109; 112] 0x5A5A5A5A tSTRING
             :: map (parse (fun s _ => (0, s))) [[50; 48]; [46; 49; 54]]).
Proof.
  apply (handle_line_words false (fun s _ => (0, s)) (fun _ => 0x5A5A5A5A)
           [100; 117; 109; 112] [[50; 48]; [46; 49; 54]]).
  - repeat first [lia | discriminate | constructor].
  - vm_compute. intro H. discriminate H.
  - cbn [length]. lia.
Defined.

(** "dump 20 x#y": the argument glued to the comment is lost. *)
Lemma handle_line_comment_witness :
  handle_line false (fun s _ => (0, s)) (fun _ => 0x5A5A5A5A)
    (concat (map (fun w => w ++ [32]) [[100; 117; 109; 112]; [50; 48]])
     ++ [120] ++ 35 :: [121])
  = Command (mkTOKEN [100; 117; 109; 112] 0x5A5A5A5A tSTRING
             :: map (parse (fun s _ => (0, s))) [[50; 48]]).
Proof.
  apply (handle_line_comment false (fun s _ => (0, s)) (fun _ => 0x5A5A5A5A)
           [100; 117; 109; 112] [[50; 48]] [120] [121]).
  - repeat first [lia | discriminate | constructor].
  - vm_compute. intro H. discriminate H.
  - cbn [length]. lia.
  - right. repeat first [lia | discriminate | constructor].
Defined.

(** Sixteen words "a" and a comment. *)
Lemma handle_line_too_many_witness :
  handle_line false (fun s _ => (0, s)) (fun _ => 0x5A5A5A5A)
    (concat (map (fun w => w ++ [32]) ([97] :: replicate 15 [97])) ++ 35 :: [120])
  = TooManyArgs.
Proof.
  apply (handle_line_too_many false (fun s _ => (0, s)) (fun _ => 0x5A5A5A5A) [97] (replicate 15 [97])
           35 [120]).
  - repeat first [lia | discriminate | constructor].
  - vm_compute. intro H. discriminate H.
  - reflexivity.
  - lia.
Defined.

(** "  /a #b" where [char] is signed. *)
Lemma handle_line_console_witness :
  handle_line true (fun s _ => (0, s)) (fun _ => 0x5A5A5A5A) ([32; 32] ++ 47 :: [97; 32; 35; 98])
  = Command [mkTOKEN wconsole 0x5A5A5A5A tSTRING;
             mkTOKEN (cstr [97; 32; 35; 98]) 0x5A5A5A5A tSTRING].
Proof.
  apply (handle_line_console true (fun s _ => (0, s)) (fun _ => 0x5A5A5A5A) [32; 32] [97; 32; 35; 98]).
  repeat first [left; lia | constructor].
Defined.

(** "x  y": two tokens. *)
Lemma handle_line_tokens_witness :
  let cc := [mkTOKEN [120] 0x5A5A5A5A tSTRING; mkTOKEN [121] 0 tSTRING] in
  (exists rest, cc = [mkTOKEN wconsole 0x5A5A5A5A tSTRING;
                      mkTOKEN rest 0x5A5A5A5A tSTRING]) \/
  ((1 <= length cc <= 16)%nat /\
   Forall (fun t => tok_s t <> [] /\
             Forall (fun b => 32 < b < 256 /\ b <> 35) (tok_s t)) cc).
Proof.
  intros cc.
  apply (handle_line_tokens false (fun s _ => (0, s)) (fun _ => 0x5A5A5A5A) [120; 32; 32; 121]).
  - repeat first [lia | constructor].
  - vm_compute. reflexivity.
Defined.
